(** * zotcite: the [ZoteroEntries] class of python3/zotero.py

    A shallow embedding of the class that loads a Zotero data base into
    memory, computes citation keys, answers completion queries and renders
    YAML references, together with the properties of it that the
    specification states.

    Conventions of the embedding.
    - Python [str] is [string]; the text is ASCII (a code below 128), so
      [lower], [title] and the regex class [\W] are the ASCII ones.
    - A Python [dict] is an association list in insertion order with the
      three operations of the interpreter: assigning to a present key keeps
      its place, assigning to a new key appends, [pop] removes.
    - Dynamically typed entry values are the type [value].
    - Methods are computations in a state-and-exception monad over the
      object: an exception keeps the assignments made before it, as in
      Python.
    - The data base is given by the rows of the queries of the source; a
      query with an ORDER BY clause that a property depends on is sorted by
      the embedding. A column is typed as the code uses it: an item id is
      an integer, a text column is a string.
      The two columns of the attachment query that are NULL in the data
      bases Zotero writes, the parent and the path, are options. A data
      base that holds a number or NULL in another text column is outside
      the embedding.
    - The regular expressions are embedded at the shapes they have for
      banned words made of letters, digits and blanks, and the
      replacement texts for texts without backslash, which [re.sub] takes
      as they are; that a load completes is stated for these.
    - [os.path.getmtime] is a number that is only stored and compared; it
      is an integer here. *)

From Stdlib Require Import ZArith List String Ascii Bool Lia.
From Stdlib Require Import Sorting.Mergesort Sorting.Sorted Orders.
From Stdlib Require Import DecimalString.
Import ListNotations.
Open Scope string_scope.
Open Scope Z_scope.
Set Warnings "-register-all".

(** ** Python strings *)

Module Py.

Definition dq : ascii := "034"%char.
Definition sq : ascii := "039"%char.
Definition tab : ascii := "009"%char.
Definition nl : ascii := "010"%char.
Definition cr : ascii := "013"%char.
Definition bs : ascii := "092"%char.

Definition between (lo hi c : ascii) : bool :=
  ((lo <=? c) && (c <=? hi))%char.

Definition is_upper (c : ascii) : bool := between "A" "Z" c.
Definition is_lower (c : ascii) : bool := between "a" "z" c.
Definition is_digit (c : ascii) : bool := between "0" "9" c.
Definition is_cased (c : ascii) : bool := is_upper c || is_lower c.

(** [\w] of [re] on ASCII text: letters, digits and the underscore. *)
Definition is_word (c : ascii) : bool :=
  is_upper c || is_lower c || is_digit c || (c =? "_")%char.

Definition lower_char (c : ascii) : ascii :=
  if is_upper c then ascii_of_N (N_of_ascii c + 32) else c.

Definition upper_char (c : ascii) : ascii :=
  if is_lower c then ascii_of_N (N_of_ascii c - 32) else c.

Fixpoint smap (f : ascii -> ascii) (s : string) : string :=
  match s with
  | EmptyString => EmptyString
  | String c s' => String (f c) (smap f s')
  end.

Fixpoint sfilter (f : ascii -> bool) (s : string) : string :=
  match s with
  | EmptyString => EmptyString
  | String c s' => if f c then String c (sfilter f s') else sfilter f s'
  end.

Fixpoint smem (c : ascii) (s : string) : bool :=
  match s with
  | EmptyString => false
  | String c' s' => (c =? c')%char || smem c s'
  end.

(** [s.lower()] *)
Definition lower (s : string) : string := smap lower_char s.

(** [s.title()]: a cased character is upper-cased when the one before it
    is not cased and lower-cased otherwise. *)
Fixpoint title_from (previous_is_cased : bool) (s : string) : string :=
  match s with
  | EmptyString => EmptyString
  | String c s' =>
      String (if previous_is_cased then lower_char c else upper_char c)
             (title_from (is_cased c) s')
  end.

Definition title (s : string) : string := title_from false s.

(** [s.find(sub)]: the lowest index at which [sub] occurs, or -1. *)
Fixpoint find_from (sub s : string) (i : Z) : Z :=
  if prefix sub s then i
  else match s with
       | EmptyString => -1
       | String _ s' => find_from sub s' (i + 1)
       end.

Definition find (s sub : string) : Z := find_from sub s 0.

(** [s.split(c)] for a one-character separator. *)
Fixpoint split (c : ascii) (s : string) : list string :=
  match s with
  | EmptyString => [EmptyString]
  | String a s' =>
      if (a =? c)%char then EmptyString :: split c s'
      else match split c s' with
           | x :: r => String a x :: r
           | [] => [String a EmptyString]
           end
  end.

(** [sep.join(l)] *)
Fixpoint join (sep : string) (l : list string) : string :=
  match l with
  | [] => EmptyString
  | [x] => x
  | x :: r => x ++ sep ++ join sep r
  end.

(** The characters of a string, as iterating over it yields them. *)
Fixpoint chars (s : string) : list string :=
  match s with
  | EmptyString => []
  | String c s' => String c EmptyString :: chars s'
  end.

(** [str(n)] for an integer. *)
Definition str_of_int (n : Z) : string := NilZero.string_of_int (Z.to_int n).

(** *** The calls of [re.sub] that the class makes

    Each function below is [re.sub] at one shape of pattern. The
    replacement is taken as it is written, which is what [re.sub] does when
    the replacement holds no backslash escape to expand. *)

(** [re.sub(pat, repl, s)] for a pattern that is plain text, such as
    ['{author}'] (a brace that opens no repetition stands for itself):
    every occurrence, leftmost first, none overlapping. [skip] counts the
    characters of the current occurrence that are still to be dropped. *)
Fixpoint sub_plain_from (pat repl s : string) (skip : nat) : string :=
  match s with
  | EmptyString => EmptyString
  | String c s' =>
      match skip with
      | S k => sub_plain_from pat repl s' k
      | O =>
          if prefix pat s
          then repl ++ sub_plain_from pat repl s' (String.length pat - 1)
          else String c (sub_plain_from pat repl s' O)
      end
  end.

Definition sub_plain (pat repl s : string) : string :=
  sub_plain_from pat repl s O.

(** [re.sub('[...].*', '', s)], also for a single character in place of
    the class: from the first character of the class on, the rest of the
    line goes ([.] does not match a newline, where copying resumes). *)
Fixpoint sub_rest_from (cls : ascii -> bool) (dropping : bool) (s : string)
  : string :=
  match s with
  | EmptyString => EmptyString
  | String c s' =>
      if dropping then
        if (c =? nl)%char then String c (sub_rest_from cls false s')
        else sub_rest_from cls true s'
      else
        if cls c then sub_rest_from cls true s'
        else String c (sub_rest_from cls false s')
  end.

Definition sub_rest (cls : ascii -> bool) (s : string) : string :=
  sub_rest_from cls false s.

(** [re.sub('^' + lit, '', s)]: only the start of the text can match. *)
Definition strip_prefix (lit s : string) : string :=
  if prefix lit s
  then substring (String.length lit) (String.length s - String.length lit) s
  else s.

(** [re.sub('^[c1][c2]', '', s)] for two character classes. *)
Definition strip_two (c1 c2 : ascii -> bool) (s : string) : string :=
  match s with
  | String a (String b r) => if c1 a && c2 b then r else s
  | _ => s
  end.

(** [re.sub('^(a1|a2|...)', '', s)] for plain alternatives: the first one
    that matches at the start is the one taken. *)
Fixpoint strip_alternatives (alts : list string) (s : string) : string :=
  match alts with
  | [] => s
  | a :: r => if prefix a s then strip_prefix a s else strip_alternatives r s
  end.

(** [re.sub('\W', '', s)] *)
Definition sub_nonword (s : string) : string := sfilter is_word s.

(** *** [repr] of a string, used by [str] of a list *)

Definition hexdigit (n : N) : ascii :=
  if (n <? 10)%N then ascii_of_N (48 + n) else ascii_of_N (87 + n).

Definition is_printable (c : ascii) : bool := between " " "~" c.

Fixpoint repr_body (q : ascii) (s : string) : string :=
  match s with
  | EmptyString => EmptyString
  | String c s' =>
      (if (c =? q)%char || (c =? bs)%char then String bs (String c EmptyString)
       else if (c =? tab)%char then "\t"
       else if (c =? nl)%char then "\n"
       else if (c =? cr)%char then "\r"
       else if is_printable c then String c EmptyString
       else "\x" ++ String (hexdigit (N_of_ascii c / 16))
                      (String (hexdigit (N_of_ascii c mod 16)) EmptyString))
      ++ repr_body q s'
  end.

Definition repr_str (s : string) : string :=
  let q := if smem sq s && negb (smem dq s) then dq else sq in
  String q (repr_body q s ++ String q EmptyString).

End Py.

(** ** Python values, exceptions and dictionaries *)

(** What an entry can hold: [None], a string, or a list (the tags, and the
    creators of one role as a list of two-element lists). *)
Inductive value : Type :=
| VNone
| VStr (s : string)
| VList (l : list value).

(** The key a [KeyError] reports. *)
Inductive pykey : Type :=
| KInt (n : Z)
| KStr (s : string)
| KNone.

Inductive exn : Type :=
| KeyError (k : pykey)
| IndexError
| TypeError
| AttributeError
| ValueError.

Inductive result (A : Type) : Type :=
| Ok (a : A)
| Raise (e : exn).

Arguments Ok {A} a.
Arguments Raise {A} e.

Definition rbind {A B} (c : result A) (k : A -> result B) : result B :=
  match c with
  | Ok a => k a
  | Raise e => Raise e
  end.

Notation "'let?' x := c 'in' k" := (rbind c (fun x => k))
  (at level 10, x name, c at level 100, k at level 200).

(** A method body: it reads and assigns the state [S]; an exception leaves
    the state as it is at the raise. *)
Definition M (S A : Type) : Type := S -> S * result A.

Definition ret {S A} (a : A) : M S A := fun s => (s, Ok a).
Definition raise {S A} (e : exn) : M S A := fun s => (s, Raise e).
Definition lift {S A} (r : result A) : M S A := fun s => (s, r).
Definition get {S} : M S S := fun s => (s, Ok s).
Definition put {S} (s : S) : M S unit := fun _ => (s, Ok tt).
Definition modify {S} (f : S -> S) : M S unit := fun s => (f s, Ok tt).

Definition bind {S A B} (c : M S A) (k : A -> M S B) : M S B :=
  fun s => match c s with
           | (s', Ok a) => k a s'
           | (s', Raise e) => (s', Raise e)
           end.

Notation "x <- c ;; k" := (bind c (fun x => k))
  (at level 61, c at next level, right associativity).
Notation "c ;; k" := (bind c (fun _ => k))
  (at level 61, right associativity).

(** [for x in l: body] *)
Fixpoint for_each {S A} (l : list A) (body : A -> M S unit) : M S unit :=
  match l with
  | [] => ret tt
  | x :: r => body x ;; for_each r body
  end.

(** Keys of dictionaries: decidable equality, and how a [KeyError] shows
    the key. *)
Class EqKey (K : Type) : Type := {
  keqb : K -> K -> bool;
  keqb_spec : forall a b, reflect (a = b) (keqb a b);
  key_repr : K -> pykey
}.

#[export] Instance EqKey_string : EqKey string :=
  {| keqb := String.eqb; keqb_spec := String.eqb_spec; key_repr := KStr |}.

#[export] Instance EqKey_Z : EqKey Z :=
  {| keqb := Z.eqb; keqb_spec := Z.eqb_spec; key_repr := KInt |}.

Definition ckey_eqb (a b : option string) : bool :=
  match a, b with
  | None, None => true
  | Some x, Some y => String.eqb x y
  | _, _ => false
  end.

Lemma ckey_eqb_spec (a b : option string) : reflect (a = b) (ckey_eqb a b).
Proof.
  destruct a as [x|], b as [y|]; simpl; try (constructor; congruence).
  destruct (String.eqb_spec x y); constructor; congruence.
Qed.

(** A collection name, or [None] for an item filed nowhere. *)
#[export] Instance EqKey_ckey : EqKey (option string) :=
  {| keqb := ckey_eqb; keqb_spec := ckey_eqb_spec;
     key_repr := fun k => match k with Some s => KStr s | None => KNone end |}.

Section Dict.
Context {K V : Type} `{EqKey K}.

Definition dict : Type := list (K * V).

(** [d.get(k)] *)
Fixpoint dget (k : K) (d : dict) : option V :=
  match d with
  | [] => None
  | (k', v) :: r => if keqb k k' then Some v else dget k r
  end.

(** [k in d] *)
Definition dmem (k : K) (d : dict) : bool :=
  match dget k d with Some _ => true | None => false end.

(** [d[k] = v] *)
Fixpoint dset (k : K) (v : V) (d : dict) : dict :=
  match d with
  | [] => [(k, v)]
  | (k', v') :: r =>
      if keqb k k' then (k', v) :: r else (k', v') :: dset k v r
  end.

(** [del d[k]], the effect of [d.pop(k)] on [d] *)
Fixpoint ddel (k : K) (d : dict) : dict :=
  match d with
  | [] => []
  | (k', v') :: r => if keqb k k' then r else (k', v') :: ddel k r
  end.

(** [list(d.keys())] *)
Definition dkeys (d : dict) : list K := map fst d.

(** [d[k]] as an expression *)
Definition getitem (k : K) : M dict V :=
  fun d => match dget k d with
           | Some v => (d, Ok v)
           | None => (d, Raise (KeyError (key_repr k)))
           end.

(** [d[k] = v] as a statement *)
Definition setitem (k : K) (v : V) : M dict unit := modify (dset k v).

(** Statements on the object [d[k]], which stays in the dictionary:
    what they assign is assigned to the stored object. *)
Definition at_key {A} (k : K) (c : M V A) : M dict A :=
  fun d => match dget k d with
           | Some v => let (v', r) := c v in (dset k v' d, r)
           | None => (d, Raise (KeyError (key_repr k)))
           end.
End Dict.

Arguments dict K V : clear implicits.

(** *** Operations on values *)

Definition truthy (v : value) : bool :=
  match v with
  | VNone => false
  | VStr s => negb (s =? "")%string
  | VList l => match l with [] => false | _ => true end
  end.

(** [v[0]] *)
Definition index0 (v : value) : result value :=
  match v with
  | VNone => Raise TypeError
  | VStr EmptyString => Raise IndexError
  | VStr (String c _) => Ok (VStr (String c EmptyString))
  | VList [] => Raise IndexError
  | VList (x :: _) => Ok x
  end.

(** A value where a string is required: an operand of [+] with a string,
    or the text given to [re.sub]. *)
Definition as_str (v : value) : result string :=
  match v with
  | VStr s => Ok s
  | _ => Raise TypeError
  end.

(** [v.lower()] *)
Definition py_lower (v : value) : result string :=
  match v with
  | VStr s => Ok (Py.lower s)
  | _ => Raise AttributeError
  end.

(** [a += b] *)
Definition iadd (a b : value) : result value :=
  match a, b with
  | VStr x, VStr y => Ok (VStr (x ++ y))
  | VList x, VList y => Ok (VList (x ++ y))
  | VList x, VStr y => Ok (VList (x ++ map VStr (Py.chars y)))
  | _, _ => Raise TypeError
  end.

(** [for x in v] *)
Definition iterate (v : value) : result (list value) :=
  match v with
  | VNone => Raise TypeError
  | VStr s => Ok (map VStr (Py.chars s))
  | VList l => Ok l
  end.

(** [repr(v)] and [str(v)] *)
Fixpoint repr (v : value) : string :=
  match v with
  | VNone => "None"
  | VStr s => Py.repr_str s
  | VList l => "[" ++ Py.join ", " (map repr l) ++ "]"
  end.

Definition py_str (v : value) : string :=
  match v with
  | VStr s => s
  | _ => repr v
  end.

(** ** The object and the data base *)

(** One bibliographic item: a dictionary from field names to values. *)
Abbreviation entry := (dict string value).

(** The attributes of a [ZoteroEntries] object that its methods use:
    the key template, the banned words, the entries by collection and by
    their item id as a string, the working dictionary of a load, the
    modification time seen by the last load, and the collections of each
    document. *)
Record ZoteroEntries : Type := {
  _cite : string;
  _w : string;
  _e : dict (option string) (dict string entry);
  _t : dict Z entry;
  _m : Z;
  _d : dict string (list (option string))
}.

Definition set_e (o : ZoteroEntries) v :=
  {| _cite := _cite o; _w := _w o; _e := v; _t := _t o; _m := _m o; _d := _d o |}.
Definition set_t (o : ZoteroEntries) v :=
  {| _cite := _cite o; _w := _w o; _e := _e o; _t := v; _m := _m o; _d := _d o |}.
Definition set_m (o : ZoteroEntries) v :=
  {| _cite := _cite o; _w := _w o; _e := _e o; _t := _t o; _m := v; _d := _d o |}.
Definition set_d (o : ZoteroEntries) v :=
  {| _cite := _cite o; _w := _w o; _e := _e o; _t := _t o; _m := _m o; _d := v |}.

(** Statements on [self._e], [self._t] and [self._d]. *)
Definition on_e {A} (c : M (dict (option string) (dict string entry)) A)
  : M ZoteroEntries A :=
  fun o => let (v, r) := c (_e o) in (set_e o v, r).
Definition on_t {A} (c : M (dict Z entry) A) : M ZoteroEntries A :=
  fun o => let (v, r) := c (_t o) in (set_t o v, r).
Definition on_d {A} (c : M (dict string (list (option string))) A)
  : M ZoteroEntries A :=
  fun o => let (v, r) := c (_d o) in (set_d o v, r).

(** The rows that the cursor yields for each query of the class, in the
    order it yields them. [collection_rows] is the join of the collection
    query before its ORDER BY clause, which [_add_collection] applies. *)
Record database : Type := {
  field_rows : list (Z * string * string * string);
  collection_rows : list (Z * string);
  creator_rows : list (Z * string * string * string);
  type_rows : list (Z * string);
  note_rows : list (Z * string);
  tag_rows : list (Z * string);
  attachment_rows : list (string * option Z * option string);
  deleted_rows : list Z
}.

(** The file [zotero.sqlite]: its modification time and its content. *)
Record world : Type := {
  mtime : Z;
  db : database
}.

(** *** ORDER BY collections.collectionName != "To Read",
        collections.collectionName *)

Module CollectionOrder <: TotalLeBool.
Definition t : Type := (Z * string)%type.

(** The first sort key: 0 for the name "To Read", 1 for any other. *)
Definition differs (r : t) : bool := negb (snd r =? "To Read")%string.

Definition leb (a b : t) : bool :=
  match differs a, differs b with
  | false, true => true
  | true, false => false
  | _, _ => (snd a <=? snd b)%string
  end.

Theorem leb_total : forall a b, leb a b = true \/ leb b a = true.
Proof.
  intros a b. unfold leb.
  destruct (differs a), (differs b); auto using String.leb_total.
Qed.
End CollectionOrder.

Module CollectionSort := Sort CollectionOrder.

(** ** Loading *)

(** [if item_id in self._t: <statements on self._t[item_id]>] *)
Definition when_item (item_id : Z) (c : M entry unit) : M ZoteroEntries unit :=
  o <- get ;;
  if dmem item_id (_t o) then on_t (at_key item_id c) else ret tt.

Definition new_item (item_key : string) : entry :=
  [("zotkey", VStr item_key); ("collection", VNone);
   ("alastnm", VStr ""); ("tags", VList [])].

(** The body of the loop of [_add_most_fields]. *)
Definition add_field (row : Z * string * string * string)
  : M ZoteroEntries unit :=
  let '(item_id, item_key, field, value) := row in
  o <- get ;;
  (if dmem item_id (_t o) then ret tt
   else on_t (setitem item_id (new_item item_key))) ;;
  on_t (at_key item_id (setitem field (VStr value))).

Definition _add_most_fields (rows : list (Z * string * string * string))
  : M ZoteroEntries unit :=
  on_t (put []) ;;
  for_each rows add_field.

Definition _add_collection (rows : list (Z * string)) : M ZoteroEntries unit :=
  for_each (CollectionSort.sort rows) (fun '(item_id, item_collection) =>
    when_item item_id (setitem "collection" (VStr item_collection))).

Definition _add_authors (rows : list (Z * string * string * string))
  : M ZoteroEntries unit :=
  for_each rows (fun '(item_id, ctype, lastname, firstname) =>
    when_item item_id (
      e <- get ;;
      (if dmem ctype e then
         v <- getitem ctype ;;
         v' <- lift (iadd v (VList [VList [VStr lastname; VStr firstname]])) ;;
         setitem ctype v'
       else setitem ctype (VList [VList [VStr lastname; VStr firstname]])) ;;
      if (ctype =? "author")%string then
        a <- getitem "alastnm" ;;
        a' <- lift (iadd a (VStr (", " ++ lastname))) ;;
        setitem "alastnm" a'
      else ret tt)).

Definition _add_type (rows : list (Z * string)) : M ZoteroEntries unit :=
  for_each rows (fun '(item_id, item_type) =>
    when_item item_id (setitem "etype" (VStr item_type))).

Definition _add_note (rows : list (Z * string)) : M ZoteroEntries unit :=
  for_each rows (fun '(item_id, item_note) =>
    when_item item_id (setitem "note" (VStr item_note))).

Definition _add_tags (rows : list (Z * string)) : M ZoteroEntries unit :=
  for_each rows (fun '(item_id, item_tag) =>
    when_item item_id (
      v <- getitem "tags" ;;
      v' <- lift (iadd v (VList [VStr item_tag])) ;;
      setitem "tags" v')).

(** No test of [pId in self._t] here. The parent of an attachment is NULL
    for a file that is attached to no item (the query of the notes asks
    for a parent that IS NOT NULL, this one does not), and [None] is no key
    of [self._t]; the path is NULL for an attachment that is a link. The
    right-hand side [pKey + ':' + aPath] is evaluated before the target
    [self._t[pId]], so the [TypeError] of a NULL path comes before the
    [KeyError] of the parent. *)
Definition _add_attachments (rows : list (string * option Z * option string))
  : M ZoteroEntries unit :=
  for_each rows (fun '(pKey, pId, aPath) =>
    match aPath with
    | None => raise TypeError
    | Some path =>
        match pId with
        | Some i =>
            on_t (at_key i (setitem "attachment" (VStr (pKey ++ ":" ++ path))))
        | None => raise (KeyError KNone)
        end
    end).

(** *** Citation keys *)

(** ['^(' + ' |'.join(self._w) + ' )']: [join] is applied to the string
    [self._w], so it puts the separator between its characters. *)
Definition banned_pattern (w : string) : string :=
  "^(" ++ Py.join " |" (Py.chars w) ++ " )".

(** The alternatives of that pattern, for a [self._w] of letters, digits
    and spaces: each character of it followed by a space. *)
Definition banned_alternatives (w : string) : list string :=
  match Py.chars w with
  | [] => [" "]
  | cs => map (fun c => c ++ " ") cs
  end.

(** The class [[ ,;:\.!?]]. *)
Definition title_stop (c : ascii) : bool := Py.smem c " ,;:.!?".

Definition is_space (c : ascii) : bool := (c =? " ")%char.

(** The year of a date: [re.sub(' .*', '', date).split('-')[0]]. *)
Definition year_of (date : string) : string :=
  hd "" (Py.split "-" (Py.sub_rest is_space date)).

(** The first word of a lower-cased title, from the three [re.sub] on it. *)
Definition title_word (w : string) (title : string) : string :=
  let title := Py.strip_alternatives (banned_alternatives w) title in
  let title := Py.strip_two Py.is_lower is_space title in
  Py.sub_rest title_stop title.

(** The substitutions into the template, in the order of the source, for
    replacement texts without backslash, which [re.sub] takes as they are:
    the names are made of word characters, the year is as the date has
    it. *)
Definition fill_template (cite lastname year titlew : string) : string :=
  let key := cite in
  let key := Py.sub_plain "{author}" (Py.lower lastname) key in
  let key := Py.sub_plain "{Author}" (Py.title lastname) key in
  let key := Py.sub_plain "{year}" (Py.strip_two Py.is_digit Py.is_digit year) key in
  let key := Py.sub_plain "{Year}" year key in
  let key := Py.sub_plain "{title}" (Py.lower titlew) key in
  let key := Py.sub_plain "{Title}" (Py.title titlew) key in
  Py.sub_plain " " "" key.

(** [k in d] as an expression on the current dictionary. *)
Definition contains {K V} `{EqKey K} (k : K) : M (dict K V) bool :=
  fun d => (d, Ok (dmem k d)).

(** The body of the loop of [_calculate_citekeys], on [self._t[k]]. *)
Definition calculate_citekey (cite w : string) : M entry unit :=
  has_date <- contains "date" ;;
  year <- (if has_date : bool then
             d <- getitem "date" ;;
             s <- lift (as_str d) ;;
             ret (year_of s)
           else ret "") ;;
  setitem "year" (VStr year) ;;
  has_title <- contains "title" ;;
  titlew <- (if has_title : bool then
               t <- getitem "title" ;;
               s <- lift (py_lower t) ;;
               ret (title_word w s)
             else
               setitem "title" (VStr "") ;;
               ret "") ;;
  has_author <- contains "author" ;;
  lastname <- (if has_author : bool then
                 a <- getitem "author" ;;
                 a0 <- lift (index0 a) ;;
                 lift (index0 a0)
               else ret (VStr "No_author")) ;;
  lastname <- lift (as_str lastname) ;;
  let lastname := Py.sub_nonword lastname in
  let titlew := Py.sub_nonword titlew in
  setitem "citekey" (VStr (fill_template cite lastname year titlew)).

Definition _calculate_citekeys : M ZoteroEntries unit :=
  o <- get ;;
  for_each (dkeys (_t o)) (fun k =>
    on_t (at_key k (calculate_citekey (_cite o) (_w o)))).

(** *** Entries by collection *)

Definition is_str (s : string) (v : value) : bool :=
  match v with
  | VStr x => (x =? s)%string
  | _ => false
  end.

(** A value as a key of [self._e]; a list cannot be hashed. *)
Definition as_ckey (v : value) : result (option string) :=
  match v with
  | VNone => Ok None
  | VStr s => Ok (Some s)
  | VList _ => Raise TypeError
  end.

(** The body of the loop of [_separate_by_collection]. The source stores
    the object [self._t[k]] itself in [self._e], and no method reads
    [self._t] after a load but the next load, which starts with a new
    dictionary. The embedding stores the value: what an export assigns
    to an entry of [self._e] afterwards is not mirrored in [_t], which
    stands for the working dictionary as the load left it. *)
Definition separate_item (deleted : list Z) (k : Z) : M ZoteroEntries unit :=
  skip <- (if existsb (Z.eqb k) deleted then ret true
           else
             ety <- on_t (at_key k (getitem "etype")) ;;
             ret (is_str "attachment" ety)) ;;
  if skip : bool then ret tt
  else
    on_t (at_key k (
      a <- getitem "alastnm" ;;
      s <- lift (as_str a) ;;
      setitem "alastnm" (VStr (Py.strip_prefix ", " s)))) ;;
    c <- on_t (at_key k (getitem "collection")) ;;
    ck <- lift (as_ckey c) ;;
    o <- get ;;
    (if dmem ck (_e o) then ret tt else on_e (setitem ck [])) ;;
    e <- on_t (getitem k) ;;
    on_e (at_key ck (setitem (Py.str_of_int k) e)).

Definition _separate_by_collection (deleted : list Z) : M ZoteroEntries unit :=
  on_e (put []) ;;
  o <- get ;;
  for_each (dkeys (_t o)) (separate_item deleted).

(** The passes before the attachments. *)
Definition load_items (b : database) : M ZoteroEntries unit :=
  _add_most_fields (field_rows b) ;;
  _add_collection (collection_rows b) ;;
  _add_authors (creator_rows b) ;;
  _add_type (type_rows b) ;;
  _add_note (note_rows b) ;;
  _add_tags (tag_rows b).

Definition _load_zotero_data (w : world) : M ZoteroEntries unit :=
  modify (fun o => set_m o (mtime w)) ;;
  load_items (db w) ;;
  _add_attachments (attachment_rows (db w)) ;;
  _calculate_citekeys ;;
  _separate_by_collection (deleted_rows (db w)).

(** [ZoteroEntries()] with the two settings of the environment, where
    [None] is an unset variable. The load assigns [self._m] before anything
    reads it, and [self._d] is assigned after the load. *)
Definition __init__ (ZCitationTemplate ZBannedWords : option string)
    (w : world) : ZoteroEntries * result unit :=
  (_load_zotero_data w ;; on_d (put []))
    {| _cite := match ZCitationTemplate with
                | Some c => c
                | None => "{Author}_{Year}"
                end;
       _w := match ZBannedWords with
             | Some x => x
             | None => "a an the some from on in to of do with"
             end;
       _e := []; _t := []; _m := 0; _d := [] |}.

(** ** Binding documents to collections *)

Definition not_found (c : string) : string :=
  "Collection " ++ String Py.dq c ++ String Py.dq " not found in Zotero database.".

(** [self._d[d].append(k)] *)
Definition append_binding (d : string) (k : option string)
  : M ZoteroEntries unit :=
  on_d (at_key d (modify (fun l => (l ++ [k])%list))).

(** The loop over [clist], which returns from the method at the first name
    that is not a collection. *)
Fixpoint bind_each (d : string) (clist : list string) : M ZoteroEntries string :=
  match clist with
  | [] => ret ""
  | c :: r =>
      o <- get ;;
      if dmem (Some c) (_e o) then append_binding d (Some c) ;; bind_each d r
      else ret (not_found c)
  end.

Definition SetCollections (d : string) (clist : list string)
  : M ZoteroEntries string :=
  on_d (setitem d []) ;;
  if list_eq_dec string_dec clist [""] then
    o <- get ;;
    for_each (dkeys (_e o)) (append_binding d) ;;
    ret ""
  else
    on_d (setitem d []) ;;
    bind_each d clist.

(** ** Search *)

(** [e[k]] as an expression *)
Definition field (k : string) (e : entry) : result value :=
  match dget k e with
  | Some v => Ok v
  | None => Raise (KeyError (KStr k))
  end.

(** [e[k]] as an operand of [+] with a string *)
Definition str_field (k : string) (e : entry) : result string :=
  let? v := field k e in as_str v.

Definition _get_compl_line (e : entry) : result string :=
  let? a := field "alastnm" e in
  if is_str "" a then
    let? zotkey := str_field "zotkey" e in
    let? citekey := str_field "citekey" e in
    let? year := str_field "year" e in
    let? title := str_field "title" e in
    Ok (zotkey ++ "#" ++ citekey ++ String Py.tab (" " ++ String Py.tab
          ("(" ++ year ++ ") " ++ title)))
  else
    let? zotkey := str_field "zotkey" e in
    let? citekey := str_field "citekey" e in
    let? alastnm := str_field "alastnm" e in
    let? year := str_field "year" e in
    let? title := str_field "title" e in
    Ok (zotkey ++ "#" ++ citekey ++ String Py.tab (alastnm ++ String Py.tab
          ("(" ++ year ++ ") " ++ title))).

(** [e[k].lower().find(ptrn)] *)
Definition find_in (k : string) (ptrn : string) (e : entry) : result Z :=
  let? v := field k e in
  let? s := py_lower v in
  Ok (Py.find s ptrn).

(** [e['alastnm'] and e['alastnm'][0][0].lower().find(ptrn) <cmp> 0] for a
    comparison [cmp]: the second operand is evaluated only when the first is
    true. *)
Definition author_test (cmp : Z -> bool) (ptrn : string) (e : entry)
  : result bool :=
  let? a := field "alastnm" e in
  if truthy a then
    let? a := field "alastnm" e in
    let? a0 := index0 a in
    let? a00 := index0 a0 in
    let? s := py_lower a00 in
    Ok (cmp (Py.find s ptrn))
  else Ok false.

(** The priority level that the chain of [if] and [elif] gives an entry,
    or [None] when no branch is taken. *)
Definition priority (ptrn : string) (e : entry) : result (option nat) :=
  let? i := find_in "citekey" ptrn e in
  if i =? 0 then Ok (Some 1%nat) else
  let? b := author_test (Z.eqb 0) ptrn e in
  if b then Ok (Some 2%nat) else
  let? i := find_in "title" ptrn e in
  if i =? 0 then Ok (Some 3%nat) else
  let? i := find_in "citekey" ptrn e in
  if i >? 0 then Ok (Some 4%nat) else
  let? b := author_test (Z.ltb 0) ptrn e in
  if b then Ok (Some 5%nat) else
  let? i := find_in "title" ptrn e in
  if i >? 0 then Ok (Some 6%nat) else Ok None.

(** The six lists [p1] to [p6]. *)
Record levels : Type := {
  p1 : list string; p2 : list string; p3 : list string;
  p4 : list string; p5 : list string; p6 : list string
}.

Definition no_levels : levels :=
  {| p1 := []; p2 := []; p3 := []; p4 := []; p5 := []; p6 := [] |}.

(** [pn.append(line)] *)
Definition append_level (n : nat) (line : string) (b : levels) : levels :=
  match n with
  | 1%nat => {| p1 := (p1 b ++ [line])%list; p2 := p2 b; p3 := p3 b; p4 := p4 b; p5 := p5 b; p6 := p6 b |}
  | 2%nat => {| p1 := p1 b; p2 := (p2 b ++ [line])%list; p3 := p3 b; p4 := p4 b; p5 := p5 b; p6 := p6 b |}
  | 3%nat => {| p1 := p1 b; p2 := p2 b; p3 := (p3 b ++ [line])%list; p4 := p4 b; p5 := p5 b; p6 := p6 b |}
  | 4%nat => {| p1 := p1 b; p2 := p2 b; p3 := p3 b; p4 := (p4 b ++ [line])%list; p5 := p5 b; p6 := p6 b |}
  | 5%nat => {| p1 := p1 b; p2 := p2 b; p3 := p3 b; p4 := p4 b; p5 := (p5 b ++ [line])%list; p6 := p6 b |}
  | 6%nat => {| p1 := p1 b; p2 := p2 b; p3 := p3 b; p4 := p4 b; p5 := p5 b; p6 := (p6 b ++ [line])%list |}
  | _ => b
  end.

Definition match_entry (ptrn : string) (e : entry) (b : levels) : result levels :=
  let? p := priority ptrn e in
  match p with
  | Some n => let? line := _get_compl_line e in Ok (append_level n line b)
  | None => Ok b
  end.

(** [for k in self._e[c]] *)
Fixpoint match_entries (ptrn : string) (es : list (string * entry)) (b : levels)
  : result levels :=
  match es with
  | [] => Ok b
  | (_, e) :: r => let? b := match_entry ptrn e b in match_entries ptrn r b
  end.

(** [for c in collections] *)
Fixpoint match_collections (ptrn : string)
    (ix : dict (option string) (dict string entry))
    (cs : list (option string)) (b : levels) : result levels :=
  match cs with
  | [] => Ok b
  | c :: r =>
      match dget c ix with
      | None => Raise (KeyError (key_repr c))
      | Some es =>
          let? b := match_entries ptrn es b in match_collections ptrn ix r b
      end
  end.

(** The method after its test of the modification time. *)
Definition find_matches (ptrn d : string) : M ZoteroEntries (list string) :=
  collections <- on_d (getitem d) ;;
  o <- get ;;
  let collections :=
    match collections with [] => dkeys (_e o) | _ => collections end in
  b <- lift (match_collections ptrn (_e o) collections no_levels) ;;
  ret (p1 b ++ p2 b ++ p3 b ++ p4 b ++ p5 b ++ p6 b)%list.

Definition GetMatch (w : world) (ptrn d : string)
  : M ZoteroEntries (list string) :=
  o <- get ;;
  (if mtime w >? _m o then _load_zotero_data w else ret tt) ;;
  find_matches ptrn d.

(** ** YAML references *)

(** Conversion from zotero.sqlite to CSL types *)
Definition _zct : dict string string :=
  [("artwork", "graphic"); ("audioRecording", "song");
   ("blogPost", "post-weblog"); ("bookSection", "chapter");
   ("case", "legal_case"); ("computerProgram", "book");
   ("conferencePaper", "paper-conference");
   ("dictionaryEntry", "entry-dictionary"); ("document", "report");
   ("email", "personal_communication");
   ("encyclopediaArticle", "entry-encyclopedia"); ("film", "motion_picture");
   ("forumPost", "post"); ("hearing", "bill");
   ("instantMessage", "personal_communication"); ("interview", "interview");
   ("journalArticle", "article-journal"); ("letter", "personal_communication");
   ("magazineArticle", "article-magazine");
   ("newspaperArticle", "article-newspaper"); ("note", "manuscript");
   ("podcast", "broadcast"); ("presentation", "speech");
   ("radioBroadcast", "broadcast"); ("statute", "legislation");
   ("tvBroadcast", "broadcast"); ("videoRecording", "motion_picture")].

(** Conversion from zotero.sqlite to CSL fields *)
Definition _zcf : dict string string :=
  [("abstractNote", "abstract"); ("accessDate", "accessed");
   ("applicationNumber", "call-number"); ("archiveLocation", "archive_location");
   ("artworkMedium", "medium"); ("artworkSize", "dimensions");
   ("audioFileType", "medium"); ("blogTitle", "container-title");
   ("bookTitle", "container-title"); ("callNumber", "call-number");
   ("code", "container-title"); ("codeNumber", "volume");
   ("codePages", "page"); ("codeVolume", "volume");
   ("conferenceName", "event"); ("court", "authority"); ("date", "issued");
   ("dictionaryTitle", "container-title"); ("distributor", "publisher");
   ("encyclopediaTitle", "container-title"); ("extra", "note");
   ("filingDate", "submitted"); ("forumTitle", "container-title");
   ("history", "references"); ("institution", "publisher");
   ("interviewMedium", "medium"); ("issuingAuthority", "authority");
   ("legalStatus", "status"); ("legislativeBody", "authority");
   ("libraryCatalog", "source"); ("meetingName", "event");
   ("numPages", "number-of-pages"); ("numberOfVolumes", "number-of-volumes");
   ("pages", "page"); ("place", "publisher-place");
   ("priorityNumbers", "issue"); ("proceedingsTitle", "container-title");
   ("programTitle", "container-title"); ("programmingLanguage", "genre");
   ("publicationTitle", "container-title"); ("reporter", "container-title");
   ("runningTime", "dimensions"); ("series", "collection-title");
   ("seriesNumber", "collection-number"); ("seriesTitle", "collection-title");
   ("session", "chapter-number"); ("shortTitle", "title-short");
   ("system", "medium"); ("thesisType", "genre"); ("type", "genre");
   ("university", "publisher"); ("url", "URL"); ("versionNumber", "version");
   ("websiteTitle", "container-title"); ("websiteType", "genre")].

(** [if e['etype'] in self._zct: e['etype'] = ...]: replacing the whole
    of a string by another gives the other. *)
Definition fix_type : M entry unit :=
  ty <- getitem "etype" ;;
  match ty with
  | VStr s =>
      match dget s _zct with
      | Some csl => setitem "etype" (VStr csl)
      | None => ret tt
      end
  | VNone => ret tt
  | VList _ => raise TypeError
  end.

(** [re.sub('"', '\\"', s)] *)
Definition escape_quotes (s : string) : string :=
  Py.sub_plain (String Py.dq "") (String Py.bs (String Py.dq "")) s.

Definition escape_value (v : value) : value :=
  match v with
  | VStr s => VStr (escape_quotes s)
  | _ => v
  end.

(** [e[self._zcf[f]] = e.pop(f)] for the keys that [e] had before the loop *)
Definition rename_fields : M entry unit :=
  e <- get ;;
  for_each (dkeys e) (fun f =>
    match dget f _zcf with
    | Some csl =>
        v <- getitem f ;;
        modify (ddel f) ;;
        setitem csl v
    | None => ret tt
    end).

(** [last, first = x] *)
Definition unpack2 (x : value) : result (value * value) :=
  let? l := iterate x in
  match l with
  | [a; b] => Ok (a, b)
  | _ => Raise ValueError
  end.

Definition yaml_names (names : list value) : result string :=
  fold_left (fun acc x =>
    let? ref := acc in
    let? lf := unpack2 x in
    let? last := as_str (fst lf) in
    let? first := as_str (snd lf) in
    Ok (ref ++ "  - family: " ++ String Py.dq last ++ String Py.dq (String Py.nl "")
            ++ "    given: " ++ String Py.dq first ++ String Py.dq (String Py.nl "")))
    names (Ok "").

Definition yaml_creators (e : entry) : result string :=
  fold_left (fun acc aa =>
    let? ref := acc in
    if dmem aa e then
      let? v := field aa e in
      let? names := iterate v in
      let? s := yaml_names names in
      Ok (ref ++ "  " ++ aa ++ ":" ++ String Py.nl s)
    else Ok ref)
    ["author"; "editor"; "contributor"; "translator"; "container-author"]
    (Ok "").

(** [d[i]] for a list of strings *)
Definition nth_str (i : nat) (d : list string) : result string :=
  match nth_error d i with
  | Some s => Ok s
  | None => Raise IndexError
  end.

Definition yaml_issued (e : entry) : result string :=
  if dmem "issued" e then
    let? v := field "issued" e in
    let? s := as_str v in
    let d := Py.split "-" (Py.sub_rest is_space s) in
    let? d0 := nth_str 0 d in
    if negb (d0 =? "0000")%string then
      let? year := str_field "year" e in
      let ref := "  issued:" ++ String Py.nl ("    year: " ++ year ++ String Py.nl "") in
      let? d1 := nth_str 1 d in
      let ref := if negb (d1 =? "00")%string
                 then ref ++ "    month: " ++ d1 ++ String Py.nl ""
                 else ref in
      let? d2 := nth_str 2 d in
      let ref := if negb (d2 =? "00")%string
                 then ref ++ "    day: " ++ d2 ++ String Py.nl ""
                 else ref in
      Ok ref
    else Ok ""
  else Ok "".

Definition dont : list string :=
  ["etype"; "issued"; "abstract"; "citekey"; "zotkey"; "collection"; "author";
   "editor"; "contributor"; "translator"; "alastnm"; "container-author";
   "tags"; "year"].

Definition yaml_others (e : entry) : string :=
  fold_left (fun ref fv =>
    if existsb (String.eqb (fst fv)) dont then ref
    else ref ++ "  " ++ fst fv ++ ": " ++ String Py.dq (py_str (snd fv))
             ++ String Py.dq (String Py.nl ""))
    e "".

(** The text built from the entry after its rewriting. *)
Definition yaml_text (citekey : string) (e : entry) : result string :=
  let? ty := str_field "etype" e in
  let ref := "- type: " ++ ty ++ String Py.nl ("  id: " ++ citekey ++ String Py.nl "") in
  let? creators := yaml_creators e in
  let? issued := yaml_issued e in
  Ok (ref ++ creators ++ issued ++ yaml_others e).

(** The method works on the entry it is given, which is the one stored in
    [self._e]. *)
Definition _get_yaml_ref (citekey : string) : M entry string :=
  fix_type ;;
  modify (map (fun fv => (fst fv, escape_value (snd fv)))) ;;
  rename_fields ;;
  e <- get ;;
  lift (yaml_text citekey e).

(** A loop that adds to a local variable. *)
Fixpoint for_acc {S A B} (l : list A) (body : A -> B -> M S B) (b : B) : M S B :=
  match l with
  | [] => ret b
  | x :: r => b' <- body x b ;; for_acc r body b'
  end.

Definition yaml_header : string :=
  "---" ++ String Py.nl ("references:" ++ String Py.nl "").

Definition yaml_footer : string :=
  "..." ++ String Py.nl (String Py.nl ("dummy text" ++ String Py.nl "")).

Definition GetYamlRefs (keys : list string) : M ZoteroEntries string :=
  o <- get ;;
  ref <- for_acc (dkeys (_e o)) (fun c ref =>
    es <- on_e (getitem c) ;;
    for_acc (dkeys es) (fun e ref =>
      for_acc keys (fun k ref =>
        let zotkey := Py.sub_rest (Ascii.eqb "#") k in
        z <- on_e (at_key c (at_key e (getitem "zotkey"))) ;;
        if is_str zotkey z then
          r <- on_e (at_key c (at_key e (_get_yaml_ref k))) ;;
          ret (ref ++ r)
        else ret ref) ref) ref) "" ;;
  ret (if (ref =? "")%string then "" else yaml_header ++ ref ++ yaml_footer).


(** ** [GetAttachment] *)

(** [for k in self._e[c]] with its two [return] statements; [None] when the
    loop ends without one. *)
Fixpoint attachment_in (zotkey : string) (es : dict string entry)
    (ks : list string) : result (option value) :=
  match ks with
  | [] => Ok None
  | k :: r =>
      match dget k es with
      | None => Raise (KeyError (KStr k))
      | Some e =>
          let? z := field "zotkey" e in
          if is_str zotkey z then
            if dmem "attachment" e then
              let? a := field "attachment" e in Ok (Some a)
            else Ok (Some (VStr "nOaTtAChMeNt"))
          else attachment_in zotkey es r
      end
  end.

(** [for c in self._e] *)
Fixpoint attachment_among (zotkey : string)
    (ix : dict (option string) (dict string entry))
    (cs : list (option string)) : result (option value) :=
  match cs with
  | [] => Ok None
  | c :: r =>
      match dget c ix with
      | None => Raise (KeyError (key_repr c))
      | Some es =>
          let? found := attachment_in zotkey es (dkeys es) in
          match found with
          | Some a => Ok (Some a)
          | None => attachment_among zotkey ix r
          end
      end
  end.

Definition GetAttachment (zotkey : string) : M ZoteroEntries value :=
  o <- get ;;
  found <- lift (attachment_among zotkey (_e o) (dkeys (_e o))) ;;
  ret match found with
      | Some a => a
      | None => VStr "nOcItEkEy"
      end.

(** ** [Info] *)

(** What [Info] returns: the path of the module and the temporary
    directory, which come from the file system, the documents and the
    number of references of each collection. *)
Record info : Type := {
  path : string;
  tmpdir : string;
  docs : string;
  nrefs : list string
}.

(** A collection name, or [None], as a value. *)
Definition ckey_value (c : option string) : value :=
  match c with
  | Some s => VStr s
  | None => VNone
  end.

(** [str(self._d)] *)
Definition repr_docs (d : dict string (list (option string))) : string :=
  "{" ++ Py.join ", "
           (map (fun dl => Py.repr_str (fst dl) ++ ": "
                           ++ repr (VList (map ckey_value (snd dl)))) d)
      ++ "}".

(** [c + ' = ' + str(len(self._e[c].keys()))]: a string cannot be added to
    [None]. *)
Definition nref (ix : dict (option string) (dict string entry))
    (c : option string) : result string :=
  match c with
  | None => Raise TypeError
  | Some name =>
      match dget c ix with
      | None => Raise (KeyError (key_repr c))
      | Some es =>
          Ok (name ++ " = " ++ Py.str_of_int (Z.of_nat (List.length (dkeys es))))
      end
  end.

Fixpoint nrefs_of (ix : dict (option string) (dict string entry))
    (cs : list (option string)) : result (list string) :=
  match cs with
  | [] => Ok []
  | c :: r =>
      let? line := nref ix c in
      let? rest := nrefs_of ix r in
      Ok (line :: rest)
  end.

Definition Info (realpath _tmpdir : string) : M ZoteroEntries info :=
  o <- get ;;
  lines <- lift (nrefs_of (_e o) (dkeys (_e o))) ;;
  ret {| path := realpath; tmpdir := _tmpdir;
         docs := repr_docs (_d o) ++ String Py.nl "";
         nrefs := lines |}.
(** * Vocabulary of the statements *)

Definition item_of (row : Z * string * string * string) : Z :=
  fst (fst (fst row)).

(** An item with at least one row of the field query. *)
Definition has_fields (b : database) (i : Z) : bool :=
  existsb (fun row => i =? item_of row) (field_rows b).


(** A parent of an attachment that is no item with field rows. *)
Definition orphan (b : database) (pId : option Z) : bool :=
  match pId with
  | Some i => negb (has_fields b i)
  | None => true
  end.

(** An object before its first load, with the default settings. *)
Definition blank : ZoteroEntries :=
  {| _cite := "{Author}_{Year}";
     _w := "a an the some from on in to of do with";
     _e := []; _t := []; _m := 0; _d := [] |}.

(** A small library: an article in three collections with two authors, an
    item with nothing but a URL, and the attachment of the article. *)
Definition library : database :=
  {| field_rows :=
       [(1, "AAAA", "title", "The Rise of Systems");
        (1, "AAAA", "date", "2020-05-00 May 2020");
        (2, "BBBB", "url", "http://example.org");
        (3, "CCCC", "title", "rise.pdf")];
     collection_rows := [(1, "Papers"); (1, "To Read"); (1, "Alpha")];
     creator_rows :=
       [(1, "author", "Smith", "Ann"); (1, "author", "O'Brien", "Bob");
        (1, "editor", "Ed", "Eve")];
     type_rows := [(1, "journalArticle"); (2, "book"); (3, "attachment")];
     note_rows := [];
     tag_rows := [(1, "systems")];
     attachment_rows := [("CCCC", Some 1, Some "storage:rise.pdf")];
     deleted_rows := [] |}.

(** The same library with a file attached to no item that has fields. *)
Definition orphan_library : database :=
  {| field_rows := field_rows library;
     collection_rows := collection_rows library;
     creator_rows := creator_rows library;
     type_rows := type_rows library;
     note_rows := note_rows library;
     tag_rows := tag_rows library;
     attachment_rows :=
       [("CCCC", Some 1, Some "storage:rise.pdf");
        ("DDDD", None, Some "storage:loose.pdf");
        ("EEEE", Some 99, Some "storage:lost.pdf")];
     deleted_rows := [] |}.

(** The library at a later time, with a link kept as an attachment of
    its own: it has no parent and no path. *)
Definition linked_library : database :=
  {| field_rows := field_rows library;
     collection_rows := collection_rows library;
     creator_rows := creator_rows library;
     type_rows := type_rows library;
     note_rows := note_rows library;
     tag_rows := tag_rows library;
     attachment_rows :=
       [("CCCC", Some 1, Some "storage:rise.pdf"); ("FFFF", None, None)];
     deleted_rows := [] |}.

Definition linked_world : world := {| mtime := 20; db := linked_library |}.

(** The object after [ZoteroEntries()] on the library at time 10. *)
Definition loaded : ZoteroEntries :=
  fst (__init__ None None {| mtime := 10; db := library |}).

(** A computation that leaves one component [f] of the object alone. *)
Definition frame {X A} (f : ZoteroEntries -> X) (c : M ZoteroEntries A) : Prop :=
  forall s, f (fst (c s)) = f s.

(** The loaded object after the document paper.md is bound to the
    collection Papers. *)
Definition bound : ZoteroEntries :=
  fst (SetCollections "paper.md" ["Papers"] loaded).

(** [all(f(c) for c in s)] *)
Fixpoint all_chars (f : ascii -> bool) (s : string) : bool :=
  match s with
  | EmptyString => true
  | String c s' => f c && all_chars f s'
  end.

(** The collection of the ranking example: the citation keys abc2020 and
    xabc2020 and a third entry whose only author is Abcarian, under a
    template that makes the key from the title. *)
Definition ranking_library : database :=
  {| field_rows :=
       [(1, "KEY1", "title", "Abc of logic"); (1, "KEY1", "date", "2020-01-00");
        (2, "KEY2", "title", "Xabc revisited"); (2, "KEY2", "date", "2020-02-00");
        (3, "KEY3", "title", "Zeta functions"); (3, "KEY3", "date", "2020-03-00")];
     collection_rows := [(1, "Papers"); (2, "Papers"); (3, "Papers")];
     creator_rows :=
       [(1, "author", "Jones", "Jo"); (2, "author", "Young", "Yu");
        (3, "author", "Abcarian", "Al")];
     type_rows := [(1, "book"); (2, "book"); (3, "book")];
     note_rows := []; tag_rows := []; attachment_rows := [];
     deleted_rows := [] |}.

Definition ranking_world : world := {| mtime := 10; db := ranking_library |}.

Definition ranking_object : ZoteroEntries :=
  fst (SetCollections "paper.md" [""]
         (fst (__init__ (Some "{title}{Year}") None ranking_world))).

(** A library of one article, for a given title and date. *)
Definition one_article (title date : string) : database :=
  {| field_rows := [(1, "AAAA", "title", title); (1, "AAAA", "date", date)];
     collection_rows := [];
     creator_rows := [(1, "author", "Smith", "Ann")];
     type_rows := [(1, "journalArticle")];
     note_rows := []; tag_rows := []; attachment_rows := [];
     deleted_rows := [] |}.

(** The citation key that a load under a template gives the article. *)
Definition article_citekey (template title date : string) : option value :=
  match _t (fst (__init__ (Some template) None
                   {| mtime := 10; db := one_article title date |})) with
  | (_, e) :: _ => dget "citekey" e
  | [] => None
  end.

(** The name on the last row of an item, if it has a row. *)
Fixpoint last_collection (i : Z) (rows : list (Z * string)) : option string :=
  match rows with
  | [] => None
  | (j, n) :: r =>
      match last_collection i r with
      | Some m => Some m
      | None => if i =? j then Some n else None
      end
  end.

(** The first key of the ORDER BY clause alone: "To Read" before the rest. *)
Definition to_read_first (a b : Z * string) : Prop :=
  CollectionOrder.differs a = true -> CollectionOrder.differs b = true.

(** An entry whose citation key is a string that is not empty and holds no
    space. *)
Definition well_keyed (e : entry) : Prop :=
  exists key, dget "citekey" e = Some (VStr key) /\
              key <> "" /\ Py.smem " " key = false.

(** What holds of the state whenever the computation completes. *)
Definition ensures {S A} (Q : S -> Prop) (c : M S A) : Prop :=
  forall s a, snd (c s) = Ok a -> Q (fst (c s)).

(** Every entry of the working dictionary has a well-formed key. *)
Definition items_keyed (o : ZoteroEntries) : Prop :=
  forall k e, dget k (_t o) = Some e -> well_keyed e.

(** Every entry of every collection has a well-formed key. *)
Definition index_keyed (o : ZoteroEntries) : Prop :=
  Forall (fun ces => Forall (fun ie => well_keyed (snd ie)) (snd ces)) (_e o).

(** Two objects with the same settings, working dictionary and load time,
    whose collections are related by [E] and whose documents by [D]. *)
Definition agree
    (E : dict (option string) (dict string entry) ->
         dict (option string) (dict string entry) -> Prop)
    (D : dict string (list (option string)) ->
         dict string (list (option string)) -> Prop)
    (a b : ZoteroEntries) : Prop :=
  _cite a = _cite b /\ _w a = _w b /\ _t a = _t b /\ _m a = _m b /\
  E (_e a) (_e b) /\ D (_d a) (_d b).

(** Two computations that, run on related objects, give the same result
    and related objects. *)
Definition same_run {A} (R : ZoteroEntries -> ZoteroEntries -> Prop)
    (c1 c2 : M ZoteroEntries A) : Prop :=
  forall a b, R a b ->
    R (fst (c1 a)) (fst (c2 b)) /\ snd (c1 a) = snd (c2 b).

(** The calls of the editor that change or read the object, and the
    object after a call. *)
Inductive call : Type :=
| Bind (d : string) (clist : list string)
| Search (w : world) (ptrn d : string)
| Export (keys : list string).

Definition after (o : ZoteroEntries) (c : call) : ZoteroEntries :=
  match c with
  | Bind d clist => fst (SetCollections d clist o)
  | Search w ptrn d => fst (GetMatch w ptrn d o)
  | Export keys => fst (GetYamlRefs keys o)
  end.

(** A call that is no [SetCollections] for the document [d]. *)
Definition leaves_unbound (d : string) (c : call) : Prop :=
  match c with
  | Bind d' _ => d' <> d
  | _ => True
  end.

(** The library a year later: the item with the URL has a title and a
    date now. *)
Definition later_library : database :=
  {| field_rows :=
       (field_rows library ++
        [(2, "BBBB", "title", "Late news"); (2, "BBBB", "date", "2021-00-00 2021")])%list;
     collection_rows := collection_rows library;
     creator_rows := creator_rows library;
     type_rows := type_rows library;
     note_rows := note_rows library;
     tag_rows := tag_rows library;
     attachment_rows := attachment_rows library;
     deleted_rows := deleted_rows library |}.

Definition later_world : world := {| mtime := 20; db := later_library |}.










(** The entries of the collection Papers, and the article among them, of a
    first load of the library. *)
Definition library_papers : dict string entry :=
  match dget (Some "Papers")
          (_e (fst (_load_zotero_data {| mtime := 10; db := library |} blank))) with
  | Some es => es
  | None => []
  end.

Definition library_article : entry :=
  match dget "1" library_papers with
  | Some e => e
  | None => []
  end.

(** * Vocabulary of the further properties *)

(** The entries that a search over the collections [cs] visits, in the
    order in which it visits them. *)
Fixpoint visited (ix : dict (option string) (dict string entry))
    (cs : list (option string)) : list entry :=
  match cs with
  | [] => []
  | c :: r =>
      match dget c ix with
      | Some es => (map snd es ++ visited ix r)%list
      | None => []
      end
  end.

(** The entries that a search for the document [d] visits. *)
Definition searched (o : ZoteroEntries) (d : string) : list entry :=
  match dget d (_d o) with
  | Some [] => visited (_e o) (dkeys (_e o))
  | Some cs => visited (_e o) cs
  | None => []
  end.

(** The completion lines of the entries of priority level [n] among [es],
    in the order of [es]. *)
Definition lines_of_level (ptrn : string) (n : nat) (es : list entry)
  : list string :=
  flat_map (fun e =>
    match priority ptrn e, _get_compl_line e with
    | Ok (Some m), Ok line => if Nat.eqb m n then [line] else []
    | _, _ => []
    end) es.

(** The list [pn]. *)
Definition level (n : nat) (b : levels) : list string :=
  match n with
  | 1%nat => p1 b
  | 2%nat => p2 b
  | 3%nat => p3 b
  | 4%nat => p4 b
  | 5%nat => p5 b
  | 6%nat => p6 b
  | _ => []
  end.

(** An entry whose field [k] is a string. *)
Definition has_str (k : string) (e : entry) : Prop :=
  exists s, dget k e = Some (VStr s).

(** Every entry of the working dictionary satisfies [P]. *)
Definition all_items (P : entry -> Prop) (o : ZoteroEntries) : Prop :=
  forall k e, dget k (_t o) = Some e -> P e.

(** Every entry [e] stored under the id [id] in the collection [c]
    satisfies [Q c id e]. *)
Definition index_all (Q : option string -> string -> entry -> Prop)
    (ix : dict (option string) (dict string entry)) : Prop :=
  forall c es id e, In (c, es) ix -> In (id, e) es -> Q c id e.

(** A computation that, started where [P] holds, ends where [Q] holds of
    its result whenever it completes. *)
Definition hoare {S A} (P : S -> Prop) (c : M S A) (Q : A -> S -> Prop) : Prop :=
  forall s, P s -> forall a, snd (c s) = Ok a -> Q a (fst (c s)).

(** A computation that assigns nothing. *)
Definition pure {S A} (c : M S A) : Prop := forall s, fst (c s) = s.

(** [x[f] += v] *)
Definition iadd_item (f : string) (x : value) : M entry unit :=
  v <- getitem f ;;
  v' <- lift (iadd v x) ;;
  setitem f v'.

(** An entry after [_separate_by_collection] has trimmed the author
    names [s] of it. *)
Definition trimmed (e : entry) (s : string) : entry :=
  dset "alastnm" (VStr (Py.strip_prefix ", " s)) e.

(** [ix[ck][id] = e], after [ix[ck] = {}] when [ck] is a new key. *)
Definition store (ck : option string) (id : string) (e : entry)
    (ix : dict (option string) (dict string entry))
  : dict (option string) (dict string entry) :=
  dset ck (dset id e (match dget ck ix with Some es => es | None => [] end)) ix.

(** The five fields that a completion line is made of. *)
Definition searchable (e : entry) : Prop :=
  has_str "zotkey" e /\ has_str "citekey" e /\ has_str "alastnm" e /\
  has_str "year" e /\ has_str "title" e.

(** The entry [e] is the one that the collections [ix] hold under the id
    [id] in the collection [c]. *)
Definition stored (ix : dict (option string) (dict string entry))
    (c : option string) (id : string) (e : entry) : Prop :=
  exists es, dget c ix = Some es /\ dget id es = Some e.

(** The library with the loose attachments, at a later time. *)
Definition orphan_world : world := {| mtime := 20; db := orphan_library |}.

(** [all(f(e) for every entry e of every collection)] *)
Definition all_stored (f : entry -> bool)
    (ix : dict (option string) (dict string entry)) : bool :=
  forallb (fun ces => forallb (fun ie => f (snd ie)) (snd ces)) ix.

(** An entry whose Zotero key none of the keys of an export names. *)
Definition unnamed (keys : list string) (e : entry) : bool :=
  match dget "zotkey" e with
  | Some z =>
      forallb (fun k => negb (is_str (Py.sub_rest (Ascii.eqb "#") k) z)) keys
  | None => false
  end.

(** Every entry [e] of the working dictionary, under its item id [k],
    satisfies [P k e]. *)
Definition items_at (P : Z -> entry -> Prop) (o : ZoteroEntries) : Prop :=
  forall k e, dget k (_t o) = Some e -> P k e.

(** The name of the field of a row of the field query. *)
Definition field_of (row : Z * string * string * string) : string :=
  snd (fst row).

(** The last names on the rows of the creator query that give the item [k]
    an author, in the order of the rows. *)
Definition authors_of (k : Z) (rows : list (Z * string * string * string))
  : list string :=
  flat_map (fun '(i, ctype, lastname, firstname) =>
              if (i =? k) && (ctype =? "author")%string then [lastname] else [])
           rows.

(** What [_add_authors] appends to the author names for these last
    names. *)
Definition names_suffix (ls : list string) : string :=
  fold_right (fun l s => ", " ++ l ++ s) "" ls.

(** A computation that, started where [P] holds, completes, and ends
    where [Q] holds of its result. *)
Definition total {S A} (P : S -> Prop) (c : M S A) (Q : A -> S -> Prop) : Prop :=
  forall s, P s -> exists a, snd (c s) = Ok a /\ Q a (fst (c s)).

(** The creators of a role as [_add_authors] stores them, as far as
    [_calculate_citekeys] looks: a list that starts with a list that
    starts with a string. *)
Definition author_shaped (v : value) : Prop :=
  exists last rest more, v = VList (VList (VStr last :: rest) :: more).

(** A value that can be a key of [self._e]. *)
Definition plain_key (c : value) : Prop := c = VNone \/ exists s, c = VStr s.

(** The shape of an entry of the working dictionary that the passes of a
    load rely on. *)
Definition shaped (e : entry) : Prop :=
  has_str "alastnm" e /\
  (exists l, dget "tags" e = Some (VList l)) /\
  (exists c, dget "collection" e = Some c /\ plain_key c) /\
  (forall v, dget "date" e = Some v -> exists s, v = VStr s) /\
  (forall v, dget "title" e = Some v -> exists s, v = VStr s) /\
  (forall v, dget "author" e = Some v -> author_shaped v).

(** Only the fields of [names] hold something else than a list. *)
Definition lists_but (names : list string) (e : entry) : Prop :=
  forall f v, dget f e = Some v -> (exists l, v = VList l) \/ In f names.

(** The names that hold a string or [None] before the creators are
    added: the fields of the data base and three of the keys of a new
    entry. *)
Definition string_names (b : database) : list string :=
  (map field_of (field_rows b) ++ ["zotkey"; "collection"; "alastnm"])%list.

(** Banned words made of letters, digits and blanks: the characters that
    stand for themselves in the pattern that [_calculate_citekeys] makes
    of them. *)
Definition plain_words (w : string) : bool :=
  all_chars (fun c => Py.is_upper c || Py.is_lower c || Py.is_digit c
                      || is_space c) w.

(** A data base on which a load completes: no field bears the name tags
    or author; no date has a backslash, which would make the year a
    replacement text that [re.sub] expands or refuses; no role of a
    creator bears the name of a field, of a key of a new entry that holds
    no list, or the name date or title; every attachment has a path and a
    parent with field rows; every item with field rows is deleted or has
    a type. *)
Definition well_formed (b : database) : Prop :=
  Forall (fun row => field_of row <> "tags" /\ field_of row <> "author" /\
                     (field_of row = "date" -> Py.smem Py.bs (snd row) = false))
         (field_rows b) /\
  Forall (fun row : Z * string * string * string =>
            ~ In (snd (fst (fst row))) (string_names b ++ ["date"; "title"]))
         (creator_rows b) /\
  Forall (fun row : string * option Z * option string =>
            orphan b (snd (fst row)) = false /\ snd row <> None)
         (attachment_rows b) /\
  Forall (fun row => In (item_of row) (deleted_rows b) \/
                     exists ty, In (item_of row, ty) (type_rows b))
         (field_rows b).

(** An entry of the item [k] before the entries are separated: it is
    shaped, and it has a type unless the item is deleted. *)
Definition typed (deleted : list Z) (k : Z) (e : entry) : Prop :=
  shaped e /\ (existsb (Z.eqb k) deleted = false -> dmem "etype" e = true).

(** The working dictionary of a load of [b]: its items are those with
    field rows, and each entry [e] of an item [k] satisfies [P k e]. *)
Definition working (b : database) (P : Z -> entry -> Prop)
    (o : ZoteroEntries) : Prop :=
  items_at P o /\ forall j, dmem j (_t o) = has_fields b j.

(** The text on the last row of an item in a query of two columns, if it
    has a row. *)
Definition last_row (i : Z) (rows : list (Z * string)) : option string :=
  last_collection i rows.

(** What the last attachment row of an item stores, if it has a row. *)
Fixpoint last_attachment (i : Z)
    (rows : list (string * option Z * option string)) : option string :=
  match rows with
  | [] => None
  | (pKey, pId, aPath) :: r =>
      match last_attachment i r with
      | Some a => Some a
      | None =>
          match pId, aPath with
          | Some j, Some path =>
              if i =? j then Some (pKey ++ ":" ++ path) else None
          | _, _ => None
          end
      end
  end.

(** The small library with two notes on the article. *)
Definition noted_library : database :=
  {| field_rows := field_rows library;
     collection_rows := collection_rows library;
     creator_rows := creator_rows library;
     type_rows := type_rows library;
     note_rows := [(1, "<p>read again</p>"); (1, "<p>cite in chapter 2</p>")];
     tag_rows := tag_rows library;
     attachment_rows := attachment_rows library;
     deleted_rows := [] |}.

Definition noted_papers : dict string entry :=
  match dget (Some "Papers")
          (_e (fst (_load_zotero_data {| mtime := 10; db := noted_library |}
                      blank))) with
  | Some es => es
  | None => []
  end.

Definition noted_article : entry :=
  match dget "1" noted_papers with
  | Some e => e
  | None => []
  end.

(** An object with one entry in the collection Papers, and a document
    bound to Papers and to a collection that is not there. *)
Definition dangling : ZoteroEntries :=
  {| _cite := "{Author}_{Year}";
     _w := "";
     _e := [(Some "Papers",
             [("1", [("zotkey", VStr "AAAA"); ("alastnm", VStr "Smith");
                     ("year", VStr "2020"); ("title", VStr "Systems");
                     ("citekey", VStr "Smith_2020")])])];
     _t := [];
     _m := 10;
     _d := [("paper.md", [Some "Papers"; Some "Drafts"])] |}.
(** * Properties *)

(** ** Python strings on examples *)

Example lower_ex : Py.lower "The Rise_2" = "the rise_2".
Proof. reflexivity. Qed.

Example title_ex : Py.title "no_author o'brien x2y" = "No_Author O'Brien X2Y".
Proof. reflexivity. Qed.

Example find_ex : (Py.find "xabc" "abc", Py.find "a" "abc", Py.find "ab" "") = (1, -1, 0).
Proof. reflexivity. Qed.

Example split_ex : Py.split "-" "2020-05-00" = ["2020"; "05"; "00"].
Proof. reflexivity. Qed.

Example split_edges :
  (Py.split "-" "", Py.split "-" "a-", Py.split "-" "-a--b")
  = ([""], ["a"; ""], [""; "a"; ""; "b"]).
Proof. vm_compute. reflexivity. Qed.

Example find_edges :
  (Py.find "abc" "", Py.find "" "", Py.find "" "a", Py.find "a" "a")
  = (0, 0, -1, 0).
Proof. vm_compute. reflexivity. Qed.

Example sub_rest_lines :
  Py.sub_rest (Ascii.eqb " ") ("a b" ++ String Py.nl "c d") = "a" ++ String Py.nl "c".
Proof. vm_compute. reflexivity. Qed.

Example sub_nonword_ex : Py.sub_nonword "O'Brien-Smith_x 2" = "OBrienSmith_x2".
Proof. vm_compute. reflexivity. Qed.

Example sub_plain_ex : Py.sub_plain "{Year}" "2020" "{Author}_{Year}{Year}" = "{Author}_20202020".
Proof. reflexivity. Qed.

Example sub_rest_ex : Py.sub_rest (Ascii.eqb " ") "2020-05-00 May 2020" = "2020-05-00".
Proof. reflexivity. Qed.

Example str_of_int_ex : Py.str_of_int 42 = "42".
Proof. reflexivity. Qed.

Example repr_ex : Py.repr_str "O'Brien" = String Py.dq ("O'Brien" ++ String Py.dq "").
Proof. reflexivity. Qed.

Example repr_creators :
  py_str (VList [VList [VStr "Smith"; VStr "Ann"]]) = "[['Smith', 'Ann']]".
Proof. reflexivity. Qed.

(** ** Dictionaries *)

Section DictFacts.
Context {K V : Type} `{EqKey K}.
Implicit Types (k : K) (v : V) (d : dict K V).

Lemma keqb_refl k : keqb k k = true.
Proof. destruct (keqb_spec k k); congruence. Qed.

Lemma keqb_neq k k' : k <> k' -> keqb k k' = false.
Proof. intro N. destruct (keqb_spec k k'); congruence. Qed.

Lemma dget_dset_same k v d : dget k (dset k v d) = Some v.
Proof.
  induction d as [|[k' v'] r IH]; simpl.
  - now rewrite keqb_refl.
  - destruct (keqb_spec k k') as [->|N]; simpl.
    + now rewrite keqb_refl.
    + now rewrite (keqb_neq _ _ N).
Qed.

Lemma dget_dset_other k k' v d : k <> k' -> dget k' (dset k v d) = dget k' d.
Proof.
  intro N. induction d as [|[k0 v0] r IH]; simpl.
  - rewrite keqb_neq; auto.
  - destruct (keqb_spec k k0) as [->|N0]; simpl.
    + rewrite keqb_neq; auto.
    + destruct (keqb k' k0); auto.
Qed.

Lemma dset_dget k v d : dget k d = Some v -> dset k v d = d.
Proof.
  induction d as [|[k0 v0] r IH]; simpl; [discriminate|].
  destruct (keqb_spec k k0) as [->|N0].
  - now intros [= ->].
  - intro E. now rewrite IH.
Qed.

Lemma dmem_dset k k' v d : dmem k' (dset k v d) = keqb k' k || dmem k' d.
Proof.
  unfold dmem. destruct (keqb_spec k' k) as [->|N].
  - now rewrite dget_dset_same.
  - rewrite dget_dset_other; auto.
Qed.

Lemma dget_In k v d : dget k d = Some v -> In (k, v) d.
Proof.
  induction d as [|[k0 v0] r IH]; simpl; [discriminate|].
  destruct (keqb_spec k k0) as [->|N0].
  - intros [= ->]. now left.
  - intro E. right. auto.
Qed.

Lemma dmem_In_keys k d : dmem k d = true <-> In k (dkeys d).
Proof.
  unfold dmem, dkeys. induction d as [|[k0 v0] r IH]; simpl.
  - split; [discriminate|tauto].
  - destruct (keqb_spec k k0) as [->|N0].
    + split; auto.
    + rewrite IH. split; [tauto|]. intros [E|I]; [congruence|exact I].
Qed.

Lemma Forall_dset (P : V -> Prop) k v d :
  Forall (fun kv => P (snd kv)) d -> P v ->
  Forall (fun kv => P (snd kv)) (dset k v d).
Proof.
  intros F Pv. induction F as [|[k0 v0] r Hx F IH]; simpl.
  - constructor; auto.
  - destruct (keqb k k0); constructor; auto.
Qed.
End DictFacts.

(** ** Loops and sequences *)

Lemma bind_inv {S A B} (I : S -> Prop) (c : M S A) (k : A -> M S B) s :
  I (fst (c s)) -> (forall a s', I s' -> I (fst (k a s'))) ->
  I (fst (bind c k s)).
Proof.
  unfold bind. intros Hc Hk. destruct (c s) as [s' [a|e]]; simpl in *; auto.
Qed.

Lemma for_each_inv {S A} (I : S -> Prop) (l : list A) (body : A -> M S unit) :
  (forall x s, I s -> I (fst (body x s))) ->
  forall s, I s -> I (fst (for_each l body s)).
Proof.
  intro Hb. induction l as [|x r IH]; intros s Hs; simpl; auto.
  apply bind_inv; auto.
Qed.

Lemma bind_ok {S A B} (c : M S A) (k : A -> M S B) s b :
  snd (bind c k s) = Ok b ->
  exists a, snd (c s) = Ok a /\ bind c k s = k a (fst (c s)).
Proof.
  unfold bind. destruct (c s) as [s' [a|e]]; simpl; [|discriminate].
  intros _. now exists a.
Qed.

Lemma bind_run {S A B} (c : M S A) (k : A -> M S B) s a :
  snd (c s) = Ok a -> bind c k s = k a (fst (c s)).
Proof.
  unfold bind. destruct (c s) as [s' [a'|e]]; simpl; [|discriminate].
  now intros [= ->].
Qed.

Lemma bind_fail {S A B} (c : M S A) (k : A -> M S B) s e :
  snd (c s) = Raise e -> bind c k s = (fst (c s), Raise e).
Proof.
  unfold bind. destruct (c s) as [s' [a'|e']]; simpl; [discriminate|].
  now intros [= ->].
Qed.

Lemma bind_raise {S A B} (c : M S A) (k : A -> M S B) s e :
  snd (c s) = Raise e -> snd (bind c k s) = Raise e.
Proof.
  unfold bind. destruct (c s) as [s' [a'|e']]; simpl; [discriminate|].
  now intros [= ->].
Qed.

(** ** The items of the working dictionary *)

Lemma when_item_run i (c : M entry unit) o :
  when_item i c o
  = match dget i (_t o) with
    | Some e => (set_t o (dset i (fst (c e)) (_t o)), snd (c e))
    | None => (o, Ok tt)
    end.
Proof.
  unfold when_item, bind, get, on_t, at_key, ret, dmem.
  destruct (dget i (_t o)) as [e|] eqn:G; [|reflexivity].
  cbv beta iota. rewrite G. now destruct (c e).
Qed.

(** Statements under [if item_id in self._t] keep the items there are. *)
Lemma when_item_keys i c o j :
  dmem j (_t (fst (when_item i c o))) = dmem j (_t o).
Proof.
  unfold when_item, bind, get, on_t, at_key, ret.
  destruct (dmem i (_t o)) eqn:E; simpl; [|reflexivity].
  unfold dmem in E. destruct (dget i (_t o)) as [e|] eqn:G; [|discriminate].
  destruct (c e) as [e' r]; simpl.
  rewrite dmem_dset. destruct (keqb_spec j i) as [->|N]; simpl; auto.
  unfold dmem. now rewrite G.
Qed.


Lemma add_field_keys row o j :
  snd (add_field row o) = Ok tt /\
  dmem j (_t (fst (add_field row o))) = (j =? item_of row) || dmem j (_t o).
Proof.
  destruct row as [[[item_id item_key] f] v].
  unfold add_field, item_of, bind, get, on_t, at_key, setitem, modify, ret.
  cbn [fst snd].
  destruct (dmem item_id (_t o)) eqn:E.
  - unfold dmem in E. destruct (dget item_id (_t o)) as [e|] eqn:G; [|discriminate].
    cbn [fst snd _t set_t].
    split; auto. now rewrite dmem_dset.
  - cbn [fst snd _t set_t]. rewrite dget_dset_same. cbn [fst snd _t set_t].
    split; auto. rewrite !dmem_dset, orb_assoc, orb_diag. reflexivity.
Qed.

Lemma add_fields_keys rows : forall o j,
  snd (for_each rows add_field o) = Ok tt /\
  dmem j (_t (fst (for_each rows add_field o)))
  = existsb (fun row => j =? item_of row) rows || dmem j (_t o).
Proof.
  induction rows as [|row r IH]; intros o j; simpl; auto.
  destruct (add_field_keys row o j) as [R B].
  rewrite (bind_run _ _ _ tt) by exact R.
  destruct (IH (fst (add_field row o)) j) as [R' B'].
  split; auto. rewrite B', B.
  destruct (j =? item_of row), (existsb _ r); reflexivity.
Qed.

Lemma _add_most_fields_keys rows o j :
  snd (_add_most_fields rows o) = Ok tt /\
  dmem j (_t (fst (_add_most_fields rows o)))
  = existsb (fun row => j =? item_of row) rows.
Proof.
  unfold _add_most_fields.
  rewrite (bind_run _ _ _ tt) by reflexivity.
  destruct (add_fields_keys rows (fst (on_t (put []) o)) j) as [R B].
  split; auto. rewrite B. simpl. apply orb_false_r.
Qed.

(** A pass of the shape [for row in rows: if item_id in self._t: ...]. *)
Lemma guarded_pass_keys {A} (rows : list A) (body : A -> M ZoteroEntries unit) o j :
  (forall x s, dmem j (_t (fst (body x s))) = dmem j (_t s)) ->
  dmem j (_t (fst (for_each rows body o))) = dmem j (_t o).
Proof.
  intro Hb.
  apply (for_each_inv (fun s => dmem j (_t s) = dmem j (_t o))); auto.
  intros x s E. now rewrite Hb.
Qed.

(** The items of the working dictionary are those with field rows. *)
Lemma load_items_keys b o j :
  dmem j (_t (fst (load_items b o))) = has_fields b j.
Proof.
  unfold load_items.
  pose (I := fun s : ZoteroEntries => dmem j (_t s) = has_fields b j).
  assert (G : forall {A} (rows : list A) body s,
             (forall x s, dmem j (_t (fst (body x s))) = dmem j (_t s)) ->
             I s -> I (fst (for_each rows body s))).
  { intros A rows body s Hb Is. unfold I in *. now rewrite guarded_pass_keys. }
  change (I (fst ((_add_most_fields (field_rows b) ;;
                   _add_collection (collection_rows b) ;;
                   _add_authors (creator_rows b) ;;
                   _add_type (type_rows b) ;;
                   _add_note (note_rows b) ;;
                   _add_tags (tag_rows b)) o))).
  apply bind_inv; [apply _add_most_fields_keys|intros _ s1 I1].
  apply bind_inv; [|intros _ s2 I2].
  { apply G; auto. intros [i c] s. apply when_item_keys. }
  apply bind_inv; [|intros _ s3 I3].
  { apply G; auto. intros [[[i c] l] f] s. apply when_item_keys. }
  apply bind_inv; [|intros _ s4 I4].
  { apply G; auto. intros [i c] s. apply when_item_keys. }
  apply bind_inv; [|intros _ s5 I5].
  { apply G; auto. intros [i c] s. apply when_item_keys. }
  apply G; auto. intros [i c] s. apply when_item_keys.
Qed.

(** The attachment pass stops at the first row whose path is NULL or
    whose parent is no item of the working dictionary. *)
Lemma _add_attachments_stops rows : forall o pKey pId aPath,
  In (pKey, pId, aPath) rows ->
  match pId with Some i => dmem i (_t o) = false | None => True end ->
  exists e, snd (_add_attachments rows o) = Raise e.
Proof.
  unfold _add_attachments.
  induction rows as [|[[pk pid] ap] r IH]; intros o pKey pId aPath I D;
    [destruct I|].
  cbn [for_each]. destruct ap as [path|]; [|exists TypeError; reflexivity].
  destruct pid as [pid|]; [|exists (KeyError KNone); reflexivity].
  unfold bind at 1, on_t at 1, at_key at 1.
  destruct (dget pid (_t o)) as [e|] eqn:G; cbn [fst snd].
  - assert (Keep : forall j, dmem j (dset pid (dset "attachment"
                     (VStr (pk ++ ":" ++ path)) e) (_t o)) = dmem j (_t o)).
    { intro j. rewrite dmem_dset.
      destruct (keqb_spec j pid) as [->|N]; [|reflexivity].
      unfold dmem. now rewrite G. }
    destruct I as [I|I].
    + injection I as -> <- <-. cbn in D. unfold dmem in D. now rewrite G in D.
    + apply (IH _ pKey pId aPath I).
      destruct pId as [i|]; [|exact D]. cbn. now rewrite Keep.
  - eexists. reflexivity.
Qed.

(** When every row has a path, it stops with the [KeyError] of such a
    parent. *)
Lemma _add_attachments_raises rows : forall o pKey pId aPath,
  Forall (fun row : string * option Z * option string => snd row <> None) rows ->
  In (pKey, pId, aPath) rows ->
  match pId with Some i => dmem i (_t o) = false | None => True end ->
  exists k, snd (_add_attachments rows o) = Raise (KeyError k) /\
            (k = KNone \/ exists i, k = KInt i /\ dmem i (_t o) = false).
Proof.
  unfold _add_attachments.
  induction rows as [|[[pk pid] ap] r IH]; intros o pKey pId aPath F I D;
    [destruct I|].
  inversion F as [|? ? Fp Fr]; subst.
  cbn [for_each]. destruct ap as [path|]; [|now contradiction Fp].
  destruct pid as [pid|]; [|exists KNone; auto].
  unfold bind at 1, on_t at 1, at_key at 1.
  destruct (dget pid (_t o)) as [e|] eqn:G; cbn [fst snd].
  - assert (Keep : forall j, dmem j (dset pid (dset "attachment"
                     (VStr (pk ++ ":" ++ path)) e) (_t o)) = dmem j (_t o)).
    { intro j. rewrite dmem_dset.
      destruct (keqb_spec j pid) as [->|N]; [|reflexivity].
      unfold dmem. now rewrite G. }
    destruct I as [I|I].
    + injection I as -> <- <-. cbn in D. unfold dmem in D. now rewrite G in D.
    + destruct (IH (set_t o (dset pid (dset "attachment" (VStr (pk ++ ":" ++ path)) e) (_t o)))
                   pKey pId aPath Fr I) as (k & R & Dk).
      * destruct pId as [i|]; [|exact D]. cbn. now rewrite Keep.
      * exists k. split; auto.
        destruct Dk as [->|(i & -> & Di)]; auto.
        right. exists i. split; auto. cbn in Di. now rewrite Keep in Di.
  - exists (KInt pid). split; auto. right. exists pid. split; auto.
    unfold dmem. now rewrite G.
Qed.

(** C10, as the specification has it, fails: a row without parent whose
    path is NULL too, as the row of a link is, stops the load with the
    [TypeError] of [pKey + ':' + aPath], which is evaluated before
    [self._t[pId]] is looked up. *)
Lemma load_fails_on_orphan_attachment_counterexample :
  ~ (forall (w : world) (o : ZoteroEntries) (pKey : string) (pId : option Z)
            (aPath : option string),
       In (pKey, pId, aPath) (attachment_rows (db w)) ->
       orphan (db w) pId = true ->
       exists k, snd (_load_zotero_data w o) = Raise (KeyError k)).
Proof.
  intro C.
  destruct (C linked_world blank "FFFF" None None) as [k K].
  - right. left. reflexivity.
  - reflexivity.
  - vm_compute in K. discriminate K.
Qed.

(** C10, amended: the load stops with an exception whenever an attachment
    row names a parent that is no item with field rows, or no parent at
    all: the attachment pass looks the parent up in the working dictionary
    without the test of membership that the other passes make, and only
    items with field rows are in it. The exception is a [KeyError] whose
    key is such a parent when the passes before the attachments complete
    (of them only the creator pass can stop) and every attachment row has
    a path; otherwise the exception of the earlier pass or the
    [TypeError] of a NULL path can come first. *)
Theorem load_fails_on_orphan_attachment
    (w : world) (o : ZoteroEntries) (pKey : string) (pId : option Z)
    (aPath : option string) :
  In (pKey, pId, aPath) (attachment_rows (db w)) ->
  orphan (db w) pId = true ->
  (exists e, snd (_load_zotero_data w o) = Raise e) /\
  (snd (load_items (db w) (set_m o (mtime w))) = Ok tt ->
   Forall (fun row : string * option Z * option string => snd row <> None)
          (attachment_rows (db w)) ->
   exists k, snd (_load_zotero_data w o) = Raise (KeyError k) /\
             (k = KNone \/ exists i, k = KInt i /\ has_fields (db w) i = false)).
Proof.
  intros I NF.
  unfold _load_zotero_data.
  rewrite (bind_run _ _ _ tt) by reflexivity.
  change (fst (modify (fun o0 => set_m o0 (mtime w)) o)) with (set_m o (mtime w)).
  destruct (snd (load_items (db w) (set_m o (mtime w)))) as [[]|e] eqn:L.
  - rewrite (bind_run _ _ _ tt) by exact L.
    set (o1 := fst (load_items (db w) _)).
    assert (D : match pId with
                | Some i => dmem i (_t o1) = false
                | None => True
                end).
    { destruct pId as [i|]; [|exact Logic.I]. unfold o1. rewrite load_items_keys.
      simpl in NF. now apply negb_true_iff in NF. }
    split.
    + destruct (_add_attachments_stops _ o1 _ _ _ I D) as (x & R).
      exists x.
      now apply (bind_raise _ (fun _ => _calculate_citekeys ;;
                  _separate_by_collection (deleted_rows (db w)))) in R.
    + intros _ F.
      destruct (_add_attachments_raises _ o1 _ _ _ F I D) as (k & R & Dk).
      assert (Fk : k = KNone \/
                   exists i, k = KInt i /\ has_fields (db w) i = false).
      { destruct Dk as [->|(i & -> & Di)]; auto.
        right. exists i. split; auto.
        unfold o1 in Di. now rewrite load_items_keys in Di. }
      apply (bind_raise _ (fun _ => _calculate_citekeys ;;
               _separate_by_collection (deleted_rows (db w)))) in R.
      eauto.
  - split; [|discriminate].
    exists e. now apply bind_raise.
Qed.

Lemma load_fails_on_orphan_attachment_witness :
  (exists e,
     snd (_load_zotero_data {| mtime := 10; db := orphan_library |} blank)
     = Raise e) /\
  exists k,
    snd (_load_zotero_data {| mtime := 10; db := orphan_library |} blank)
    = Raise (KeyError k) /\
    (k = KNone \/ exists i, k = KInt i /\ has_fields orphan_library i = false).
Proof.
  destruct (load_fails_on_orphan_attachment
              {| mtime := 10; db := orphan_library |} blank
              "EEEE" (Some 99) (Some "storage:lost.pdf")) as [A B].
  - right. right. left. reflexivity.
  - vm_compute. reflexivity.
  - split; [exact A|]. apply B.
    + vm_compute. reflexivity.
    + repeat (constructor; [discriminate|]). constructor.
Defined.

Example linked_library_load :
  snd (_load_zotero_data linked_world blank) = Raise TypeError.
Proof. vm_compute. reflexivity. Qed.

Example orphan_library_load :
  snd (_load_zotero_data {| mtime := 10; db := orphan_library |} blank)
  = Raise (KeyError KNone).
Proof. vm_compute. reflexivity. Qed.

(** ** What a computation leaves alone *)

Section Frame.
Context {X : Type} (f : ZoteroEntries -> X).

Lemma frame_ret {A} (a : A) : frame f (ret a).
Proof. intro s. reflexivity. Qed.

Lemma frame_lift {A} (r : result A) : frame f (lift r).
Proof. intro s. reflexivity. Qed.

Lemma frame_bind {A B} (c : M ZoteroEntries A) (k : A -> M ZoteroEntries B) :
  frame f c -> (forall a, frame f (k a)) -> frame f (bind c k).
Proof.
  intros Hc Hk s. unfold bind. specialize (Hc s).
  destruct (c s) as [s' [a|e]]; simpl in *; auto.
  now rewrite Hk.
Qed.

Lemma frame_get_bind {B} (k : ZoteroEntries -> M ZoteroEntries B) :
  (forall o, frame f (k o)) -> frame f (bind get k).
Proof. intros Hk s. unfold bind, get. apply Hk. Qed.

Lemma frame_for_each {A} (l : list A) (body : A -> M ZoteroEntries unit) :
  (forall x, frame f (body x)) -> frame f (for_each l body).
Proof.
  intro Hb. induction l as [|x r IH]; simpl.
  - apply frame_ret.
  - apply frame_bind; auto.
Qed.

Lemma frame_on_t {A} (c : M (dict Z entry) A) :
  (forall s v, f (set_t s v) = f s) -> frame f (on_t c).
Proof. intros Hf s. unfold on_t. destruct (c (_t s)). apply Hf. Qed.

Lemma frame_on_e {A} (c : M (dict (option string) (dict string entry)) A) :
  (forall s v, f (set_e s v) = f s) -> frame f (on_e c).
Proof. intros Hf s. unfold on_e. destruct (c (_e s)). apply Hf. Qed.

Lemma frame_when_item i (c : M entry unit) :
  (forall s v, f (set_t s v) = f s) -> frame f (when_item i c).
Proof.
  intros Hf. unfold when_item. apply frame_get_bind. intro o.
  destruct (dmem i (_t o)); [now apply frame_on_t|apply frame_ret].
Qed.
End Frame.

Lemma frame_add_field {X} (f : ZoteroEntries -> X) row :
  (forall s v, f (set_t s v) = f s) -> frame f (add_field row).
Proof.
  intro Hf. destruct row as [[[i k] fl] v]. unfold add_field.
  apply frame_get_bind. intro o. apply frame_bind; [|intros _].
  - destruct (dmem i (_t o)); [apply frame_ret|now apply frame_on_t].
  - now apply frame_on_t.
Qed.

(** The passes before the attachments assign to [self._t] only. *)
Lemma frame_load_items {X} (f : ZoteroEntries -> X) b :
  (forall s v, f (set_t s v) = f s) -> frame f (load_items b).
Proof.
  intro Hf. unfold load_items.
  apply frame_bind; [|intros _].
  { unfold _add_most_fields. apply frame_bind; [now apply frame_on_t|intros _].
    apply frame_for_each. intro row. now apply frame_add_field. }
  apply frame_bind; [|intros _].
  { apply frame_for_each. intros [i c]. now apply frame_when_item. }
  apply frame_bind; [|intros _].
  { apply frame_for_each. intros [[[i c] l] n]. now apply frame_when_item. }
  apply frame_bind; [|intros _].
  { apply frame_for_each. intros [i c]. now apply frame_when_item. }
  apply frame_bind; [|intros _].
  { apply frame_for_each. intros [i c]. now apply frame_when_item. }
  apply frame_for_each. intros [i c]. now apply frame_when_item.
Qed.

Lemma frame_add_attachments {X} (f : ZoteroEntries -> X) rows :
  (forall s v, f (set_t s v) = f s) -> frame f (_add_attachments rows).
Proof.
  intro Hf. apply frame_for_each. intros [[pk [pid|]] [path|]].
  - now apply frame_on_t.
  - intro s. reflexivity.
  - intro s. reflexivity.
  - intro s. reflexivity.
Qed.

Lemma frame_calculate_citekeys {X} (f : ZoteroEntries -> X) :
  (forall s v, f (set_t s v) = f s) -> frame f _calculate_citekeys.
Proof.
  intro Hf. apply frame_get_bind. intro o. apply frame_for_each. intro k.
  now apply frame_on_t.
Qed.

Lemma frame_separate_by_collection {X} (f : ZoteroEntries -> X) deleted :
  (forall s v, f (set_t s v) = f s) -> (forall s v, f (set_e s v) = f s) ->
  frame f (_separate_by_collection deleted).
Proof.
  intros Ht He. unfold _separate_by_collection.
  apply frame_bind; [now apply frame_on_e|intros _].
  apply frame_get_bind. intro o. apply frame_for_each. intro k.
  unfold separate_item.
  apply frame_bind.
  - destruct (existsb (Z.eqb k) deleted); [apply frame_ret|].
    apply frame_bind; [now apply frame_on_t|intro; apply frame_ret].
  - intros [|]; [apply frame_ret|].
    apply frame_bind; [now apply frame_on_t|intros _].
    apply frame_bind; [now apply frame_on_t|intros c].
    apply frame_bind; [apply frame_lift|intros ck].
    apply frame_get_bind. intro o'.
    apply frame_bind.
    + destruct (dmem ck (_e o')); [apply frame_ret|now apply frame_on_e].
    + intros _. apply frame_bind; [now apply frame_on_t|intros e].
      now apply frame_on_e.
Qed.

(** A load assigns nothing to the collections of the documents. *)
Lemma _load_zotero_data_d w : frame _d (_load_zotero_data w).
Proof.
  unfold _load_zotero_data.
  apply frame_bind; [intro s; reflexivity|intros _].
  apply frame_bind; [now apply frame_load_items|intros _].
  apply frame_bind; [now apply frame_add_attachments|intros _].
  apply frame_bind; [now apply frame_calculate_citekeys|intros _].
  now apply frame_separate_by_collection.
Qed.

(** An export assigns to [self._e] only. *)
Lemma frame_GetYamlRefs {X} (f : ZoteroEntries -> X) keys :
  (forall s v, f (set_e s v) = f s) -> frame f (GetYamlRefs keys).
Proof.
  intro He. unfold GetYamlRefs.
  assert (G : forall {A B} (l : list A) (body : A -> B -> M ZoteroEntries B) b,
             (forall x y, frame f (body x y)) -> frame f (for_acc l body b)).
  { intros A B l body. induction l as [|x r IH]; intros b Hb; simpl.
    - apply frame_ret.
    - apply frame_bind; auto. }
  apply frame_get_bind. intro o.
  apply frame_bind; [|intro; apply frame_ret].
  apply G. intros c ref.
  apply frame_bind; [now apply frame_on_e|intros es].
  apply G. intros e ref'. apply G. intros k ref''.
  apply frame_bind; [now apply frame_on_e|intros z].
  destruct (is_str _ z); [|apply frame_ret].
  apply frame_bind; [now apply frame_on_e|intro; apply frame_ret].
Qed.

(** ** Search for a document without collections *)

Lemma find_matches_unbound ptrn d o :
  dget d (_d o) = None ->
  snd (find_matches ptrn d o) = Raise (KeyError (KStr d)).
Proof.
  intro G. unfold find_matches, bind, on_d, getitem. now rewrite G.
Qed.

Lemma GetMatch_run w ptrn d o :
  GetMatch w ptrn d o
  = ((if mtime w >? _m o then _load_zotero_data w else ret tt) ;;
     find_matches ptrn d) o.
Proof. reflexivity. Qed.

(** Every call of [SetCollections] for a document makes it a key of
    [self._d], whatever the call returns. *)
Lemma append_binding_key d k o :
  dmem d (_d o) = true -> dmem d (_d (fst (append_binding d k o))) = true.
Proof.
  intro D. unfold append_binding, on_d, at_key. unfold dmem in D.
  destruct (dget d (_d o)) as [l|] eqn:G; [|discriminate].
  cbn. rewrite dmem_dset. now rewrite keqb_refl.
Qed.

Lemma SetCollections_key d clist o :
  dmem d (_d (fst (SetCollections d clist o))) = true.
Proof.
  unfold SetCollections.
  assert (S : forall s, dmem d (_d (fst (on_d (setitem d []) s))) = true).
  { intro s. unfold on_d, setitem, modify. cbn.
    rewrite dmem_dset. now rewrite keqb_refl. }
  apply (bind_inv (fun s => dmem d (_d s) = true)); [apply S|].
  intros _ s1 D1.
  destruct (list_eq_dec string_dec clist [""]).
  - apply (bind_inv (fun s => dmem d (_d s) = true)); [exact D1|].
    intros o' s2 D2. apply bind_inv; [|auto].
    apply for_each_inv; [|exact D2].
    intros k s Ds. now apply append_binding_key.
  - apply (bind_inv (fun s => dmem d (_d s) = true)); [apply S|].
    intros _ s2 D2. clear D1. revert s2 D2.
    induction clist as [|c r IH]; intros s2 D2; cbn [bind_each]; [exact D2|].
    unfold bind at 1, get at 1.
    destruct (dmem (Some c) (_e s2)); [|exact D2].
    apply (bind_inv (fun s => dmem d (_d s) = true)).
    + now apply append_binding_key.
    + intros _ s3 D3.
      assert (IH' : forall s, dmem d (_d s) = true ->
                dmem d (_d (fst (bind_each d r s))) = true).
      { clear -D3. revert D3. generalize s3. clear s3.
        induction r as [|c' r' IHr]; intros s3 D3 s Ds; cbn [bind_each];
          [exact Ds|].
        unfold bind at 1, get at 1.
        destruct (dmem (Some c') (_e s)); [|exact Ds].
        apply (bind_inv (fun s => dmem d (_d s) = true)).
        - now apply append_binding_key.
        - intros _ s' Ds'. now apply (IHr s3 D3). }
      now apply IH'.
Qed.

(** C9, as the specification has it, fails: with a reload due that stops,
    the search for a document that was never bound stops with the
    exception of the reload, here the [TypeError] of an attachment
    without path, and not with a [KeyError]. *)
Lemma GetMatch_unbound_document_counterexample :
  ~ (forall (w : world) (ptrn d : string) (o : ZoteroEntries),
       dget d (_d o) = None ->
       exists k, snd (GetMatch w ptrn d o) = Raise (KeyError k)).
Proof.
  intro C.
  destruct (C linked_world "smi" "paper.md" loaded) as [k K].
  - vm_compute. reflexivity.
  - vm_compute in K. discriminate K.
Qed.

(** A call of [SetCollections] that returns an error message binds the
    document all the same: after it the search returns, here over every
    collection. *)
Example GetMatch_after_failed_binding :
  snd (SetCollections "paper.md" ["Nowhere"] loaded) = Ok (not_found "Nowhere") /\
  exists line,
    snd (GetMatch {| mtime := 10; db := library |} "smi" "paper.md"
           (fst (SetCollections "paper.md" ["Nowhere"] loaded)))
    = Ok [line].
Proof. vm_compute. split; [reflexivity|eexists; reflexivity]. Qed.

(** C9, amended: a search for a document that is no key of [self._d]
    does not return: the method always stops with an exception, and the
    exception is the [KeyError] of the document unless a reload was due
    and stopped first, whose exception it is then. The document is a key
    of [self._d] after every call of [SetCollections] for it, also after
    one that returns an error message: a call that succeeds is not what
    the search needs. *)
Theorem GetMatch_unbound_document
    (w : world) (ptrn d : string) (o : ZoteroEntries) (clist : list string) :
  (dget d (_d o) = None ->
   (exists e, snd (GetMatch w ptrn d o) = Raise e) /\
   (mtime w <= _m o \/ snd (_load_zotero_data w o) = Ok tt ->
    snd (GetMatch w ptrn d o) = Raise (KeyError (KStr d))) /\
   (mtime w > _m o -> forall e, snd (_load_zotero_data w o) = Raise e ->
    snd (GetMatch w ptrn d o) = Raise e)) /\
  dget d (_d (fst (SetCollections d clist o))) <> None.
Proof.
  split.
  - intro G. rewrite GetMatch_run.
    destruct (mtime w >? _m o) eqn:T.
    + destruct (snd (_load_zotero_data w o)) as [[]|e] eqn:L.
      * rewrite (bind_run _ _ _ tt) by exact L.
        assert (R : snd (find_matches ptrn d (fst (_load_zotero_data w o)))
                    = Raise (KeyError (KStr d))).
        { apply find_matches_unbound. now rewrite _load_zotero_data_d. }
        cbv beta. rewrite R.
        split; [eexists; reflexivity|].
        split; [intros _; reflexivity|]. intros _ e [=].
      * split; [exists e; now apply bind_raise|]. split.
        -- intros [Le|Q]; [|discriminate Q].
           apply Z.gtb_lt in T. lia.
        -- intros _ e' [= <-]. now apply bind_raise.
    + rewrite (bind_run _ _ _ tt) by reflexivity. cbv beta.
      change (fst (ret tt o)) with o.
      rewrite find_matches_unbound by exact G.
      split; [eexists; reflexivity|].
      split; [intros _; reflexivity|].
      intro Gt. rewrite Z.gtb_ltb in T. apply Z.ltb_ge in T. lia.
  - pose proof (SetCollections_key d clist o) as K. unfold dmem in K.
    destruct (dget d (_d (fst (SetCollections d clist o)))); [discriminate|].
    discriminate K.
Qed.

Lemma GetMatch_unbound_document_witness :
  (exists e, snd (GetMatch linked_world "smi" "paper.md" loaded) = Raise e) /\
  snd (GetMatch {| mtime := 10; db := library |} "smi" "paper.md" loaded)
  = Raise (KeyError (KStr "paper.md")) /\
  snd (GetMatch linked_world "smi" "paper.md" loaded) = Raise TypeError.
Proof.
  destruct (GetMatch_unbound_document linked_world "smi" "paper.md" loaded [])
    as [A _].
  destruct (GetMatch_unbound_document {| mtime := 10; db := library |}
              "smi" "paper.md" loaded []) as [B _].
  assert (G : dget "paper.md" (_d loaded) = None) by (vm_compute; reflexivity).
  destruct (A G) as (A1 & _ & A3). destruct (B G) as (_ & B2 & _).
  split; [exact A1|]. split.
  - apply B2. left. vm_compute. discriminate.
  - apply A3; vm_compute; reflexivity.
Defined.

(** Only [SetCollections] names a document: a load leaves [self._d] as it
    is, and so do a search and an export. *)
Lemma find_matches_state ptrn d o : fst (find_matches ptrn d o) = o.
Proof.
  unfold find_matches, bind, on_d, getitem, get, lift, ret.
  destruct o as [c w e t m dd]; simpl.
  destruct (dget d dd) as [l|]; simpl; auto.
  destruct (match_collections _ _ _ _); reflexivity.
Qed.

Lemma GetMatch_d w ptrn d : frame _d (GetMatch w ptrn d).
Proof.
  unfold GetMatch. apply frame_get_bind. intro o.
  apply frame_bind.
  - destruct (mtime w >? _m o); [apply _load_zotero_data_d|apply frame_ret].
  - intros _ s. now rewrite find_matches_state.
Qed.

Lemma append_binding_other d d' k o :
  d' <> d -> dget d (_d (fst (append_binding d' k o))) = dget d (_d o).
Proof.
  intro N. unfold append_binding, on_d, at_key.
  destruct (dget d' (_d o)) as [l|]; simpl; [|reflexivity].
  now apply dget_dset_other.
Qed.

Lemma bind_each_other d d' clist : forall o,
  d' <> d -> dget d (_d (fst (bind_each d' clist o))) = dget d (_d o).
Proof.
  induction clist as [|c r IH]; intros o N; simpl; [reflexivity|].
  unfold bind at 1, get at 1.
  destruct (dmem (Some c) (_e o)); [|reflexivity].
  apply (bind_inv (fun s => dget d (_d s) = dget d (_d o))).
  - now apply append_binding_other.
  - intros _ s E. now rewrite IH.
Qed.

Lemma SetCollections_other d d' clist o :
  d' <> d -> dget d (_d (fst (SetCollections d' clist o))) = dget d (_d o).
Proof.
  intro N. unfold SetCollections.
  assert (S : forall s, dget d (_d s) = dget d (_d o) ->
              dget d (_d (fst (on_d (setitem d' []) s))) = dget d (_d o)).
  { intros s E. unfold on_d, setitem, modify. simpl.
    now rewrite dget_dset_other. }
  apply (bind_inv (fun s => dget d (_d s) = dget d (_d o))); [now apply S|].
  intros _ s1 E1.
  destruct (list_eq_dec string_dec clist [""]).
  - apply (bind_inv (fun s => dget d (_d s) = dget d (_d o))); [exact E1|].
    intros o' s2 E2. apply bind_inv; [|auto].
    apply for_each_inv; [|exact E2].
    intros k s E. now rewrite append_binding_other.
  - apply (bind_inv (fun s => dget d (_d s) = dget d (_d o))); [now apply S|].
    intros _ s2 E2. now rewrite bind_each_other.
Qed.

(** After [ZoteroEntries()] and any calls of which none is
    [SetCollections] for [d], the document [d] is no key of [self._d]. *)
Lemma never_bound d template banned w calls :
  Forall (leaves_unbound d) calls ->
  dget d (_d (fold_left after calls (fst (__init__ template banned w)))) = None.
Proof.
  intro F.
  assert (G : forall o, dget d (_d o) = None ->
                        dget d (_d (fold_left after calls o)) = None).
  { induction F as [|c r L F IH]; intros o E; simpl; auto.
    apply IH. destruct c as [d' clist|w' ptrn d'|keys]; simpl in *.
    - now rewrite SetCollections_other.
    - now rewrite GetMatch_d.
    - now rewrite frame_GetYamlRefs. }
  apply G. unfold __init__, bind.
  destruct (_load_zotero_data w _) as [o' [[]|e]] eqn:L; simpl; auto.
  pose proof (_load_zotero_data_d w) as Fd. unfold frame in Fd.
  specialize (Fd {| _cite := match template with Some c => c | None => "{Author}_{Year}" end;
                    _w := match banned with Some x => x
                          | None => "a an the some from on in to of do with" end;
                    _e := []; _t := []; _m := 0; _d := [] |}).
  rewrite L in Fd. simpl in Fd. now rewrite Fd.
Qed.

(** ** Binding a document to collections *)

Section DictSet.
Context {K V : Type} `{EqKey K}.

Lemma dset_dset (k : K) (v v' : V) (d : dict K V) :
  dset k v (dset k v' d) = dset k v d.
Proof.
  induction d as [|[k0 v0] r IH]; simpl.
  - now rewrite keqb_refl.
  - destruct (keqb_spec k k0) as [->|N]; simpl.
    + now rewrite keqb_refl.
    + rewrite (keqb_neq _ _ N). now rewrite IH.
Qed.
End DictSet.

Lemma append_binding_run d k o l :
  dget d (_d o) = Some l ->
  append_binding d k o = (set_d o (dset d (l ++ [k])%list (_d o)), Ok tt).
Proof.
  intro G. unfold append_binding, on_d, at_key, modify. now rewrite G.
Qed.

(** The loop over the names, up to the first that is no collection. *)
Lemma bind_each_unknown d c rest known : forall o l,
  dget d (_d o) = Some l ->
  Forall (fun x => dmem (Some x) (_e o) = true) known ->
  dmem (Some c) (_e o) = false ->
  bind_each d (known ++ c :: rest) o
  = (set_d o (dset d (l ++ map Some known)%list (_d o)), Ok (not_found c)).
Proof.
  induction known as [|x r IH]; intros o l G F U; simpl.
  - unfold bind, get, ret. rewrite U. rewrite app_nil_r.
    rewrite dset_dget by exact G. now destruct o.
  - inversion F as [|? ? Fx Fr]; subst.
    unfold bind at 1, get at 1. rewrite Fx.
    unfold bind at 1. rewrite (append_binding_run _ _ _ l G).
    rewrite (IH _ (l ++ [Some x])%list); simpl; auto.
    + now rewrite dset_dset, <- app_assoc.
    + apply dget_dset_same.
Qed.

Example bound_binding : _d bound = [("paper.md", [Some "Papers"])].
Proof. vm_compute. reflexivity. Qed.

(** C3, as the specification has it, fails: binding paper.md to a name
    that is no collection replaces its list of collections, here by the
    empty list. *)
Lemma SetCollections_unknown_counterexample :
  ~ (forall (o : ZoteroEntries) (d : string) (clist : list string)
            (old : list (option string)),
       dget d (_d o) = Some old ->
       (exists c, In c clist /\ dmem (Some c) (_e o) = false) ->
       (exists msg, snd (SetCollections d clist o) = Ok msg /\ msg <> "") /\
       _d (fst (SetCollections d clist o)) = _d o /\
       _e (fst (SetCollections d clist o)) = _e o).
Proof.
  intro C.
  destruct (C bound "paper.md" ["Nowhere"] [Some "Papers"]) as (_ & D & _).
  - vm_compute. reflexivity.
  - exists "Nowhere". split; [now left|vm_compute; reflexivity].
  - vm_compute in D. discriminate D.
Qed.

(** C3, amended: when the list of names, other than the list of the empty
    name alone, holds a name that is no collection, [SetCollections]
    returns the message that names the first such name, which is not empty;
    the document is left bound to the names before it; the other documents
    and [self._e] are as before. *)
Theorem SetCollections_unknown
    (o : ZoteroEntries) (d c : string) (known rest : list string) :
  Forall (fun x => dmem (Some x) (_e o) = true) known ->
  dmem (Some c) (_e o) = false ->
  (known ++ c :: rest)%list <> [""] ->
  snd (SetCollections d (known ++ c :: rest) o) = Ok (not_found c) /\
  not_found c <> "" /\
  dget d (_d (fst (SetCollections d (known ++ c :: rest) o)))
  = Some (map Some known) /\
  (forall d', d' <> d ->
     dget d' (_d (fst (SetCollections d (known ++ c :: rest) o)))
     = dget d' (_d o)) /\
  _e (fst (SetCollections d (known ++ c :: rest) o)) = _e o.
Proof.
  intros F U N. unfold SetCollections.
  rewrite (bind_run _ _ _ tt) by reflexivity.
  destruct (list_eq_dec string_dec (known ++ c :: rest) [""]) as [E|_];
    [contradiction|].
  rewrite (bind_run _ _ _ tt) by reflexivity.
  rewrite (bind_each_unknown d c rest known _ []); simpl; auto.
  - repeat split.
    + discriminate.
    + apply dget_dset_same.
    + intros d' Nd. now rewrite !dget_dset_other by congruence.
  - apply dget_dset_same.
Qed.

Lemma SetCollections_unknown_witness :
  snd (SetCollections "paper.md" (["Papers"] ++ "Nowhere" :: []) bound)
  = Ok (not_found "Nowhere") /\
  not_found "Nowhere" <> "" /\
  dget "paper.md"
    (_d (fst (SetCollections "paper.md" (["Papers"] ++ "Nowhere" :: []) bound)))
  = Some (map Some ["Papers"]) /\
  (forall d', d' <> "paper.md" ->
     dget d'
       (_d (fst (SetCollections "paper.md" (["Papers"] ++ "Nowhere" :: []) bound)))
     = dget d' (_d bound)) /\
  _e (fst (SetCollections "paper.md" (["Papers"] ++ "Nowhere" :: []) bound))
  = _e bound.
Proof.
  apply (SetCollections_unknown bound "paper.md" "Nowhere" ["Papers"] []).
  - constructor; [vm_compute; reflexivity|constructor].
  - vm_compute. reflexivity.
  - discriminate.
Defined.

(** ** Citation keys *)

Lemma append_empty (s : string) : s ++ "" = s.
Proof. induction s as [|c s IH]; simpl; congruence. Qed.

(** A plain pattern whose first character is not in the text occurs
    nowhere in it. *)
Lemma sub_plain_absent c pat repl s :
  Py.smem c s = false -> Py.sub_plain (String c pat) repl s = s.
Proof.
  unfold Py.sub_plain. induction s as [|a s IH]; simpl; auto.
  intro N. apply orb_false_iff in N as [Na Ns].
  destruct (ascii_dec c a) as [->|_].
  - now rewrite Ascii.eqb_refl in Na.
  - now rewrite IH.
Qed.

Lemma all_chars_smem f c s :
  all_chars f s = true -> f c = false -> Py.smem c s = false.
Proof.
  intros A Fc. induction s as [|a s IH]; simpl in *; auto.
  apply andb_true_iff in A as [Fa A].
  destruct (Ascii.eqb_spec c a) as [->|_]; [congruence|auto].
Qed.

Lemma strip_two_digits year :
  all_chars Py.is_digit year = true ->
  Py.strip_two Py.is_digit Py.is_digit year
  = match year with String _ (String _ r) => r | _ => year end /\
  all_chars Py.is_digit (Py.strip_two Py.is_digit Py.is_digit year) = true.
Proof.
  destruct year as [|a [|b r]]; simpl; auto.
  intro A. apply andb_true_iff in A as [-> A].
  apply andb_true_iff in A as [-> A]. simpl. auto.
Qed.

(** C6, as the specification has it, fails: the year 89 is not
    substituted unchanged for the placeholder, its two digits go. *)
Lemma year_placeholder_counterexample :
  ~ (forall lastname titlew year : string,
       (String.length year < 4)%nat ->
       fill_template "{year}" lastname year titlew = year).
Proof.
  intro C. assert (L : (String.length "89" < 4)%nat) by (simpl; lia).
  specialize (C "Smith" "rise" "89" L). vm_compute in C. discriminate C.
Qed.

(** C6, amended: for a year made of digits the placeholder is replaced by
    the year without its first two digits whenever it has two, whatever its
    length; a year of fewer than two digits is substituted as it is. *)
Theorem year_placeholder (lastname titlew year : string) :
  all_chars Py.is_digit year = true ->
  fill_template "{year}" lastname year titlew
  = match year with String _ (String _ r) => r | _ => year end.
Proof.
  intro A. destruct (strip_two_digits year A) as [E D].
  unfold fill_template.
  change (Py.sub_plain "{author}" (Py.lower lastname) "{year}") with "{year}".
  change (Py.sub_plain "{Author}" (Py.title lastname) "{year}") with "{year}".
  replace (Py.sub_plain "{year}" (Py.strip_two Py.is_digit Py.is_digit year) "{year}")
    with (Py.strip_two Py.is_digit Py.is_digit year)
    by (unfold Py.sub_plain; simpl; now rewrite append_empty).
  set (y := Py.strip_two Py.is_digit Py.is_digit year) in *.
  do 4 rewrite (sub_plain_absent _ _ _ y)
    by (apply (all_chars_smem Py.is_digit); [exact D|reflexivity]).
  exact E.
Qed.

Lemma year_placeholder_witness :
  fill_template "{year}" "Smith" "89" "rise" = "" /\
  fill_template "{year}" "Smith" "2020" "rise" = "20" /\
  fill_template "{year}" "Smith" "7" "rise" = "7".
Proof.
  split; [|split].
  - apply (year_placeholder "Smith" "rise" "89"). vm_compute. reflexivity.
  - apply (year_placeholder "Smith" "rise" "2020"). vm_compute. reflexivity.
  - apply (year_placeholder "Smith" "rise" "7"). vm_compute. reflexivity.
Defined.

Example article_year_89 :
  article_citekey "{Author}{year}" "The Rise of Systems" "89" = Some (VStr "Smith").
Proof. vm_compute. reflexivity. Qed.

(** The pattern that [_calculate_citekeys] builds from the default banned
    words: one alternative for each character of the string. *)
Example banned_pattern_default :
  banned_pattern "a an the"
  = "^(a |  |a |n |  |t |h |e )".
Proof. vm_compute. reflexivity. Qed.

(** C5 at the title of the specification: the banned word is not
    stripped, because the alternatives of the pattern are the single
    characters of the banned words followed by a space, and the first word
    of the title is the banned word itself. *)
Theorem title_word_keeps_banned_word :
  title_word (_w blank) (Py.lower "The rise of systems") = "the" /\
  article_citekey "{Author}_{title}" "The rise of systems" "2020-00-00 2020"
  = Some (VStr "Smith_the").
Proof. split; vm_compute; reflexivity. Qed.

(** A leading banned word of one letter does go, as any leading letter
    before a space does. *)
Example title_word_one_letter :
  title_word (_w blank) (Py.lower "A study") = "study" /\
  title_word (_w blank) (Py.lower "An essay") = "an".
Proof. split; vm_compute; reflexivity. Qed.

(** ** Ranked search *)

Example ranking_citekeys :
  map (fun ie => (dget "citekey" (snd ie), dget "alastnm" (snd ie)))
      (match dget (Some "Papers") (_e ranking_object) with
       | Some es => es
       | None => []
       end)
  = [(Some (VStr "abc2020"), Some (VStr "Jones"));
     (Some (VStr "xabc2020"), Some (VStr "Young"));
     (Some (VStr "zeta2020"), Some (VStr "Abcarian"))].
Proof. vm_compute. reflexivity. Qed.

(** [e['alastnm'][0][0]] of a string is its first character, so the text
    that the author tests search has one character: the pattern is found
    at 0 or not at all. *)
Lemma find_one_char (c : ascii) (ptrn : string) :
  Py.find (String c "") ptrn = 0 \/ Py.find (String c "") ptrn = -1.
Proof.
  unfold Py.find. simpl.
  destruct ptrn as [|a [|b p]]; simpl; auto;
    destruct (ascii_dec a c); auto.
Qed.

Lemma author_test_string cmp ptrn e s :
  dget "alastnm" e = Some (VStr s) ->
  author_test cmp ptrn e = Ok false \/
  exists c, author_test cmp ptrn e = Ok (cmp (Py.find (String c "") ptrn)).
Proof.
  intro G. unfold author_test, field. rewrite G. simpl.
  destruct s as [|c s]; simpl; auto.
  right. exists (Py.lower_char c). reflexivity.
Qed.

(** With the author names in a string, as a load leaves them, no entry is
    put on the fifth list, and an entry is put on the second only for a
    pattern of one character. *)
Lemma priority_of_author ptrn e s :
  dget "alastnm" e = Some (VStr s) ->
  priority ptrn e <> Ok (Some 5%nat) /\
  (priority ptrn e = Ok (Some 2%nat) -> (String.length ptrn <= 1)%nat).
Proof.
  intro G. unfold priority.
  destruct (find_in "citekey" ptrn e) as [i|x]; simpl; [|split; discriminate].
  destruct (i =? 0); [split; discriminate|].
  destruct (author_test_string (Z.eqb 0) ptrn e s G) as [-> | (c & ->)];
  destruct (author_test_string (Z.ltb 0) ptrn e s G) as [-> | (c' & ->)];
  simpl.
  all: try destruct (find_one_char c ptrn) as [F|F]; try rewrite F; simpl.
  all: try destruct (find_one_char c' ptrn) as [F'|F']; try rewrite F'; simpl.
  all: destruct (find_in "title" ptrn e) as [j|y]; simpl;
       try destruct (j =? 0); try destruct (i >? 0); try destruct (j >? 0);
       split; try discriminate.
  all: intros _; revert F; unfold Py.find; simpl;
       destruct ptrn as [|a [|b p]]; simpl; try lia;
       destruct (ascii_dec a c); discriminate.
Qed.

(** C1 at the collection of the ranking example: the search for abc
    returns the entry whose key starts with it and the entry whose key
    contains it, and not the entry whose author is Abcarian, which is put
    on no list: the author tests look at the first character of the
    string of author names. *)
Theorem GetMatch_misses_author_prefix :
  snd (GetMatch ranking_world "abc" "paper.md" ranking_object)
  = Ok ["KEY1#abc2020" ++ String Py.tab ("Jones" ++ String Py.tab "(2020) Abc of logic");
        "KEY2#xabc2020" ++ String Py.tab ("Young" ++ String Py.tab "(2020) Xabc revisited")] /\
  match dget (Some "Papers") (_e ranking_object) with
  | Some es =>
      match dget "3" es with
      | Some e3 =>
          dget "alastnm" e3 = Some (VStr "Abcarian") /\
          priority "abc" e3 = Ok None
      | None => False
      end
  | None => False
  end.
Proof. vm_compute. split; [reflexivity|split; reflexivity]. Qed.

(** ** The collection of an item *)

(** The loop of [_add_collection] over any rows: the last row of an item
    decides. *)
Lemma add_collection_rows rows : forall o,
  snd (for_each rows (fun '(item_id, item_collection) =>
         when_item item_id (setitem "collection" (VStr item_collection))) o)
  = Ok tt /\
  forall i e, dget i (_t o) = Some e ->
    dget i (_t (fst (for_each rows (fun '(item_id, item_collection) =>
         when_item item_id (setitem "collection" (VStr item_collection))) o)))
    = Some match last_collection i rows with
           | Some n => dset "collection" (VStr n) e
           | None => e
           end.
Proof.
  induction rows as [|[j n] r IH]; intro o; simpl; [auto|].
  assert (W : snd (when_item j (setitem "collection" (VStr n)) o) = Ok tt /\
              forall i e, dget i (_t o) = Some e ->
                dget i (_t (fst (when_item j (setitem "collection" (VStr n)) o)))
                = Some (if i =? j then dset "collection" (VStr n) e else e)).
  { rewrite when_item_run.
    destruct (dget j (_t o)) as [ej|] eqn:G; cbn [fst snd _t set_t].
    - split; [reflexivity|]. intros i e Gi.
      destruct (Z.eqb_spec i j) as [->|N].
      + rewrite dget_dset_same. unfold setitem, modify. cbn [fst]. congruence.
      + rewrite dget_dset_other; auto.
    - split; [reflexivity|]. intros i e Gi.
      destruct (Z.eqb_spec i j) as [->|N]; congruence. }
  destruct W as [R W].
  rewrite (bind_run _ _ _ tt) by exact R.
  destruct (IH (fst (when_item j (setitem "collection" (VStr n)) o))) as [R' W'].
  split; auto. intros i e Gi.
  rewrite (W' i _ (W i e Gi)).
  destruct (last_collection i r) as [m|]; destruct (i =? j); auto.
  now rewrite dset_dset.
Qed.

Lemma last_collection_In i rows n :
  last_collection i rows = Some n -> In (i, n) rows.
Proof.
  induction rows as [|[j m] r IH]; simpl; [discriminate|].
  destruct (last_collection i r) as [x|].
  - intros [= ->]. auto.
  - destruct (Z.eqb_spec i j) as [->|N]; [|discriminate].
    intros [= ->]. auto.
Qed.

Lemma In_last_collection i rows n :
  In (i, n) rows -> exists m, last_collection i rows = Some m.
Proof.
  induction rows as [|[j m] r IH]; simpl; [tauto|].
  intros [E|I].
  - injection E as -> ->. rewrite Z.eqb_refl.
    destruct (last_collection i r); eauto.
  - destruct (IH I) as [x ->]. eauto.
Qed.

Lemma differs_to_read (a : Z * string) :
  CollectionOrder.differs a = false <-> snd a = "To Read".
Proof.
  unfold CollectionOrder.differs. rewrite negb_false_iff. apply String.eqb_eq.
Qed.

Lemma leb_to_read_first a b :
  CollectionOrder.leb a b = true -> to_read_first a b.
Proof.
  unfold CollectionOrder.leb, to_read_first.
  destruct (CollectionOrder.differs a), (CollectionOrder.differs b);
    auto; discriminate.
Qed.

(** The sorted rows have every "To Read" before every other name. *)
Lemma sort_to_read_first rows :
  StronglySorted to_read_first (CollectionSort.sort rows).
Proof.
  apply Sorted_StronglySorted.
  - intros a b c Hab Hbc Ha. auto.
  - pose proof (CollectionSort.Sorted_sort rows) as S.
    induction S as [|a l S IH Hd]; constructor; auto.
    destruct Hd; constructor. now apply leb_to_read_first.
Qed.

Lemma last_to_read i rows :
  StronglySorted to_read_first rows ->
  last_collection i rows = Some "To Read" ->
  forall m, In (i, m) rows -> m = "To Read".
Proof.
  induction 1 as [|[j n] r S IH F]; simpl; [tauto|].
  destruct (last_collection i r) as [x|] eqn:L.
  - intros [= ->] m [E|I]; [|auto].
    injection E as -> ->.
    apply last_collection_In in L.
    rewrite Forall_forall in F. specialize (F _ L).
    apply (differs_to_read (i, m)).
    destruct (CollectionOrder.differs (i, m)) eqn:D; auto.
    specialize (F D). vm_compute in F. discriminate F.
  - destruct (Z.eqb_spec i j) as [->|N]; [|discriminate].
    intros [= ->] m [E|I]; [congruence|].
    apply In_last_collection in I as [x I]. congruence.
Qed.

(** C8: an item of the working dictionary that is in some collection is
    given one of its collections, and it is given "To Read" only when all
    its collections bear that name: with a collection of another name, the
    one retained is not "To Read". *)
Theorem _add_collection_prefers_other
    (rows : list (Z * string)) (o : ZoteroEntries) (i : Z) (e : entry)
    (n : string) :
  dget i (_t o) = Some e ->
  In (i, n) rows ->
  exists n',
    snd (_add_collection rows o) = Ok tt /\
    dget i (_t (fst (_add_collection rows o)))
    = Some (dset "collection" (VStr n') e) /\
    In (i, n') rows /\
    (n' = "To Read" -> forall m, In (i, m) rows -> m = "To Read").
Proof.
  intros G I. unfold _add_collection.
  destruct (add_collection_rows (CollectionSort.sort rows) o) as [R W].
  pose proof (CollectionSort.Permuted_sort rows) as P.
  assert (I' : In (i, n) (CollectionSort.sort rows))
    by (eapply Permutation.Permutation_in; eauto).
  destruct (In_last_collection _ _ _ I') as [n' L].
  exists n'. rewrite (W i e G), L. repeat split; auto.
  - apply last_collection_In in L.
    eapply Permutation.Permutation_in; [symmetry; exact P|exact L].
  - intros -> m Im.
    apply (last_to_read i (CollectionSort.sort rows)); auto.
    + apply sort_to_read_first.
    + eapply Permutation.Permutation_in; eauto.
Qed.

Lemma _add_collection_prefers_other_witness :
  exists n',
    snd (_add_collection [(1, "Papers"); (1, "To Read"); (1, "Alpha")]
           (set_t blank [(1, new_item "AAAA")])) = Ok tt /\
    dget 1 (_t (fst (_add_collection [(1, "Papers"); (1, "To Read"); (1, "Alpha")]
                       (set_t blank [(1, new_item "AAAA")]))))
    = Some (dset "collection" (VStr n') (new_item "AAAA")) /\
    In (1, n') [(1, "Papers"); (1, "To Read"); (1, "Alpha")] /\
    (n' = "To Read" ->
     forall m, In (1, m) [(1, "Papers"); (1, "To Read"); (1, "Alpha")] ->
               m = "To Read").
Proof.
  apply (_add_collection_prefers_other
           [(1, "Papers"); (1, "To Read"); (1, "Alpha")]
           (set_t blank [(1, new_item "AAAA")]) 1 (new_item "AAAA") "To Read").
  - reflexivity.
  - right. left. reflexivity.
Defined.

Example add_collection_library :
  map (fun ie => dget "collection" (snd ie))
      (_t (fst (_add_collection [(1, "Papers"); (1, "To Read"); (1, "Alpha"); (2, "To Read")]
                  (set_t blank [(1, new_item "AAAA"); (2, new_item "BBBB");
                                (3, new_item "CCCC")]))))
  = [Some (VStr "Papers"); Some (VStr "To Read"); Some VNone].
Proof. vm_compute. reflexivity. Qed.

(** ** The citation key of every entry *)

Lemma smem_cons c a s :
  Py.smem c (String a s) = (c =? a)%char || Py.smem c s.
Proof. reflexivity. Qed.

Lemma smem_app c s1 s2 :
  Py.smem c (s1 ++ s2) = Py.smem c s1 || Py.smem c s2.
Proof.
  induction s1 as [|a s1 IH]; simpl; auto. now rewrite IH, orb_assoc.
Qed.

Lemma prefix_cons p a s :
  prefix p (String a s) = true ->
  p = "" \/ exists p', p = String a p' /\ prefix p' s = true.
Proof.
  destruct p as [|b p']; simpl; auto.
  destruct (ascii_dec b a) as [->|]; [|discriminate]. eauto.
Qed.

Lemma sub_plain_from_cons pat repl a s skip :
  Py.sub_plain_from pat repl (String a s) skip
  = match skip with
    | S k => Py.sub_plain_from pat repl s k
    | O => if prefix pat (String a s)
           then repl ++ Py.sub_plain_from pat repl s (String.length pat - 1)
           else String a (Py.sub_plain_from pat repl s O)
    end.
Proof. reflexivity. Qed.

(** A character that is not in the pattern survives the substitution:
    only characters of an occurrence of the pattern are dropped. *)
Lemma sub_plain_from_keeps c pat repl :
  Py.smem c pat = false -> pat <> "" ->
  forall s skip p,
    prefix p s = true -> String.length p = skip -> Py.smem c p = false ->
    Py.smem c s = true ->
    Py.smem c (Py.sub_plain_from pat repl s skip) = true.
Proof.
  intros Np Ne. induction s as [|a s IH]; intros skip p Pp Lp Cp Cs;
    [discriminate|].
  simpl in Cs. rewrite sub_plain_from_cons.
  destruct skip as [|k].
  - destruct (prefix pat (String a s)) eqn:Q.
    + apply prefix_cons in Q as [->|(p' & -> & Q)]; [congruence|].
      simpl in Np. apply orb_false_iff in Np as [Na Np'].
      rewrite Na in Cs. simpl in Cs.
      rewrite smem_app. apply orb_true_iff. right.
      apply (IH _ p'); auto. simpl. lia.
    + simpl. destruct (c =? a)%char; simpl; auto.
      apply (IH _ ""); auto. now destruct s.
  - apply prefix_cons in Pp as [->|(p' & -> & Q)]; [discriminate|].
    simpl in Cp. apply orb_false_iff in Cp as [Na Cp'].
    rewrite Na in Cs. simpl in Cs. simpl in Lp.
    apply (IH _ p'); auto.
Qed.

Lemma sub_plain_keeps c pat repl s :
  Py.smem c pat = false -> pat <> "" -> Py.smem c s = true ->
  Py.smem c (Py.sub_plain pat repl s) = true.
Proof.
  intros Np Ne Cs. apply (sub_plain_from_keeps c pat repl Np Ne s O ""); auto.
  now destruct s.
Qed.

(** [re.sub(' ', '', key)] leaves no space. *)
Lemma sub_plain_space s : Py.smem " " (Py.sub_plain " " "" s) = false.
Proof.
  unfold Py.sub_plain. induction s as [|a s IH]; [reflexivity|].
  rewrite sub_plain_from_cons.
  change (String.length " " - 1)%nat with O.
  destruct (prefix " " (String a s)) eqn:Q.
  - exact IH.
  - rewrite smem_cons, IH.
    destruct (Ascii.eqb_spec " " a) as [<-|N]; [|reflexivity].
    simpl in Q. destruct s; discriminate Q.
Qed.

(** Under the default template the key keeps the underscore of the
    template and has no space. *)
Lemma fill_template_default lastname year titlew :
  Py.smem "_" (fill_template "{Author}_{Year}" lastname year titlew) = true /\
  Py.smem " " (fill_template "{Author}_{Year}" lastname year titlew) = false.
Proof.
  unfold fill_template. split; [|apply sub_plain_space].
  repeat (apply sub_plain_keeps; [reflexivity|discriminate|]).
  reflexivity.
Qed.

Lemma ensures_bind {S A B} (Q : S -> Prop) (c : M S A) (k : A -> M S B) :
  (forall a, ensures Q (k a)) -> ensures Q (bind c k).
Proof.
  intros Hk s b. unfold bind.
  destruct (c s) as [s' [a|e]]; simpl; [apply Hk|discriminate].
Qed.

(** When the body of the loop of [_calculate_citekeys] completes, the key
    of the entry is the filled template. *)
Lemma calculate_citekey_sets cite w :
  ensures (fun e => exists lastname year titlew,
             dget "citekey" e
             = Some (VStr (fill_template cite lastname year titlew)))
          (calculate_citekey cite w).
Proof.
  unfold calculate_citekey.
  repeat (apply ensures_bind; intro).
  intros e u _. unfold setitem, modify. simpl.
  rewrite dget_dset_same. eauto.
Qed.

Lemma calculate_citekey_default w e :
  snd (calculate_citekey "{Author}_{Year}" w e) = Ok tt ->
  well_keyed (fst (calculate_citekey "{Author}_{Year}" w e)).
Proof.
  intro R. destruct (calculate_citekey_sets _ w e tt R) as (l & y & t & G).
  exists (fill_template "{Author}_{Year}" l y t).
  destruct (fill_template_default l y t) as [U Sp].
  repeat split; auto.
  intro E. rewrite E in U. discriminate U.
Qed.

Lemma at_key_ok {K V A} `{EqKey K} (k : K) (c : M V A) (d : dict K V) a :
  snd (at_key k c d) = Ok a ->
  exists v, dget k d = Some v /\ snd (c v) = Ok a /\
            fst (at_key k c d) = dset k (fst (c v)) d.
Proof.
  unfold at_key. destruct (dget k d) as [v|]; [|discriminate].
  intro R. exists v. destruct (c v) as [v' r]; simpl in *. auto.
Qed.

Lemma on_t_ok {A} (c : M (dict Z entry) A) o a :
  snd (on_t c o) = Ok a ->
  snd (c (_t o)) = Ok a /\ _t (fst (on_t c o)) = fst (c (_t o)).
Proof. unfold on_t. destruct (c (_t o)); simpl; auto. Qed.

(** The loop of [_calculate_citekeys] over a list of keys: the entries at
    these keys get a well-formed key, the others stay. *)
Lemma calculate_citekeys_loop w ks : forall o,
  snd (for_each ks (fun k =>
         on_t (at_key k (calculate_citekey "{Author}_{Year}" w))) o) = Ok tt ->
  forall k e,
    dget k (_t (fst (for_each ks (fun k =>
         on_t (at_key k (calculate_citekey "{Author}_{Year}" w))) o))) = Some e ->
    (In k ks -> well_keyed e) /\ (~ In k ks -> dget k (_t o) = Some e).
Proof.
  induction ks as [|k0 ks IH]; intros o R k e G; simpl in *.
  - split; [tauto|auto].
  - destruct (bind_ok _ _ _ _ R) as ([] & R0 & E). rewrite E in *.
    destruct (on_t_ok _ _ _ R0) as [R1 T1].
    destruct (at_key_ok _ _ _ _ R1) as (e0 & G0 & R2 & T2).
    destruct (IH _ R k e G) as [Hin Hout].
    rewrite T1, T2 in Hout.
    split.
    + intros [<-|I]; auto.
      destruct (in_dec Z.eq_dec k0 ks) as [I|NI]; auto.
      specialize (Hout NI). rewrite dget_dset_same in Hout.
      injection Hout as <-. now apply calculate_citekey_default.
    + intro NI.
      assert (N0 : k0 <> k) by tauto. assert (NI' : ~ In k ks) by tauto.
      specialize (Hout NI'). now rewrite dget_dset_other in Hout.
Qed.

Lemma _calculate_citekeys_keyed o :
  _cite o = "{Author}_{Year}" ->
  snd (_calculate_citekeys o) = Ok tt ->
  items_keyed (fst (_calculate_citekeys o)).
Proof.
  intros C R k e G. unfold _calculate_citekeys, bind, get in *.
  cbv beta iota in *. rewrite C in *.
  destruct (calculate_citekeys_loop (_w o) (dkeys (_t o)) o R k e G)
    as [Hin Hout].
  destruct (in_dec Z.eq_dec k (dkeys (_t o))) as [I|NI]; auto.
  specialize (Hout NI). exfalso. apply NI.
  apply dmem_In_keys. unfold dmem. now rewrite Hout.
Qed.

Lemma well_keyed_alastnm e v :
  well_keyed e -> well_keyed (dset "alastnm" v e).
Proof.
  intros (key & G & N & Sp). exists key. repeat split; auto.
  rewrite dget_dset_other; auto. discriminate.
Qed.

(** The body of the loop of [_separate_by_collection] stores entries of
    the working dictionary, with their keys. *)
Lemma separate_item_keyed (deleted : list Z) (k : Z) o :
  items_keyed o /\ index_keyed o ->
  items_keyed (fst (separate_item deleted k o)) /\
  index_keyed (fst (separate_item deleted k o)).
Proof.
  unfold separate_item.
  intros J.
  assert (Read : forall (f : string) s, items_keyed s /\ index_keyed s ->
            items_keyed (fst (on_t (at_key k (getitem f)) s)) /\
            index_keyed (fst (on_t (at_key k (getitem f)) s))).
  { intros f s [Jt Je]. unfold on_t, at_key, getitem.
    destruct (dget k (_t s)) as [e|] eqn:G; simpl; [|auto].
    assert (E : dset k (fst (match dget f e with
                              | Some v => (e, Ok v)
                              | None => (e, Raise (KeyError (KStr f)))
                              end)) (_t s) = _t s).
    { destruct (dget f e); simpl; now apply dset_dget. }
    destruct (dget f e); simpl in *; rewrite E; destruct s; auto. }
  apply (bind_inv (fun s => items_keyed s /\ index_keyed s)).
  { destruct (existsb (Z.eqb k) deleted); [exact J|].
    apply bind_inv; [now apply Read|auto]. }
  intros [|] s1 J1; [exact J1|].
  apply (bind_inv (fun s => items_keyed s /\ index_keyed s)).
  { destruct J1 as [Jt Je]. unfold on_t, at_key.
    destruct (dget k (_t s1)) as [e|] eqn:G; simpl; [|auto].
    match goal with |- context [fst (let (v, r) := let (v', r') := ?c e in _ in _)] =>
      destruct (c e) as [e' r] eqn:Ce end.
    simpl. split; [|exact Je].
    intros k' e'' G'. simpl in G'.
    destruct (Z.eq_dec k k') as [<-|N].
    - rewrite dget_dset_same in G'. injection G' as <-.
      specialize (Jt _ _ G).
      revert Ce. unfold bind, getitem, lift, setitem, modify.
      destruct (dget "alastnm" e) as [a|]; [|intros [= <- _]; exact Jt].
      destruct (as_str a) as [x|]; intros [= <- _]; auto.
      now apply well_keyed_alastnm.
    - rewrite dget_dset_other in G' by exact N. eauto. }
  intros _ s2 J2.
  apply (bind_inv (fun s => items_keyed s /\ index_keyed s));
    [now apply Read|].
  intros c s3 J3.
  apply (bind_inv (fun s => items_keyed s /\ index_keyed s)); [exact J3|].
  intros ck s4 J4.
  apply (bind_inv (fun s => items_keyed s /\ index_keyed s)); [exact J4|].
  intros o' s4' J4'.
  apply (bind_inv (fun s => items_keyed s /\ index_keyed s)).
  { destruct (dmem ck (_e o')); [exact J4'|].
    destruct J4' as [Jt Je]. split; [exact Jt|].
    unfold index_keyed, on_e, setitem, modify. simpl.
    apply (Forall_dset (fun es => Forall (fun ie => well_keyed (snd ie)) es));
      auto. }
  intros _ s5 [Jt Je]. unfold bind, on_t, getitem.
  destruct (dget k (_t s5)) as [e|] eqn:G; simpl; [|destruct s5; auto].
  assert (S5 : set_t s5 (_t s5) = s5) by now destruct s5.
  rewrite S5. unfold on_e, at_key.
  destruct (dget ck (_e s5)) as [es|] eqn:Ge; simpl; [|auto].
  split; [exact Jt|].
  unfold index_keyed. simpl.
  apply (Forall_dset (fun es => Forall (fun ie => well_keyed (snd ie)) es));
    auto.
  apply Forall_dset; [|eauto].
  unfold index_keyed in Je. rewrite Forall_forall in Je.
  apply (Je (ck, es)). now apply dget_In.
Qed.

Lemma _separate_by_collection_keyed deleted o :
  items_keyed o -> index_keyed (fst (_separate_by_collection deleted o)).
Proof.
  intro Jt. unfold _separate_by_collection.
  apply (bind_inv (fun s => items_keyed s /\ index_keyed s)).
  - split; [exact Jt|constructor].
  - intros _ s1 J1.
    apply (bind_inv (fun s => items_keyed s /\ index_keyed s)); [exact J1|].
    intros o' s2 J2.
    apply (for_each_inv (fun s => items_keyed s /\ index_keyed s)); [|exact J2].
    intros k s Js. exact (separate_item_keyed deleted k s Js).
Qed.

(** C7: under the default template, after a load that completes, the
    citation key of every entry of every collection is a string that is
    not empty and has no space, whatever fields the item has. *)
Theorem citekeys_well_formed (w : world) (o : ZoteroEntries) :
  _cite o = "{Author}_{Year}" ->
  snd (_load_zotero_data w o) = Ok tt ->
  forall c es id e,
    In (c, es) (_e (fst (_load_zotero_data w o))) -> In (id, e) es ->
    exists key, dget "citekey" e = Some (VStr key) /\
                key <> "" /\ Py.smem " " key = false.
Proof.
  intros C R. unfold _load_zotero_data in *.
  destruct (bind_ok _ _ _ _ R) as ([] & _ & E0). rewrite E0 in *. clear E0.
  set (s0 := fst (modify (fun o => set_m o (mtime w)) o)) in *.
  destruct (bind_ok _ _ _ _ R) as ([] & _ & E1). rewrite E1 in *. clear E1.
  set (s1 := fst (load_items (db w) s0)) in *.
  destruct (bind_ok _ _ _ _ R) as ([] & _ & E2). rewrite E2 in *. clear E2.
  set (s2 := fst (_add_attachments (attachment_rows (db w)) s1)) in *.
  destruct (bind_ok _ _ _ _ R) as ([] & R3 & E3). rewrite E3 in *. clear E3.
  assert (C2 : _cite s2 = "{Author}_{Year}").
  { unfold s2. rewrite frame_add_attachments by reflexivity.
    unfold s1. rewrite frame_load_items by reflexivity. exact C. }
  pose proof (_separate_by_collection_keyed (deleted_rows (db w)) _
                (_calculate_citekeys_keyed s2 C2 R3)) as K.
  intros c es id e Ic Ie.
  unfold index_keyed in K. rewrite Forall_forall in K.
  specialize (K _ Ic). simpl in K. rewrite Forall_forall in K.
  exact (K _ Ie).
Qed.

Lemma citekeys_well_formed_witness :
  exists key, dget "citekey" library_article = Some (VStr key) /\
              key <> "" /\ Py.smem " " key = false.
Proof.
  apply (citekeys_well_formed {| mtime := 10; db := library |} blank
           eq_refl) with (c := Some "Papers") (es := library_papers) (id := "1").
  - vm_compute. reflexivity.
  - vm_compute. left. reflexivity.
  - vm_compute. left. reflexivity.
Defined.

Example library_citekeys :
  map (fun ces => map (fun ie => dget "citekey" (snd ie)) (snd ces)) (_e loaded)
  = [[Some (VStr "Smith_2020")]; [Some (VStr "No_Author_")]].
Proof. vm_compute. reflexivity. Qed.

(** ** Computations on related objects *)

Section SameRun.
Context (R : ZoteroEntries -> ZoteroEntries -> Prop).

Lemma same_run_ret {A} (x : A) : same_run R (ret x) (ret x).
Proof. intros a b H. split; [exact H|reflexivity]. Qed.

Lemma same_run_lift {A} (r : result A) : same_run R (lift r) (lift r).
Proof. intros a b H. split; [exact H|reflexivity]. Qed.

Lemma same_run_bind {A B} (c1 c2 : M ZoteroEntries A)
    (k1 k2 : A -> M ZoteroEntries B) :
  same_run R c1 c2 -> (forall x, same_run R (k1 x) (k2 x)) ->
  same_run R (bind c1 k1) (bind c2 k2).
Proof.
  intros Hc Hk a b H. unfold bind. destruct (Hc a b H) as [H' E].
  destruct (c1 a) as [a' [x|e]], (c2 b) as [b' [y|e']]; simpl in *;
    try discriminate.
  - injection E as <-. now apply Hk.
  - injection E as <-. auto.
Qed.

Lemma same_run_get {B} (k1 k2 : ZoteroEntries -> M ZoteroEntries B) :
  (forall a b, R a b ->
     R (fst (k1 a a)) (fst (k2 b b)) /\ snd (k1 a a) = snd (k2 b b)) ->
  same_run R (bind get k1) (bind get k2).
Proof. intros Hk a b H. unfold bind, get. now apply Hk. Qed.

Lemma same_run_for_each {A} (l : list A) (body1 body2 : A -> M ZoteroEntries unit) :
  (forall x, same_run R (body1 x) (body2 x)) ->
  same_run R (for_each l body1) (for_each l body2).
Proof.
  intro Hb. induction l as [|x r IH]; simpl.
  - apply same_run_ret.
  - apply same_run_bind; auto.
Qed.
End SameRun.

Section Agree.
Context (E : dict (option string) (dict string entry) ->
             dict (option string) (dict string entry) -> Prop)
        (D : dict string (list (option string)) ->
             dict string (list (option string)) -> Prop).

Lemma same_run_on_t {A} (c : M (dict Z entry) A) :
  same_run (agree E D) (on_t c) (on_t c).
Proof.
  intros a b (C & W & T & Mt & He & Hd). unfold on_t. rewrite T.
  destruct (c (_t b)) as [t' r]; simpl. repeat split; auto.
Qed.

Lemma same_run_when_item i (c : M entry unit) :
  same_run (agree E D) (when_item i c) (when_item i c).
Proof.
  unfold when_item. apply same_run_get. intros a b H.
  assert (T : _t a = _t b) by apply H. rewrite T.
  destruct (dmem i (_t b)); [now apply same_run_on_t|now apply same_run_ret].
Qed.

Lemma same_run_add_field row :
  same_run (agree E D) (add_field row) (add_field row).
Proof.
  destruct row as [[[i k] f] v]. unfold add_field.
  apply same_run_get. intros a b H.
  assert (T : _t a = _t b) by apply H. rewrite T.
  apply same_run_bind; [|intros _; apply same_run_on_t|exact H].
  destruct (dmem i (_t b)); [apply same_run_ret|apply same_run_on_t].
Qed.

(** The passes up to the citation keys read and assign the working
    dictionary and read the settings. *)
Lemma same_run_load_items b :
  same_run (agree E D) (load_items b) (load_items b).
Proof.
  unfold load_items.
  apply same_run_bind; [|intros _].
  { unfold _add_most_fields.
    apply same_run_bind; [apply same_run_on_t|intros _].
    apply same_run_for_each. intro. apply same_run_add_field. }
  apply same_run_bind;
    [apply same_run_for_each; intros [i c]; apply same_run_when_item|intros _].
  apply same_run_bind;
    [apply same_run_for_each; intros [[[i c] l] f]; apply same_run_when_item
    |intros _].
  apply same_run_bind;
    [apply same_run_for_each; intros [i c]; apply same_run_when_item|intros _].
  apply same_run_bind;
    [apply same_run_for_each; intros [i c]; apply same_run_when_item|intros _].
  apply same_run_for_each; intros [i c]; apply same_run_when_item.
Qed.

Lemma same_run_add_attachments rows :
  same_run (agree E D) (_add_attachments rows) (_add_attachments rows).
Proof.
  apply same_run_for_each; intros [[k [i|]] [p|]];
    [apply same_run_on_t| | |];
    intros x y H; (split; [exact H|reflexivity]).
Qed.

Lemma same_run_calculate_citekeys :
  same_run (agree E D) _calculate_citekeys _calculate_citekeys.
Proof.
  unfold _calculate_citekeys. apply same_run_get. intros x y H.
  destruct H as (C & W & T & H). rewrite C, W, T.
  apply same_run_for_each; [intro; apply same_run_on_t|].
  repeat split; auto; apply H.
Qed.
End Agree.

Section AgreeEq.
Context (D : dict string (list (option string)) ->
             dict string (list (option string)) -> Prop).

Lemma same_run_on_e {A} (c : M (dict (option string) (dict string entry)) A) :
  same_run (agree eq D) (on_e c) (on_e c).
Proof.
  intros a b (C & W & T & Mt & He & Hd). unfold on_e. rewrite He.
  destruct (c (_e b)) as [e' r]; simpl. repeat split; auto.
Qed.

(** The loop of [_separate_by_collection], after [self._e = {}]. *)
Lemma same_run_separate_loop deleted :
  same_run (agree eq D)
    (o <- get ;; for_each (dkeys (_t o)) (separate_item deleted))
    (o <- get ;; for_each (dkeys (_t o)) (separate_item deleted)).
Proof.
  apply same_run_get. intros a b H.
  assert (T : _t a = _t b) by apply H. rewrite T.
  apply same_run_for_each; [|exact H]. intro k. unfold separate_item.
  apply same_run_bind.
  { destruct (existsb (Z.eqb k) deleted); [apply same_run_ret|].
    apply same_run_bind; [apply same_run_on_t|intro; apply same_run_ret]. }
  intros [|]; [apply same_run_ret|].
  apply same_run_bind; [apply same_run_on_t|intros _].
  apply same_run_bind; [apply same_run_on_t|intros c].
  apply same_run_bind; [apply same_run_lift|intros ck].
  apply same_run_get. intros x y Hxy.
  assert (Ee : _e x = _e y) by apply Hxy. rewrite Ee.
  apply same_run_bind; [| |exact Hxy].
  { destruct (dmem ck (_e y)); [apply same_run_ret|apply same_run_on_e]. }
  intros _. apply same_run_bind; [apply same_run_on_t|intros e].
  apply same_run_on_e.
Qed.
End AgreeEq.

(** [_separate_by_collection] builds [self._e] from the working dictionary
    alone. *)
Lemma _separate_by_collection_same E D deleted a b :
  agree E D a b ->
  agree eq D (fst (_separate_by_collection deleted a))
             (fst (_separate_by_collection deleted b)) /\
  snd (_separate_by_collection deleted a)
  = snd (_separate_by_collection deleted b).
Proof.
  intros (C & W & T & Mt & He & Hd).
  unfold _separate_by_collection.
  rewrite !(bind_run _ _ _ tt) by reflexivity.
  apply same_run_separate_loop. repeat split; auto.
Qed.

(** ** Reloading *)

(** A load depends on the file and on the settings only: from two objects
    with the same settings it gives the same result, the same working
    dictionary and, when it completes, the same [self._e]. What it leaves
    related are [self._d], which it does not assign, and [self._e] when it
    stops before assigning it. *)
Lemma _load_zotero_data_same E D w a b :
  (forall x, E x x) ->
  _cite a = _cite b -> _w a = _w b -> E (_e a) (_e b) -> D (_d a) (_d b) ->
  agree E D (fst (_load_zotero_data w a)) (fst (_load_zotero_data w b)) /\
  snd (_load_zotero_data w a) = snd (_load_zotero_data w b) /\
  (snd (_load_zotero_data w a) = Ok tt ->
   _e (fst (_load_zotero_data w a)) = _e (fst (_load_zotero_data w b))).
Proof.
  intros Er C W He Hd.
  set (T := load_items (db w) ;;
            _add_attachments (attachment_rows (db w)) ;;
            _calculate_citekeys ;;
            _separate_by_collection (deleted_rows (db w))).
  assert (U : forall o, _load_zotero_data w o
                        = T (set_t (set_m o (mtime w)) [])) by reflexivity.
  rewrite !U.
  set (a1 := set_t (set_m a (mtime w)) []).
  set (b1 := set_t (set_m b (mtime w)) []).
  assert (H1 : agree E D a1 b1) by (repeat split; auto).
  clearbody a1 b1. unfold T. clear T U.
  destruct (same_run_load_items E D (db w) a1 b1 H1) as [H2 R2].
  destruct (snd (load_items (db w) a1)) as [[]|e] eqn:RA; symmetry in R2;
    [|rewrite (bind_fail _ _ _ _ RA), (bind_fail _ _ _ _ R2);
      split; [exact H2|split; [reflexivity|discriminate]]].
  rewrite (bind_run _ _ _ tt RA), (bind_run _ _ _ tt R2).
  set (a2 := fst (load_items (db w) a1)) in *.
  set (b2 := fst (load_items (db w) b1)) in *.
  clearbody a2 b2. clear RA R2.
  destruct (same_run_add_attachments E D (attachment_rows (db w)) a2 b2 H2)
    as [H3 R3].
  destruct (snd (_add_attachments (attachment_rows (db w)) a2)) as [[]|e] eqn:RA;
    symmetry in R3;
    [|rewrite (bind_fail _ _ _ _ RA), (bind_fail _ _ _ _ R3);
      split; [exact H3|split; [reflexivity|discriminate]]].
  rewrite (bind_run _ _ _ tt RA), (bind_run _ _ _ tt R3).
  set (a3 := fst (_add_attachments (attachment_rows (db w)) a2)) in *.
  set (b3 := fst (_add_attachments (attachment_rows (db w)) b2)) in *.
  clearbody a3 b3. clear RA R3.
  destruct (same_run_calculate_citekeys E D a3 b3 H3) as [H4 R4].
  destruct (snd (_calculate_citekeys a3)) as [[]|e] eqn:RA; symmetry in R4;
    [|rewrite (bind_fail _ _ _ _ RA), (bind_fail _ _ _ _ R4);
      split; [exact H4|split; [reflexivity|discriminate]]].
  rewrite (bind_run _ _ _ tt RA), (bind_run _ _ _ tt R4).
  destruct (_separate_by_collection_same E D (deleted_rows (db w)) _ _ H4)
    as [H5 R5].
  split; [|split; [exact R5|intros _; apply H5]].
  destruct H5 as (C5 & W5 & T5 & M5 & E5 & D5).
  repeat split; auto. rewrite E5. apply Er.
Qed.

Lemma _load_zotero_data_m w o : _m (fst (_load_zotero_data w o)) = mtime w.
Proof.
  unfold _load_zotero_data.
  rewrite (bind_run _ _ _ tt) by reflexivity.
  set (T := load_items (db w) ;; _).
  assert (F : frame _m T).
  { unfold T.
    apply frame_bind; [now apply frame_load_items|intros _].
    apply frame_bind; [now apply frame_add_attachments|intros _].
    apply frame_bind; [now apply frame_calculate_citekeys|intros _].
    now apply frame_separate_by_collection. }
  now rewrite F.
Qed.

(** C4, as the specification has it, fails for the export: with the file
    modified since the load, [GetYamlRefs] does not give what it would give
    after a reload. Here the file has got a title and a date for the item
    BBBB, which the export does not show. *)
Lemma reload_on_export_counterexample :
  ~ (forall (w : world) (o : ZoteroEntries),
       mtime w > _m o ->
       (forall ptrn d,
          GetMatch w ptrn d o = (_load_zotero_data w ;; find_matches ptrn d) o) /\
       (forall keys,
          GetYamlRefs keys o = (_load_zotero_data w ;; GetYamlRefs keys) o)).
Proof.
  intro C.
  assert (A : mtime later_world > _m loaded) by (vm_compute; reflexivity).
  destruct (C later_world loaded A) as [_ X].
  specialize (X ["BBBB#No_Author_"]).
  apply (f_equal snd) in X. vm_compute in X. discriminate X.
Qed.

(** C4, amended: [GetMatch] reloads at its start exactly when the
    modification time of the file is greater than the time of the last
    load; the reload records the new time and, when it completes, leaves in
    [self._e] what a new object with the same settings has after its first
    load, whatever was there before; without a reload the search leaves the
    object as it is. [GetYamlRefs] never reloads: it leaves the time of the
    last load and the documents as they are. *)
Theorem reload_on_search_only
    (w : world) (o : ZoteroEntries) (ptrn d : string) (keys : list string) :
  (mtime w > _m o ->
     GetMatch w ptrn d o = (_load_zotero_data w ;; find_matches ptrn d) o /\
     _m (fst (GetMatch w ptrn d o)) = mtime w /\
     (snd (_load_zotero_data w o) = Ok tt ->
      _e (fst (GetMatch w ptrn d o))
      = _e (fst (__init__ (Some (_cite o)) (Some (_w o)) w)))) /\
  (mtime w <= _m o ->
     GetMatch w ptrn d o = find_matches ptrn d o /\
     fst (GetMatch w ptrn d o) = o) /\
  _m (fst (GetYamlRefs keys o)) = _m o /\
  _d (fst (GetYamlRefs keys o)) = _d o.
Proof.
  rewrite GetMatch_run. split; [|split].
  - intro G. apply Z.gt_lt, Z.gtb_lt in G. rewrite G.
    split; [reflexivity|].
    assert (F : forall s, fst ((_load_zotero_data w ;; find_matches ptrn d) s)
                          = fst (_load_zotero_data w s)).
    { intro s. unfold bind.
      destruct (_load_zotero_data w s) as [s' [[]|e]]; simpl; auto.
      apply find_matches_state. }
    rewrite F. split; [apply _load_zotero_data_m|].
    intro L.
    destruct (_load_zotero_data_same (fun _ _ => True) (fun _ _ => True) w o
                {| _cite := _cite o; _w := _w o; _e := []; _t := [];
                   _m := 0; _d := [] |}) as (_ & R & Ee); auto.
    rewrite (Ee L). unfold __init__.
    rewrite L in R. symmetry in R.
    rewrite (bind_run _ _ _ tt) by exact R. reflexivity.
  - intro G.
    assert (F : (mtime w >? _m o) = false)
      by (rewrite Z.gtb_ltb; apply Z.ltb_ge; exact G).
    rewrite F. rewrite (bind_run _ _ _ tt) by reflexivity.
    split; [reflexivity|]. apply find_matches_state.
  - repeat split; apply frame_GetYamlRefs; reflexivity.
Qed.

Lemma reload_on_search_only_witness :
  (GetMatch later_world "smi" "paper.md" bound
   = (_load_zotero_data later_world ;; find_matches "smi" "paper.md") bound /\
   _m (fst (GetMatch later_world "smi" "paper.md" bound)) = mtime later_world /\
   _e (fst (GetMatch later_world "smi" "paper.md" bound))
   = _e (fst (__init__ (Some (_cite bound)) (Some (_w bound)) later_world))) /\
  (GetMatch {| mtime := 10; db := later_library |} "smi" "paper.md" bound
   = find_matches "smi" "paper.md" bound /\
   fst (GetMatch {| mtime := 10; db := later_library |} "smi" "paper.md" bound)
   = bound).
Proof.
  split.
  - destruct (reload_on_search_only later_world bound "smi" "paper.md" [])
      as (H & _ & _).
    assert (G : mtime later_world > _m bound) by (vm_compute; reflexivity).
    destruct (H G) as (A & B & C).
    split; [exact A|split; [exact B|]].
    apply C. vm_compute. reflexivity.
  - destruct (reload_on_search_only {| mtime := 10; db := later_library |}
                bound "smi" "paper.md" []) as (_ & H & _).
    apply H. vm_compute. discriminate.
Defined.

(** ** Export and search *)

Section DictDel.
Context {K V : Type} `{EqKey K}.



End DictDel.



















Lemma for_acc_inv {S A B} (I : S -> Prop) (l : list A)
    (body : A -> B -> M S B) :
  (forall x b s, I s -> I (fst (body x b s))) ->
  forall b s, I s -> I (fst (for_acc l body b s)).
Proof.
  intro Hb. induction l as [|x r IH]; intros b s Is; simpl; auto.
  apply bind_inv; auto.
Qed.





Example export_rewrites_stored_entry :
  match dget (Some "Papers") (_e (fst (GetYamlRefs ["AAAA#Smith_2020"] bound))) with
  | Some es =>
      match dget "1" es with
      | Some e => (dget "etype" e, dget "date" e, dget "issued" e)
      | None => (None, None, None)
      end
  | None => (None, None, None)
  end
  = (Some (VStr "article-journal"), None, Some (VStr "2020-05-00 May 2020")).
Proof. vm_compute. reflexivity. Qed.

(** * Further properties of the class *)

(** ** [SetCollections] on known names *)

Lemma bind_each_known d clist : forall o l,
  dget d (_d o) = Some l ->
  Forall (fun x => dmem (Some x) (_e o) = true) clist ->
  bind_each d clist o
  = (set_d o (dset d (l ++ map Some clist)%list (_d o)), Ok "").
Proof.
  induction clist as [|x r IH]; intros o l G F; simpl.
  - unfold ret. rewrite app_nil_r, dset_dget by exact G. now destruct o.
  - inversion F as [|? ? Fx Fr]; subst.
    unfold bind at 1, get at 1. rewrite Fx.
    unfold bind at 1. rewrite (append_binding_run _ _ _ l G).
    rewrite (IH _ (l ++ [Some x])%list); simpl; auto.
    + now rewrite dset_dset, <- app_assoc.
    + apply dget_dset_same.
Qed.

Lemma SetCollections_names o d clist :
  clist <> [""] ->
  Forall (fun x => dmem (Some x) (_e o) = true) clist ->
  SetCollections d clist o
  = (set_d o (dset d (map Some clist) (_d o)), Ok "").
Proof.
  intros N F. unfold SetCollections.
  rewrite (bind_run _ _ _ tt) by reflexivity.
  destruct (list_eq_dec string_dec clist [""]) as [E|_]; [contradiction|].
  rewrite (bind_run _ _ _ tt) by reflexivity.
  rewrite (bind_each_known d clist _ []); simpl; auto.
  - now rewrite !dset_dset.
  - apply dget_dset_same.
Qed.

(** X1: with a list of names that are all collections (the empty list is
    one), [SetCollections] returns the empty string and binds the document
    to these names in the order given, whatever it was bound to before;
    nothing else of the object changes. *)
Theorem SetCollections_known (o : ZoteroEntries) (d : string) (clist : list string) :
  clist <> [""] ->
  Forall (fun x => dmem (Some x) (_e o) = true) clist ->
  SetCollections d clist o
  = (set_d o (dset d (map Some clist) (_d o)), Ok "").
Proof. intros N F. now apply SetCollections_names. Qed.

Lemma SetCollections_known_witness :
  SetCollections "notes.md" ["Papers"] bound
  = (set_d bound (dset "notes.md" (map Some ["Papers"]) (_d bound)), Ok "").
Proof.
  apply (SetCollections_known bound "notes.md" ["Papers"]).
  - discriminate.
  - constructor; [vm_compute; reflexivity|constructor].
Defined.

Lemma append_all d ks : forall o l,
  dget d (_d o) = Some l ->
  for_each ks (append_binding d) o
  = (set_d o (dset d (l ++ ks)%list (_d o)), Ok tt).
Proof.
  induction ks as [|k r IH]; intros o l G; simpl.
  - unfold ret. rewrite app_nil_r, dset_dget by exact G. now destruct o.
  - unfold bind. rewrite (append_binding_run _ _ _ l G).
    rewrite (IH _ (l ++ [k])%list); simpl.
    + now rewrite dset_dset, <- app_assoc.
    + apply dget_dset_same.
Qed.

Lemma SetCollections_every o d :
  SetCollections d [""] o
  = (set_d o (dset d (dkeys (_e o)) (_d o)), Ok "").
Proof.
  unfold SetCollections.
  rewrite (bind_run _ _ _ tt) by reflexivity.
  destruct (list_eq_dec string_dec [""] [""]) as [_|N]; [|contradiction].
  unfold bind at 1, get at 1.
  unfold bind. rewrite (append_all d _ _ []); simpl.
  - now rewrite dset_dset.
  - apply dget_dset_same.
Qed.

(** X2: with the list of the empty name alone, [SetCollections] returns
    the empty string and binds the document to every key of [self._e], the
    key [None] of the unfiled items among them, in the order of the
    dictionary. *)
Theorem SetCollections_all (o : ZoteroEntries) (d : string) :
  SetCollections d [""] o
  = (set_d o (dset d (dkeys (_e o)) (_d o)), Ok "").
Proof. apply SetCollections_every. Qed.

(** X3: as long as no reload is due, a document bound with the list of the
    empty name and a document bound with the empty list get the same
    answer from a search: both search every collection. *)
Theorem search_all_collections
    (w : world) (o : ZoteroEntries) (ptrn d : string) :
  mtime w <= _m o ->
  snd (GetMatch w ptrn d (fst (SetCollections d [""] o)))
  = snd (GetMatch w ptrn d (fst (SetCollections d [] o))).
Proof.
  intro G.
  rewrite SetCollections_every.
  rewrite (SetCollections_names o d []) by (try discriminate; constructor).
  rewrite !GetMatch_run. cbn [fst _m set_d].
  assert (F : (mtime w >? _m o) = false)
    by (rewrite Z.gtb_ltb; apply Z.ltb_ge; exact G).
  rewrite F. rewrite !(bind_run _ _ _ tt) by reflexivity.
  unfold find_matches, bind, on_d, getitem, get, lift, ret. cbn [fst snd _d _e set_d].
  rewrite !dget_dset_same. cbn [fst snd _d _e set_d map].
  destruct (dkeys (_e o)) eqn:K; cbn [fst snd _d _e set_d]; rewrite ?K;
    [reflexivity|].
  now destruct (match_collections ptrn (_e o) _ no_levels).
Qed.

Lemma search_all_collections_witness :
  snd (GetMatch {| mtime := 10; db := library |} "" "paper.md"
         (fst (SetCollections "paper.md" [""] loaded)))
  = snd (GetMatch {| mtime := 10; db := library |} "" "paper.md"
           (fst (SetCollections "paper.md" [] loaded))).
Proof.
  apply (search_all_collections {| mtime := 10; db := library |} loaded "" "paper.md").
  vm_compute. discriminate.
Defined.

(** ** The order of the lines of a search *)

Lemma level_append n m line b :
  (1 <= n <= 6)%nat ->
  level n (append_level m line b)
  = (level n b ++ if Nat.eqb m n then [line] else [])%list.
Proof.
  intros [L U].
  destruct n as [|[|[|[|[|[|[|n]]]]]]]; try lia;
    destruct m as [|[|[|[|[|[|[|m]]]]]]]; simpl; now rewrite ?app_nil_r.
Qed.

Lemma match_entry_level ptrn e b b' n :
  (1 <= n <= 6)%nat ->
  match_entry ptrn e b = Ok b' ->
  level n b' = (level n b ++ lines_of_level ptrn n [e])%list.
Proof.
  intros N. unfold match_entry, lines_of_level. simpl.
  destruct (priority ptrn e) as [[m|]|x]; simpl; try discriminate.
  - destruct (_get_compl_line e) as [line|x]; simpl; [|discriminate].
    intros [= <-]. now rewrite level_append, app_nil_r.
  - intros [= <-]. now rewrite app_nil_r.
Qed.

Lemma lines_of_level_app ptrn n es es' :
  lines_of_level ptrn n (es ++ es')
  = (lines_of_level ptrn n es ++ lines_of_level ptrn n es')%list.
Proof. unfold lines_of_level. apply flat_map_app. Qed.

Lemma match_entries_level ptrn n es : forall b b',
  (1 <= n <= 6)%nat ->
  match_entries ptrn es b = Ok b' ->
  level n b' = (level n b ++ lines_of_level ptrn n (map snd es))%list.
Proof.
  induction es as [|[i e] es IH]; intros b b' N.
  - intros [= <-]. unfold lines_of_level. simpl. now rewrite app_nil_r.
  - change (map snd ((i, e) :: es)) with ([e] ++ map snd es)%list.
    cbn [match_entries].
    destruct (match_entry ptrn e b) as [b1|x] eqn:E1; [|discriminate].
    cbn [rbind]. intro R.
    rewrite (IH _ _ N R), (match_entry_level _ _ _ _ _ N E1).
    now rewrite lines_of_level_app, app_assoc.
Qed.

Lemma match_collections_level ptrn n ix cs : forall b b',
  (1 <= n <= 6)%nat ->
  match_collections ptrn ix cs b = Ok b' ->
  level n b' = (level n b ++ lines_of_level ptrn n (visited ix cs))%list.
Proof.
  induction cs as [|c cs IH]; intros b b' N.
  - intros [= <-]. unfold lines_of_level. simpl. now rewrite app_nil_r.
  - cbn [match_collections visited].
    destruct (dget c ix) as [es|]; [|discriminate].
    destruct (match_entries ptrn es b) as [b1|x] eqn:E1; [|discriminate].
    cbn [rbind]. intro R.
    rewrite (IH _ _ N R), (match_entries_level _ _ _ _ _ N E1).
    now rewrite lines_of_level_app, app_assoc.
Qed.

Lemma find_matches_levels ptrn d o lines :
  snd (find_matches ptrn d o) = Ok lines ->
  lines = (lines_of_level ptrn 1 (searched o d) ++
           lines_of_level ptrn 2 (searched o d) ++
           lines_of_level ptrn 3 (searched o d) ++
           lines_of_level ptrn 4 (searched o d) ++
           lines_of_level ptrn 5 (searched o d) ++
           lines_of_level ptrn 6 (searched o d))%list.
Proof.
  unfold find_matches, searched, bind, on_d, getitem, get, lift, ret.
  destruct (dget d (_d o)) as [cs|]; cbn [fst snd _e set_d]; [|discriminate].
  set (cs' := match cs with [] => dkeys (_e o) | _ :: _ => cs end).
  replace (match cs with [] => visited (_e o) (dkeys (_e o))
           | _ :: _ => visited (_e o) cs end)
    with (visited (_e o) cs') by now destruct cs.
  destruct (match_collections ptrn (_e o) cs' no_levels) as [b|x] eqn:E;
    cbn [fst snd]; [|discriminate].
  intros [= <-].
  pose proof (match_collections_level ptrn 1 _ _ _ _ ltac:(lia) E) as H1.
  pose proof (match_collections_level ptrn 2 _ _ _ _ ltac:(lia) E) as H2.
  pose proof (match_collections_level ptrn 3 _ _ _ _ ltac:(lia) E) as H3.
  pose proof (match_collections_level ptrn 4 _ _ _ _ ltac:(lia) E) as H4.
  pose proof (match_collections_level ptrn 5 _ _ _ _ ltac:(lia) E) as H5.
  pose proof (match_collections_level ptrn 6 _ _ _ _ ltac:(lia) E) as H6.
  cbn [level no_levels p1 p2 p3 p4 p5 p6 app] in H1, H2, H3, H4, H5, H6.
  now rewrite <- H1, <- H2, <- H3, <- H4, <- H5, <- H6.
Qed.

(** The object after a search is the object after the reload, if one was
    due. *)
Lemma GetMatch_ok w ptrn d o lines :
  snd (GetMatch w ptrn d o) = Ok lines ->
  snd (find_matches ptrn d (fst (GetMatch w ptrn d o))) = Ok lines.
Proof.
  rewrite GetMatch_run. intro R.
  destruct (bind_ok _ _ _ _ R) as ([] & _ & E). rewrite E in *.
  now rewrite find_matches_state.
Qed.

(** X4: the list that a search returns is made of six runs, one for each
    priority level from 1 to 6, and each run holds the completion lines of
    the entries of that level in the order in which the collections of the
    document and the entries of each collection are stored; an entry of no
    level gives no line. *)
Theorem GetMatch_levels
    (w : world) (o : ZoteroEntries) (ptrn d : string) (lines : list string) :
  snd (GetMatch w ptrn d o) = Ok lines ->
  lines = (lines_of_level ptrn 1 (searched (fst (GetMatch w ptrn d o)) d) ++
           lines_of_level ptrn 2 (searched (fst (GetMatch w ptrn d o)) d) ++
           lines_of_level ptrn 3 (searched (fst (GetMatch w ptrn d o)) d) ++
           lines_of_level ptrn 4 (searched (fst (GetMatch w ptrn d o)) d) ++
           lines_of_level ptrn 5 (searched (fst (GetMatch w ptrn d o)) d) ++
           lines_of_level ptrn 6 (searched (fst (GetMatch w ptrn d o)) d))%list.
Proof. intro R. apply find_matches_levels. now apply GetMatch_ok. Qed.

Lemma GetMatch_levels_witness :
  ["KEY1#abc2020" ++ String Py.tab ("Jones" ++ String Py.tab "(2020) Abc of logic");
   "KEY2#xabc2020" ++ String Py.tab ("Young" ++ String Py.tab "(2020) Xabc revisited")]
  = (lines_of_level "abc" 1
       (searched (fst (GetMatch ranking_world "abc" "paper.md" ranking_object)) "paper.md") ++
     lines_of_level "abc" 2
       (searched (fst (GetMatch ranking_world "abc" "paper.md" ranking_object)) "paper.md") ++
     lines_of_level "abc" 3
       (searched (fst (GetMatch ranking_world "abc" "paper.md" ranking_object)) "paper.md") ++
     lines_of_level "abc" 4
       (searched (fst (GetMatch ranking_world "abc" "paper.md" ranking_object)) "paper.md") ++
     lines_of_level "abc" 5
       (searched (fst (GetMatch ranking_world "abc" "paper.md" ranking_object)) "paper.md") ++
     lines_of_level "abc" 6
       (searched (fst (GetMatch ranking_world "abc" "paper.md" ranking_object)) "paper.md"))%list.
Proof.
  apply (GetMatch_levels ranking_world ranking_object "abc" "paper.md").
  vm_compute. reflexivity.
Defined.

(** ** The empty pattern *)

Lemma find_empty s : Py.find s "" = 0.
Proof. unfold Py.find. now destruct s. Qed.

Lemma priority_empty e :
  has_str "citekey" e -> priority "" e = Ok (Some 1%nat).
Proof.
  intros [s G]. unfold priority, find_in, field. rewrite G. simpl.
  now rewrite find_empty.
Qed.

Lemma match_entries_lines ptrn es : forall b b',
  match_entries ptrn es b = Ok b' ->
  Forall (fun e => forall m, priority ptrn e = Ok (Some m) ->
                   exists l, _get_compl_line e = Ok l) (map snd es).
Proof.
  induction es as [|[i e] es IH]; intros b b' R; [constructor|].
  cbn [match_entries] in R.
  destruct (match_entry ptrn e b) as [b1|x] eqn:E1; [|discriminate].
  cbn [rbind] in R. cbn [map snd]. constructor; [|eauto].
  intros m Pm. unfold match_entry in E1. rewrite Pm in E1. simpl in E1.
  destruct (_get_compl_line e) as [l|]; [eauto|discriminate].
Qed.

Lemma match_collections_lines ptrn ix cs : forall b b',
  match_collections ptrn ix cs b = Ok b' ->
  Forall (fun e => forall m, priority ptrn e = Ok (Some m) ->
                   exists l, _get_compl_line e = Ok l) (visited ix cs).
Proof.
  induction cs as [|c cs IH]; intros b b' R; [constructor|].
  cbn [match_collections visited] in *.
  destruct (dget c ix) as [es|]; [|discriminate].
  destruct (match_entries ptrn es b) as [b1|x] eqn:E1; [|discriminate].
  cbn [rbind] in R. apply Forall_app. split.
  - eapply match_entries_lines; eauto.
  - eauto.
Qed.

Lemma lines_of_all es :
  Forall (has_str "citekey") es ->
  Forall (fun e => forall m, priority "" e = Ok (Some m) ->
                   exists l, _get_compl_line e = Ok l) es ->
  Forall2 (fun e l => _get_compl_line e = Ok l) es (lines_of_level "" 1 es) /\
  forall n, n <> 1%nat -> lines_of_level "" n es = [].
Proof.
  induction 1 as [|e es C F IH]; intro L; [split; [constructor|reflexivity]|].
  inversion L as [|? ? Le Ls]; subst.
  destruct (IH Ls) as [IH1 IHn].
  pose proof (priority_empty e C) as P.
  destruct (Le _ P) as [l G].
  unfold lines_of_level in *. cbn [flat_map]. rewrite P, G. split.
  - simpl. constructor; auto.
  - intros n N. rewrite (IHn n N).
    destruct n as [|[|n]]; try reflexivity. contradiction.
Qed.

(** X5: the search for the empty pattern returns the completion line of
    every entry of the collections of the document, one line for each
    entry, in the order in which they are stored (the entries are taken to
    have a string as citation key, as a load leaves them). *)
Theorem GetMatch_empty_pattern
    (w : world) (o : ZoteroEntries) (d : string) (lines : list string) :
  snd (GetMatch w "" d o) = Ok lines ->
  Forall (has_str "citekey") (searched (fst (GetMatch w "" d o)) d) ->
  Forall2 (fun e l => _get_compl_line e = Ok l)
          (searched (fst (GetMatch w "" d o)) d) lines.
Proof.
  intros R C. apply GetMatch_ok in R.
  pose proof (find_matches_levels _ _ _ _ R) as L.
  set (o' := fst (GetMatch w "" d o)) in *.
  assert (S : Forall (fun e => forall m, priority "" e = Ok (Some m) ->
                      exists l, _get_compl_line e = Ok l) (searched o' d)).
  { revert R. unfold find_matches, searched, bind, on_d, getitem, get, lift, ret.
    destruct (dget d (_d o')) as [cs|]; cbn [fst snd _e set_d]; [|discriminate].
    set (cs' := match cs with [] => dkeys (_e o') | _ :: _ => cs end).
    replace (match cs with [] => visited (_e o') (dkeys (_e o'))
             | _ :: _ => visited (_e o') cs end)
      with (visited (_e o') cs') by now destruct cs.
    destruct (match_collections "" (_e o') cs' no_levels) as [b|x] eqn:E;
      cbn [fst snd]; [|discriminate].
    intros _. eapply match_collections_lines; eauto. }
  destruct (lines_of_all _ C S) as [A N].
  rewrite L, (N 2%nat), (N 3%nat), (N 4%nat), (N 5%nat), (N 6%nat) by lia.
  now rewrite !app_nil_r.
Qed.

Lemma GetMatch_empty_pattern_witness :
  Forall2 (fun e l => _get_compl_line e = Ok l)
    (searched (fst (GetMatch ranking_world "" "paper.md" ranking_object)) "paper.md")
    ["KEY1#abc2020" ++ String Py.tab ("Jones" ++ String Py.tab "(2020) Abc of logic");
     "KEY2#xabc2020" ++ String Py.tab ("Young" ++ String Py.tab "(2020) Xabc revisited");
     "KEY3#zeta2020" ++ String Py.tab ("Abcarian" ++ String Py.tab "(2020) Zeta functions")].
Proof.
  apply (GetMatch_empty_pattern ranking_world ranking_object "paper.md").
  - vm_compute. reflexivity.
  - vm_compute. repeat constructor; eexists; reflexivity.
Defined.

(** ** Fields that hold a string *)

Lemma has_str_set k f s e : has_str k e -> has_str k (dset f (VStr s) e).
Proof.
  intros [x G]. unfold has_str. destruct (string_dec f k) as [->|N].
  - rewrite dget_dset_same. eauto.
  - rewrite dget_dset_other by exact N. eauto.
Qed.

Lemma has_str_new k f v e :
  has_str k e -> dmem f e = false -> has_str k (dset f v e).
Proof.
  intros [x G] D. unfold has_str. destruct (string_dec f k) as [->|N].
  - unfold dmem in D. rewrite G in D. discriminate.
  - rewrite dget_dset_other by exact N. eauto.
Qed.

Lemma has_str_iadd k f x e :
  has_str k e -> has_str k (fst (iadd_item f x e)).
Proof.
  intros [s G]. unfold iadd_item, bind, getitem, lift, setitem, modify.
  destruct (dget f e) as [v|] eqn:F; cbn [fst]; [|exists s; exact G].
  destruct (iadd v x) as [v'|] eqn:I; cbn [fst]; [|exists s; exact G].
  destruct (string_dec f k) as [->|N].
  - unfold has_str. rewrite dget_dset_same. rewrite G in F. injection F as <-.
    destruct x; simpl in I; try discriminate. injection I as <-. eauto.
  - unfold has_str. rewrite dget_dset_other by exact N. eauto.
Qed.

(** ** Properties of the entries that the passes of a load keep *)

Lemma bind_get {S B} (k : S -> M S B) s : bind get k s = k s s.
Proof. reflexivity. Qed.

Lemma item_inv (P : entry -> Prop) {A} k (c : M entry A) o :
  (forall e, P e -> P (fst (c e))) ->
  all_items P o -> all_items P (fst (on_t (at_key k c) o)).
Proof.
  intros Hc J. unfold on_t, at_key.
  destruct (dget k (_t o)) as [e|] eqn:G; [|exact J].
  specialize (Hc e (J _ _ G)).
  destruct (c e) as [e' r]. cbn [fst snd] in *. intros j x Gj. cbn in Gj.
  destruct (Z.eq_dec k j) as [<-|N].
  - rewrite dget_dset_same in Gj. now injection Gj as <-.
  - rewrite dget_dset_other in Gj by exact N. eauto.
Qed.

Lemma when_item_inv (P : entry -> Prop) i (c : M entry unit) o :
  (forall e, P e -> P (fst (c e))) ->
  all_items P o -> all_items P (fst (when_item i c o)).
Proof.
  intros Hc J. rewrite when_item_run.
  destruct (dget i (_t o)) as [e|] eqn:G; [|exact J].
  cbn [fst]. intros j x Gj. cbn in Gj.
  destruct (Z.eq_dec i j) as [<-|N].
  - rewrite dget_dset_same in Gj. injection Gj as <-. eauto.
  - rewrite dget_dset_other in Gj by exact N. eauto.
Qed.

Section Stable.
Variable P : entry -> Prop.
Hypothesis P_set : forall f s e, P e -> P (dset f (VStr s) e).
Hypothesis P_new : forall f v e, P e -> dmem f e = false -> P (dset f v e).
Hypothesis P_iadd : forall f x e, P e -> P (fst (iadd_item f x e)).

Lemma add_field_inv row o :
  (forall key, P (new_item key)) ->
  all_items P o -> all_items P (fst (add_field row o)).
Proof.
  intros P0 J. destruct row as [[[item_id item_key] f] v].
  unfold add_field. rewrite bind_get.
  apply (bind_inv (all_items P)).
  - destruct (dmem item_id (_t o)); [exact J|].
    intros j x Gj. cbn in Gj.
    destruct (Z.eq_dec item_id j) as [<-|N].
    + rewrite dget_dset_same in Gj. injection Gj as <-. apply P0.
    + rewrite dget_dset_other in Gj by exact N. eauto.
  - intros _ s Js. apply item_inv; auto.
    intros e Pe. now apply P_set.
Qed.

Lemma authors_inv ctype lastname firstname e :
  P e ->
  P (fst ((e <- get ;;
           (if dmem ctype e then
              v <- getitem ctype ;;
              v' <- lift (iadd v (VList [VList [VStr lastname; VStr firstname]])) ;;
              setitem ctype v'
            else setitem ctype (VList [VList [VStr lastname; VStr firstname]])) ;;
           if (ctype =? "author")%string then
             a <- getitem "alastnm" ;;
             a' <- lift (iadd a (VStr (", " ++ lastname))) ;;
             setitem "alastnm" a'
           else ret tt) e)).
Proof.
  intro Pe. rewrite bind_get. apply (bind_inv P).
  - destruct (dmem ctype e) eqn:D.
    + apply (P_iadd ctype _ e Pe).
    + now apply P_new.
  - intros _ s Ps. destruct (ctype =? "author")%string; [|exact Ps].
    apply (P_iadd "alastnm" _ s Ps).
Qed.

Lemma load_items_inv b o :
  (forall key, P (new_item key)) ->
  all_items P (fst (load_items b o)).
Proof.
  intro P0. unfold load_items.
  apply (bind_inv (all_items P)); [|intros _ s1 J1].
  { unfold _add_most_fields. apply (bind_inv (all_items P)).
    - intros j x Gj. discriminate Gj.
    - intros _ s Js. apply (for_each_inv (all_items P)); auto.
      intros row s' J'. now apply add_field_inv. }
  apply (bind_inv (all_items P)); [|intros _ s2 J2].
  { apply (for_each_inv (all_items P)); auto.
    intros [i c] s J. apply when_item_inv; auto. intros e Pe. now apply P_set. }
  apply (bind_inv (all_items P)); [|intros _ s3 J3].
  { apply (for_each_inv (all_items P)); auto.
    intros [[[i c] l] f] s J. apply when_item_inv; auto.
    intros e Pe. now apply authors_inv. }
  apply (bind_inv (all_items P)); [|intros _ s4 J4].
  { apply (for_each_inv (all_items P)); auto.
    intros [i c] s J. apply when_item_inv; auto. intros e Pe. now apply P_set. }
  apply (bind_inv (all_items P)); [|intros _ s5 J5].
  { apply (for_each_inv (all_items P)); auto.
    intros [i c] s J. apply when_item_inv; auto. intros e Pe. now apply P_set. }
  apply (for_each_inv (all_items P)); auto.
  intros [i c] s J. apply when_item_inv; auto.
  intros e Pe. apply (P_iadd "tags" _ e Pe).
Qed.

Lemma _add_attachments_inv rows o :
  all_items P o -> all_items P (fst (_add_attachments rows o)).
Proof.
  apply (for_each_inv (all_items P)).
  intros [[pKey [i|]] [path|]] s J; try exact J.
  apply item_inv; auto. intros e Pe. now apply P_set.
Qed.

Lemma calculate_citekey_inv cite w e :
  P e -> P (fst (calculate_citekey cite w e)).
Proof.
  intro Pe. unfold calculate_citekey.
  assert (Read : forall k s, P s -> P (fst (@getitem string value _ k s))).
  { intros k s Ps. unfold getitem. now destruct (dget k s). }
  apply (bind_inv P); [exact Pe|intros has_date s1 P1].
  apply (bind_inv P); [|intros year s2 P2].
  { destruct has_date; [|exact P1].
    apply (bind_inv P); [now apply Read|intros d s P'].
    apply (bind_inv P); [exact P'|auto]. }
  apply (bind_inv P); [now apply P_set|intros _ s3 P3].
  apply (bind_inv P); [exact P3|intros has_title s4 P4].
  apply (bind_inv P); [|intros titlew s5 P5].
  { destruct has_title.
    - apply (bind_inv P); [now apply Read|intros d s P'].
      apply (bind_inv P); [exact P'|auto].
    - apply (bind_inv P); [now apply P_set|auto]. }
  apply (bind_inv P); [exact P5|intros has_author s6 P6].
  apply (bind_inv P); [|intros lastname s7 P7].
  { destruct has_author; [|exact P6].
    apply (bind_inv P); [now apply Read|intros d s P'].
    apply (bind_inv P); [exact P'|auto]. }
  apply (bind_inv P); [exact P7|intros lastname' s8 P8].
  now apply P_set.
Qed.

Lemma _calculate_citekeys_inv o :
  all_items P o -> all_items P (fst (_calculate_citekeys o)).
Proof.
  intro J. unfold _calculate_citekeys. rewrite bind_get.
  apply (for_each_inv (all_items P)); [|exact J].
  intros k s Js. apply item_inv; auto.
  intros e Pe. now apply calculate_citekey_inv.
Qed.
End Stable.

(** ** What a computation that completes establishes *)

Lemma hoare_bind {S A B} (P : S -> Prop) (c : M S A) (Q : A -> S -> Prop)
    (k : A -> M S B) (R : B -> S -> Prop) :
  hoare P c Q -> (forall a, hoare (Q a) (k a) R) -> hoare P (bind c k) R.
Proof.
  intros Hc Hk s Ps b. unfold bind. specialize (Hc s Ps).
  destruct (c s) as [s' [a|e]]; cbn [fst snd] in *; [|discriminate].
  apply Hk. now apply Hc.
Qed.

Lemma hoare_pure {S A} (P : S -> Prop) (c : M S A) (Q : A -> S -> Prop) :
  pure c -> (forall s a, P s -> snd (c s) = Ok a -> Q a s) -> hoare P c Q.
Proof. intros Hp Hq s Ps a R. rewrite Hp. auto. Qed.

Lemma hoare_weaken {S A} (P P' : S -> Prop) (c : M S A) (Q : A -> S -> Prop) :
  (forall s, P' s -> P s) -> hoare P c Q -> hoare P' c Q.
Proof. intros W H s Ps. apply H. auto. Qed.

Lemma hoare_for_each {S A} (I : S -> Prop) (l : list A) (body : A -> M S unit) :
  (forall x, In x l -> hoare I (body x) (fun _ => I)) ->
  hoare I (for_each l body) (fun _ => I).
Proof.
  induction l as [|x r IH]; intro Hb.
  - intros s Is a _. exact Is.
  - cbn [for_each]. apply hoare_bind with (Q := fun _ => I).
    + apply Hb. now left.
    + intros _. apply IH. intros y Iy. apply Hb. now right.
Qed.

Lemma pure_bind {S A B} (c : M S A) (k : A -> M S B) :
  pure c -> (forall a, pure (k a)) -> pure (bind c k).
Proof.
  intros Hc Hk s. unfold bind. specialize (Hc s).
  destruct (c s) as [s' [a|e]]; cbn [fst] in *; [|exact Hc].
  now rewrite Hk.
Qed.

Lemma pure_getitem {K V} `{EqKey K} (k : K) : pure (@getitem K V _ k).
Proof. intro s. unfold getitem. now destruct (dget k s). Qed.

Lemma pure_lift {S A} (r : result A) : pure (@lift S A r).
Proof. intro s. reflexivity. Qed.

Lemma pure_ret {S A} (a : A) : pure (@ret S A a).
Proof. intro s. reflexivity. Qed.

(** The body of the loop of [_calculate_citekeys] leaves a year, a title
    and a citation key that are strings. *)
Lemma calculate_citekey_strings cite w :
  hoare (fun _ => True) (calculate_citekey cite w)
        (fun _ e => has_str "citekey" e /\ has_str "year" e /\ has_str "title" e).
Proof.
  unfold calculate_citekey.
  apply hoare_bind with (Q := fun _ _ => True); [easy|intro has_date].
  apply hoare_bind with (Q := fun _ _ => True); [easy|intro year].
  apply hoare_bind with (Q := fun _ e => has_str "year" e).
  { intros e _ [] _. cbn. exists year. apply dget_dset_same. }
  intros _.
  apply hoare_bind with (Q := fun b e => has_str "year" e /\ b = dmem "title" e).
  { intros e Y b [= <-]. cbn. auto. }
  intro has_title.
  apply hoare_bind with (Q := fun _ e => has_str "year" e /\ has_str "title" e).
  { destruct has_title.
    - apply hoare_bind
        with (Q := fun t e => has_str "year" e /\ dget "title" e = Some t).
      { apply hoare_pure; [apply pure_getitem|].
        intros e t [Y _]. unfold getitem.
        destruct (dget "title" e); [|discriminate]. now intros [= ->]. }
      intro t.
      apply hoare_bind
        with (Q := fun _ e => has_str "year" e /\ has_str "title" e).
      { apply hoare_pure; [apply pure_lift|].
        intros e s [Y T]. destruct t; try discriminate. intros _.
        split; [exact Y|eexists; exact T]. }
      intro s. apply hoare_pure; [apply pure_ret|tauto].
    - apply hoare_bind
        with (Q := fun _ e => has_str "year" e /\ has_str "title" e).
      { intros e [Y _] [] _. cbn. split.
        - now apply has_str_set.
        - exists "". apply dget_dset_same. }
      intros _. apply hoare_pure; [apply pure_ret|tauto]. }
  intro titlew.
  apply hoare_bind with (Q := fun _ e => has_str "year" e /\ has_str "title" e).
  { apply hoare_pure; [intro; reflexivity|tauto]. }
  intro has_author.
  apply hoare_bind with (Q := fun _ e => has_str "year" e /\ has_str "title" e).
  { apply hoare_pure; [|tauto].
    destruct has_author; [|apply pure_ret].
    apply pure_bind; [apply pure_getitem|intro a].
    apply pure_bind; [apply pure_lift|intro a0]. apply pure_lift. }
  intro lastname.
  apply hoare_bind with (Q := fun _ e => has_str "year" e /\ has_str "title" e).
  { apply hoare_pure; [apply pure_lift|tauto]. }
  intro lastname'.
  intros e [Y T] [] _. cbn. split; [|split].
  - eexists. apply dget_dset_same.
  - now apply has_str_set.
  - now apply has_str_set.
Qed.

(** A loop over the keys [ks] of the working dictionary whose body
    establishes [P] of the entry it completes on. *)
Lemma establish_loop (P : entry -> Prop) (c : M entry unit) ks :
  hoare (fun _ => True) c (fun _ => P) ->
  forall o,
  snd (for_each ks (fun k => on_t (at_key k c)) o) = Ok tt ->
  forall k e,
    dget k (_t (fst (for_each ks (fun k => on_t (at_key k c)) o))) = Some e ->
    (In k ks -> P e) /\ (~ In k ks -> dget k (_t o) = Some e).
Proof.
  intro Hc. induction ks as [|k0 ks IH]; intros o R k e G; cbn [for_each] in *.
  - split; [intros []|auto].
  - destruct (bind_ok _ _ _ _ R) as ([] & R0 & E). rewrite E in *.
    destruct (on_t_ok _ _ _ R0) as [R1 T1].
    destruct (at_key_ok _ _ _ _ R1) as (e0 & G0 & R2 & T2).
    destruct (IH _ R k e G) as [Hin Hout].
    rewrite T1, T2 in Hout.
    split.
    + intros [<-|I]; auto.
      destruct (in_dec Z.eq_dec k0 ks) as [I|NI]; auto.
      specialize (Hout NI). rewrite dget_dset_same in Hout.
      injection Hout as <-. now apply (Hc e0 Logic.I tt).
    + intro NI.
      assert (N0 : k0 <> k) by (intro; apply NI; now left).
      assert (NI' : ~ In k ks) by (intro; apply NI; now right).
      specialize (Hout NI'). now rewrite dget_dset_other in Hout.
Qed.

Lemma _calculate_citekeys_establishes (E : entry -> Prop) o :
  (forall cite w, hoare (fun _ => True) (calculate_citekey cite w) (fun _ => E)) ->
  snd (_calculate_citekeys o) = Ok tt ->
  all_items E (fst (_calculate_citekeys o)).
Proof.
  intros HE R k e G. unfold _calculate_citekeys in *. rewrite bind_get in *.
  destruct (establish_loop _ _ (dkeys (_t o)) (HE (_cite o) (_w o)) o R k e G)
    as [Hin Hout].
  destruct (in_dec Z.eq_dec k (dkeys (_t o))) as [I|NI]; auto.
  specialize (Hout NI). exfalso. apply NI.
  apply dmem_In_keys. unfold dmem. now rewrite Hout.
Qed.

(** ** The entries that [_separate_by_collection] stores *)

Lemma set_t_same o : set_t o (_t o) = o.
Proof. now destruct o. Qed.

Lemma read_item {A} k (c : M entry A) o e :
  pure c -> dget k (_t o) = Some e ->
  on_t (at_key k c) o = (o, snd (c e)).
Proof.
  intros Hc G. unfold on_t, at_key. rewrite G.
  specialize (Hc e). destruct (c e) as [e' r]. cbn [fst snd] in *. subst e'.
  now rewrite (dset_dget _ _ _ G), set_t_same.
Qed.

Lemma store_run ck k id e o :
  dget k (_t o) = Some e ->
  ((if dmem ck (_e o) then ret tt else on_e (setitem ck [])) ;;
   e <- on_t (getitem k) ;;
   on_e (at_key ck (setitem id e))) o
  = (set_e o (store ck id e (_e o)), Ok tt).
Proof.
  intro Gk. unfold store, dmem.
  destruct (dget ck (_e o)) as [es|] eqn:G.
  - rewrite (bind_run _ _ _ tt) by reflexivity. cbn [fst ret].
    unfold bind, on_t, getitem. rewrite Gk. rewrite set_t_same.
    unfold on_e, at_key. rewrite G. reflexivity.
  - rewrite (bind_run _ _ _ tt) by reflexivity.
    unfold bind, on_t, getitem, on_e, at_key, setitem, modify.
    cbn [fst snd _e _t set_e]. rewrite Gk. cbn [fst snd _e set_t set_e].
    rewrite dget_dset_same. cbn [fst snd]. rewrite dset_dset.
    now destruct o.
Qed.

(** What the body of the loop of [_separate_by_collection] does when it
    completes: nothing for an item that is deleted or an attachment;
    otherwise it trims the author names and stores the entry under its
    collection and the item id as a string. *)
Lemma separate_item_run deleted k o :
  snd (separate_item deleted k o) = Ok tt ->
  (fst (separate_item deleted k o) = o /\
   (existsb (Z.eqb k) deleted = true \/
    exists e ety, dget k (_t o) = Some e /\ dget "etype" e = Some ety /\
                  is_str "attachment" ety = true)) \/
  (exists e ety s c ck,
     existsb (Z.eqb k) deleted = false /\
     dget k (_t o) = Some e /\ dget "etype" e = Some ety /\
     is_str "attachment" ety = false /\
     dget "alastnm" e = Some (VStr s) /\
     dget "collection" e = Some c /\ as_ckey c = Ok ck /\
     fst (separate_item deleted k o)
     = set_e (set_t o (dset k (trimmed e s) (_t o)))
             (store ck (Py.str_of_int k) (trimmed e s) (_e o))).
Proof.
  unfold separate_item.
  destruct (existsb (Z.eqb k) deleted) eqn:X.
  { rewrite (bind_run _ _ _ true) by reflexivity. intros _. left. auto. }
  destruct (dget k (_t o)) as [e|] eqn:G.
  2:{ intro R. exfalso. revert R. unfold bind, on_t, at_key. rewrite G.
      discriminate. }
  assert (R1 : (ety <- on_t (at_key k (getitem "etype")) ;;
                ret (is_str "attachment" ety)) o
               = (o, match dget "etype" e with
                     | Some ety => Ok (is_str "attachment" ety)
                     | None => Raise (KeyError (KStr "etype"))
                     end)).
  { unfold bind. rewrite (read_item k _ o e (pure_getitem _) G).
    unfold getitem. now destruct (dget "etype" e). }
  destruct (dget "etype" e) as [ety|] eqn:T.
  2:{ intro R. exfalso. revert R. unfold bind at 1. rewrite R1. discriminate. }
  rewrite (bind_run _ _ _ (is_str "attachment" ety)) by now rewrite R1.
  rewrite R1. cbn [fst].
  destruct (is_str "attachment" ety) eqn:Y.
  { intros _. left. split; [reflexivity|]. right. eauto. }
  intro R. right.
  destruct (bind_ok _ _ _ _ R) as ([] & R2 & E2). rewrite E2 in *. clear E2.
  destruct (on_t_ok _ _ _ R2) as [R2' T2].
  destruct (at_key_ok _ _ _ _ R2') as (e0 & G0 & R2'' & T2').
  rewrite G in G0. injection G0 as <-.
  assert (A : exists s, dget "alastnm" e = Some (VStr s) /\
                        fst ((a <- getitem "alastnm" ;;
                              s <- lift (as_str a) ;;
                              setitem "alastnm" (VStr (Py.strip_prefix ", " s))) e)
                        = trimmed e s).
  { revert R2''. unfold bind, getitem, lift, setitem, modify.
    destruct (dget "alastnm" e) as [[|s|l]|]; cbn; try discriminate.
    intros _. eauto. }
  destruct A as (s & Ga & Tr). rewrite Tr in T2'.
  set (o1 := fst (on_t (at_key k _) o)) in *.
  assert (O1 : o1 = set_t o (dset k (trimmed e s) (_t o))).
  { unfold o1, on_t. rewrite <- T2'.
    destruct (at_key k _ (_t o)) as [t' r]. reflexivity. }
  clearbody o1. subst o1.
  set (o1 := set_t o (dset k (trimmed e s) (_t o))) in *.
  assert (G1 : dget k (_t o1) = Some (trimmed e s)) by apply dget_dset_same.
  destruct (bind_ok _ _ _ _ R) as (c & R3 & E3). rewrite E3 in *. clear E3.
  rewrite (read_item k (getitem "collection") o1 _ (pure_getitem _) G1) in *.
  cbn [fst snd] in *.
  assert (Gc : dget "collection" e = Some c).
  { revert R3. unfold getitem, trimmed.
    rewrite dget_dset_other by discriminate.
    destruct (dget "collection" e); [|discriminate]. now intros [= ->]. }
  destruct (bind_ok _ _ _ _ R) as (ck & R4 & E4). rewrite E4 in *. clear E4.
  cbn [lift fst snd] in *. rewrite bind_get in *.
  rewrite (store_run ck k _ _ o1 G1) in *.
  exists e, ety, s, c, ck. repeat split; auto.
Qed.

Lemma In_dset {K V} `{EqKey K} (k k' : K) (v v' : V) (d : dict K V) :
  In (k', v') (dset k v d) -> (k' = k /\ v' = v) \/ In (k', v') d.
Proof.
  induction d as [|[k0 v0] r IH]; cbn [dset].
  - intros [[= <- <-]|[]]. now left.
  - destruct (keqb_spec k k0) as [->|N].
    + intros [[= <- <-]|I]; [now left|right; now right].
    + intros [E|I]; [right; now left|].
      destruct (IH I) as [L|I']; [now left|right; now right].
Qed.

Lemma index_all_store Q ck id e ix :
  index_all Q ix -> Q ck id e -> index_all Q (store ck id e ix).
Proof.
  intros J q c es id' e' Ic Ie. unfold store in Ic.
  apply In_dset in Ic as [[-> ->]|Ic]; [|eauto].
  apply In_dset in Ie as [[-> ->]|Ie]; [exact q|].
  destruct (dget ck ix) as [es|] eqn:G; [|destruct Ie].
  eapply J; [apply dget_In, G|exact Ie].
Qed.

Lemma item_keys {A} k (c : M entry A) o j :
  dmem j (_t (fst (on_t (at_key k c) o))) = dmem j (_t o).
Proof.
  unfold on_t, at_key.
  destruct (dget k (_t o)) as [e|] eqn:G; [|reflexivity].
  destruct (c e) as [e' r]. cbn [fst _t set_t].
  rewrite dmem_dset. destruct (keqb_spec j k) as [->|N]; [|reflexivity].
  unfold dmem. now rewrite G.
Qed.

(** The items of the working dictionary when the entries are separated
    are those with field rows. *)
Lemma loaded_keys w o j :
  dmem j (_t (fst (_calculate_citekeys
                     (fst (_add_attachments (attachment_rows (db w))
                             (fst (load_items (db w) o)))))))
  = has_fields (db w) j.
Proof.
  unfold _calculate_citekeys. rewrite bind_get.
  rewrite guarded_pass_keys by (intros; apply item_keys).
  unfold _add_attachments. rewrite guarded_pass_keys.
  - apply load_items_keys.
  - intros [[pKey [i|]] [path|]] s; try reflexivity. apply item_keys.
Qed.

Section Separate.
Variable P : Z -> entry -> Prop.
Variable Q : option string -> string -> entry -> Prop.
Variable deleted : list Z.
Variable items : Z -> Prop.
Hypothesis P_trimmed : forall k e s, P k e -> P k (trimmed e s).
Hypothesis Q_stored : forall k e ety s c ck,
  items k -> P k e ->
  existsb (Z.eqb k) deleted = false ->
  dget "etype" e = Some ety -> is_str "attachment" ety = false ->
  dget "alastnm" e = Some (VStr s) ->
  dget "collection" e = Some c -> as_ckey c = Ok ck ->
  Q ck (Py.str_of_int k) (trimmed e s).

Lemma separate_loop ks :
  Forall items ks ->
  hoare (fun o => items_at P o /\ index_all Q (_e o))
        (for_each ks (separate_item deleted))
        (fun _ o => items_at P o /\ index_all Q (_e o)).
Proof.
  intro F. apply hoare_for_each. intros k Ik o [Jt Je] [] R.
  rewrite Forall_forall in F. specialize (F k Ik).
  destruct (separate_item_run _ _ _ R)
    as [[E _]|(e & ety & s & c & ck & X & G & T & Y & Ga & Gc & Ck & E)];
    rewrite E; [auto|].
  split.
  - intros j x Gj. cbn in Gj. destruct (Z.eq_dec k j) as [<-|N].
    + rewrite dget_dset_same in Gj. injection Gj as <-. eauto.
    + rewrite dget_dset_other in Gj by exact N. eauto.
  - cbn [_e set_e]. apply index_all_store; [exact Je|]. eauto.
Qed.

Lemma _separate_by_collection_stores o :
  (forall k, dmem k (_t o) = true -> items k) ->
  items_at P o ->
  snd (_separate_by_collection deleted o) = Ok tt ->
  index_all Q (_e (fst (_separate_by_collection deleted o))).
Proof.
  intros Hk J R. unfold _separate_by_collection in *.
  rewrite (bind_run _ _ _ tt) in * by reflexivity. rewrite bind_get in *.
  set (o0 := fst (on_e (put []) o)) in *.
  apply (separate_loop (dkeys (_t o0))) with (a := tt); [| |exact R].
  - apply Forall_forall. intros k Ik. apply Hk. now apply dmem_In_keys.
  - split; [exact J|]. intros c es id e [].
Qed.
End Separate.

Section Load.
Variable P : entry -> Prop.
Variable E : entry -> Prop.
Variable Q : option string -> string -> entry -> Prop.
Variable w : world.
Hypothesis E_calculated : forall cite w,
  hoare (fun _ => True) (calculate_citekey cite w) (fun _ => E).
Hypothesis E_trimmed : forall e s, E e -> E (trimmed e s).
Hypothesis P_new_item : forall key, P (new_item key).
Hypothesis P_set : forall f s e, P e -> P (dset f (VStr s) e).
Hypothesis P_new : forall f v e, P e -> dmem f e = false -> P (dset f v e).
Hypothesis P_iadd : forall f x e, P e -> P (fst (iadd_item f x e)).
Hypothesis Q_stored : forall k e ety s c ck,
  has_fields (db w) k = true ->
  P e /\ E e ->
  existsb (Z.eqb k) (deleted_rows (db w)) = false ->
  dget "etype" e = Some ety -> is_str "attachment" ety = false ->
  dget "alastnm" e = Some (VStr s) ->
  dget "collection" e = Some c -> as_ckey c = Ok ck ->
  Q ck (Py.str_of_int k) (trimmed e s).

(** What holds of every entry that a load stores, when it completes. *)
Lemma load_stores o :
  snd (_load_zotero_data w o) = Ok tt ->
  index_all Q (_e (fst (_load_zotero_data w o))).
Proof.
  intro R. unfold _load_zotero_data in *.
  destruct (bind_ok _ _ _ _ R) as ([] & _ & E0). rewrite E0 in *. clear E0.
  set (s0 := fst (modify (fun o => set_m o (mtime w)) o)) in *.
  destruct (bind_ok _ _ _ _ R) as ([] & _ & E1). rewrite E1 in *. clear E1.
  destruct (bind_ok _ _ _ _ R) as ([] & _ & E2). rewrite E2 in *. clear E2.
  destruct (bind_ok _ _ _ _ R) as ([] & R3 & E3). rewrite E3 in *. clear E3.
  set (s3 := fst (_calculate_citekeys _)) in *.
  apply (_separate_by_collection_stores
           (fun _ e => P e /\ E e)
           Q (deleted_rows (db w))
           (fun k => has_fields (db w) k = true)).
  - intros _ e s [Pe Ee]. split; [now apply P_set|now apply E_trimmed].
  - exact Q_stored.
  - intros k D. unfold s3 in D. now rewrite loaded_keys in D.
  - intros k e G. split.
    + revert k e G. apply _calculate_citekeys_inv; auto.
      apply _add_attachments_inv; auto.
      apply load_items_inv; auto.
    + exact (_calculate_citekeys_establishes E _ E_calculated R3 k e G).
  - exact R.
Qed.
End Load.

Lemma is_str_false s v : is_str s v = false -> v <> VStr s.
Proof.
  intros E ->. cbn in E. now rewrite String.eqb_refl in E.
Qed.

Lemma existsb_eqb_false k l : existsb (Z.eqb k) l = false -> ~ In k l.
Proof.
  intros E I. assert (T : existsb (Z.eqb k) l = true).
  { apply existsb_exists. exists k. split; [exact I|apply Z.eqb_refl]. }
  congruence.
Qed.

Lemma as_ckey_value c ck : as_ckey c = Ok ck -> c = ckey_value ck.
Proof. destruct c; cbn; intros [= <-]; reflexivity. Qed.

(** X6: when a load completes, every entry of every collection is stored
    under the decimal string of the id of an item that has rows in the
    field query, is not in the table of the deleted items and whose type
    is not attachment: deleted items and attachments are never stored. *)
Theorem stored_entries_are_live_items (w : world) (o : ZoteroEntries) :
  snd (_load_zotero_data w o) = Ok tt ->
  forall c es id e,
    In (c, es) (_e (fst (_load_zotero_data w o))) -> In (id, e) es ->
    exists k, id = Py.str_of_int k /\
              has_fields (db w) k = true /\
              ~ In k (deleted_rows (db w)) /\
              exists ety, dget "etype" e = Some ety /\ ety <> VStr "attachment".
Proof.
  intro R.
  apply (load_stores (fun _ => True) (fun _ => True)
           (fun _ id e =>
              exists k, id = Py.str_of_int k /\
                        has_fields (db w) k = true /\
                        ~ In k (deleted_rows (db w)) /\
                        exists ety, dget "etype" e = Some ety /\
                                    ety <> VStr "attachment")
           w); auto.
  { intros cite w' e _ a _. exact Logic.I. }
  intros k e ety s c ck F _ X T Y _ _ _. exists k.
  repeat split; auto using existsb_eqb_false.
  exists ety. split; [|now apply is_str_false].
  unfold trimmed. now rewrite dget_dset_other by discriminate.
Qed.

Lemma stored_entries_are_live_items_witness :
  exists k, "1" = Py.str_of_int k /\
            has_fields library k = true /\
            ~ In k (deleted_rows library) /\
            exists ety, dget "etype" library_article = Some ety /\
                        ety <> VStr "attachment".
Proof.
  apply (stored_entries_are_live_items {| mtime := 10; db := library |} blank)
    with (c := Some "Papers") (es := library_papers).
  - vm_compute. reflexivity.
  - vm_compute. left. reflexivity.
  - vm_compute. left. reflexivity.
Defined.

(** X7: when a load completes, every entry is stored in the collection
    that its own field collection names, and under the key None when this
    field is None, as it is for an item in no collection. *)
Theorem stored_under_own_collection (w : world) (o : ZoteroEntries) :
  snd (_load_zotero_data w o) = Ok tt ->
  forall c es id e,
    In (c, es) (_e (fst (_load_zotero_data w o))) -> In (id, e) es ->
    dget "collection" e = Some (ckey_value c).
Proof.
  intro R.
  apply (load_stores (fun _ => True) (fun _ => True)
           (fun c _ e => dget "collection" e = Some (ckey_value c)) w); auto.
  { intros cite w' e _ a _. exact Logic.I. }
  intros k e ety s c ck _ _ _ _ _ _ Gc Ck.
  unfold trimmed. rewrite dget_dset_other by discriminate.
  now rewrite Gc, (as_ckey_value _ _ Ck).
Qed.

Lemma stored_under_own_collection_witness :
  dget "collection" library_article = Some (VStr "Papers").
Proof.
  apply (stored_under_own_collection {| mtime := 10; db := library |} blank)
    with (c := Some "Papers") (es := library_papers) (id := "1").
  - vm_compute. reflexivity.
  - vm_compute. left. reflexivity.
  - vm_compute. left. reflexivity.
Defined.

Lemma load_searchable w o :
  snd (_load_zotero_data w o) = Ok tt ->
  index_all (fun _ _ e => searchable e) (_e (fst (_load_zotero_data w o))).
Proof.
  intro R.
  apply (load_stores (fun e => has_str "zotkey" e /\ has_str "alastnm" e)
           (fun e => has_str "citekey" e /\ has_str "year" e /\
                     has_str "title" e)
           (fun _ _ e => searchable e) w); auto.
  - apply calculate_citekey_strings.
  - intros e s (C & Y & T). unfold trimmed. repeat split; now apply has_str_set.
  - intro key. split; eexists; reflexivity.
  - intros f s e [Z A]. split; now apply has_str_set.
  - intros f v e [Z A] D. split; now apply has_str_new.
  - intros f x e [Z A]. split; now apply has_str_iadd.
  - intros k e ety s c ck _ ([Z A] & C & Y & T) _ _ _ _ _ _.
    unfold searchable, trimmed. repeat split; now apply has_str_set.
Qed.

(** X8: when a load completes, whatever rows the data base has, every
    entry of every collection has strings as its Zotero key, citation key,
    author names, year and title, the five fields that a completion line
    is made of. *)
Theorem stored_entries_searchable (w : world) (o : ZoteroEntries) :
  snd (_load_zotero_data w o) = Ok tt ->
  forall c es id e,
    In (c, es) (_e (fst (_load_zotero_data w o))) -> In (id, e) es ->
    (exists s, dget "zotkey" e = Some (VStr s)) /\
    (exists s, dget "citekey" e = Some (VStr s)) /\
    (exists s, dget "alastnm" e = Some (VStr s)) /\
    (exists s, dget "year" e = Some (VStr s)) /\
    (exists s, dget "title" e = Some (VStr s)).
Proof.
  intros R c es id e Ic Ie. exact (load_searchable w o R c es id e Ic Ie).
Qed.

Lemma stored_entries_searchable_witness :
  (exists s, dget "zotkey" library_article = Some (VStr s)) /\
  (exists s, dget "citekey" library_article = Some (VStr s)) /\
  (exists s, dget "alastnm" library_article = Some (VStr s)) /\
  (exists s, dget "year" library_article = Some (VStr s)) /\
  (exists s, dget "title" library_article = Some (VStr s)).
Proof.
  apply (stored_entries_searchable {| mtime := 10; db := library |} blank)
    with (c := Some "Papers") (es := library_papers) (id := "1").
  - vm_compute. reflexivity.
  - vm_compute. left. reflexivity.
  - vm_compute. left. reflexivity.
Defined.

(** ** Searches that return *)

Lemma find_in_str k ptrn e s :
  dget k e = Some (VStr s) -> find_in k ptrn e = Ok (Py.find (Py.lower s) ptrn).
Proof. intro G. unfold find_in, field. now rewrite G. Qed.

Lemma priority_total ptrn e :
  searchable e -> exists p, priority ptrn e = Ok p.
Proof.
  intros (_ & [c C] & [a A] & _ & [t T]). unfold priority.
  rewrite !(find_in_str _ _ _ _ C), !(find_in_str _ _ _ _ T). cbn [rbind].
  destruct (author_test_string (Z.eqb 0) ptrn e a A) as [-> | (ch & ->)];
  destruct (author_test_string (Z.ltb 0) ptrn e a A) as [-> | (ch' & ->)];
  cbn [rbind];
  repeat match goal with |- context [if ?b then _ else _] => destruct b end;
  eauto.
Qed.

Lemma _get_compl_line_total e :
  searchable e -> exists line, _get_compl_line e = Ok line.
Proof.
  intros ([z Z] & [c C] & [a A] & [y Y] & [t T]).
  unfold _get_compl_line, str_field, field. rewrite Z, C, A, Y, T.
  cbn [rbind as_str]. destruct (is_str "" (VStr a)); eauto.
Qed.

Lemma match_entries_total ptrn es : forall b,
  Forall (fun ie => searchable (snd ie)) es ->
  exists b', match_entries ptrn es b = Ok b'.
Proof.
  induction es as [|[i e] es IH]; intros b F; cbn [match_entries]; [eauto|].
  inversion F as [|? ? Fe Fr]; subst. cbn [snd] in Fe.
  destruct (priority_total ptrn e Fe) as [p Pp].
  destruct (_get_compl_line_total e Fe) as [l L].
  unfold match_entry. rewrite Pp. cbn [rbind].
  destruct p as [n|]; [rewrite L|]; cbn [rbind]; auto.
Qed.

Lemma match_collections_total ptrn ix cs : forall b,
  index_all (fun _ _ e => searchable e) ix ->
  Forall (fun c => dmem c ix = true) cs ->
  exists b', match_collections ptrn ix cs b = Ok b'.
Proof.
  induction cs as [|c cs IH]; intros b J F; cbn [match_collections]; [eauto|].
  inversion F as [|? ? Fc Fr]; subst. unfold dmem in Fc.
  destruct (dget c ix) as [es|] eqn:G; [|discriminate].
  destruct (match_entries_total ptrn es b) as [b1 E1].
  { apply Forall_forall. intros [i e] I. cbn [snd].
    exact (J c es i e (dget_In _ _ _ G) I). }
  rewrite E1. cbn [rbind]. auto.
Qed.

Lemma find_matches_total ptrn d o cs :
  index_all (fun _ _ e => searchable e) (_e o) ->
  dget d (_d o) = Some cs ->
  Forall (fun c => dmem c (_e o) = true) cs ->
  exists lines, snd (find_matches ptrn d o) = Ok lines.
Proof.
  intros J G F. unfold find_matches, bind, on_d, getitem, get, lift, ret.
  rewrite G. cbn [fst snd _e set_d].
  set (cs' := match cs with [] => dkeys (_e o) | _ :: _ => cs end).
  destruct (match_collections_total ptrn (_e o) cs' no_levels J) as [b E].
  { unfold cs'. destruct cs; [|exact F].
    apply Forall_forall. intros c I. now apply dmem_In_keys. }
  rewrite E. cbn [fst snd]. eauto.
Qed.

Lemma append_binding_e d k o : _e (fst (append_binding d k o)) = _e o.
Proof.
  unfold append_binding, on_d. now destruct (at_key d _ (_d o)).
Qed.

Lemma not_found_message c : not_found c <> "".
Proof. discriminate. Qed.

(** [SetCollections] returns the empty string only when every name of the
    list is a collection. *)
Lemma bind_each_ok d clist : forall o,
  snd (bind_each d clist o) = Ok "" ->
  Forall (fun x => dmem (Some x) (_e o) = true) clist.
Proof.
  induction clist as [|c r IH]; intros o R; [constructor|].
  cbn [bind_each] in R. rewrite bind_get in R.
  destruct (dmem (Some c) (_e o)) eqn:D.
  - constructor; [exact D|].
    destruct (bind_ok _ _ _ _ R) as ([] & _ & E). rewrite E in R.
    specialize (IH _ R). now rewrite append_binding_e in IH.
  - exfalso. injection R as R. exact (not_found_message c R).
Qed.

Lemma SetCollections_bound d clist o :
  snd (SetCollections d clist o) = Ok "" ->
  exists cs,
    fst (SetCollections d clist o) = set_d o (dset d cs (_d o)) /\
    Forall (fun c => dmem c (_e o) = true) cs.
Proof.
  unfold SetCollections. rewrite (bind_run _ _ _ tt) by reflexivity.
  destruct (list_eq_dec string_dec clist [""]) as [E|N].
  - intros _. exists (dkeys (_e o)). split.
    + rewrite bind_get. cbn [fst on_d setitem modify _e set_d].
      rewrite (bind_run _ _ _ tt)
        by (now rewrite (append_all d _ _ []) by apply dget_dset_same).
      rewrite (append_all d _ _ []) by apply dget_dset_same.
      cbn. now rewrite dset_dset.
    + apply Forall_forall. intros c I. now apply dmem_In_keys.
  - rewrite (bind_run _ _ _ tt) by reflexivity. intro R.
    pose proof (bind_each_ok _ _ _ R) as F. cbn in F.
    exists (map Some clist). split.
    + rewrite (bind_each_known d clist _ []); cbn; auto.
      * now rewrite !dset_dset.
      * apply dget_dset_same.
    + apply Forall_forall. intros c I. apply in_map_iff in I as (x & <- & I).
      rewrite Forall_forall in F. auto.
Qed.

(** X9: a search never raises on an object that a load has built: when
    [ZoteroEntries()] completes and [SetCollections] returns the empty
    string for a document, every search for that document, as long as the
    file has not changed, returns a list, whatever the pattern and whatever
    rows the data base has. *)
Theorem GetMatch_returns
    (template banned : option string) (w : world) (d : string)
    (clist : list string) (ptrn : string) :
  snd (__init__ template banned w) = Ok tt ->
  snd (SetCollections d clist (fst (__init__ template banned w))) = Ok "" ->
  exists lines,
    snd (GetMatch w ptrn d
           (fst (SetCollections d clist (fst (__init__ template banned w)))))
    = Ok lines.
Proof.
  intros R0 R1. unfold __init__ in *.
  set (init := {| _cite := _; _w := _; _e := []; _t := []; _m := 0; _d := [] |}) in *.
  destruct (bind_ok _ _ _ _ R0) as ([] & RL & E0). rewrite E0 in *. clear E0.
  pose proof (load_searchable w init RL) as J.
  pose proof (_load_zotero_data_m w init) as Tm.
  set (o0 := fst (on_d (put []) (fst (_load_zotero_data w init)))) in *.
  assert (J0 : index_all (fun _ _ e => searchable e) (_e o0)) by exact J.
  assert (M0 : _m o0 = mtime w) by exact Tm.
  destruct (SetCollections_bound d clist o0 R1) as (cs & E1 & F).
  rewrite E1. rewrite GetMatch_run. cbn [_m set_d]. rewrite M0.
  replace (mtime w >? mtime w) with false
    by (rewrite Z.gtb_ltb; symmetry; apply Z.ltb_irrefl).
  rewrite (bind_run _ _ _ tt) by reflexivity. cbn [fst ret].
  apply (find_matches_total ptrn d _ cs); cbn [_e _d set_d]; auto.
  apply dget_dset_same.
Qed.

Lemma GetMatch_returns_witness :
  exists lines,
    snd (GetMatch {| mtime := 10; db := library |} "rise" "paper.md"
           (fst (SetCollections "paper.md" ["Papers"]
                   (fst (__init__ None None {| mtime := 10; db := library |})))))
    = Ok lines.
Proof.
  apply (GetMatch_returns None None {| mtime := 10; db := library |}
           "paper.md" ["Papers"] "rise").
  - vm_compute. reflexivity.
  - vm_compute. reflexivity.
Defined.

(** ** Reloads *)

Lemma GetMatch_m w ptrn d o :
  _m (fst (GetMatch w ptrn d o)) = Z.max (_m o) (mtime w).
Proof.
  rewrite GetMatch_run.
  assert (F : forall s, _m (fst (find_matches ptrn d s)) = _m s)
    by (intro s; now rewrite find_matches_state).
  destruct (Z.gtb_spec (mtime w) (_m o)) as [L|L].
  - apply (bind_inv (fun s => _m s = Z.max (_m o) (mtime w))).
    + rewrite _load_zotero_data_m. lia.
    + intros _ s E. now rewrite F.
  - apply (bind_inv (fun s => _m s = Z.max (_m o) (mtime w))).
    + cbn. lia.
    + intros _ s E. now rewrite F.
Qed.

(** X10: after a search at some modification time of the file, a search
    at the same time never reloads, whether the reload of the first
    search, if one was due, completed or raised: the time is recorded
    before the first query is made. *)
Theorem GetMatch_reloads_once
    (w : world) (o : ZoteroEntries) (ptrn d ptrn' d' : string) :
  GetMatch w ptrn' d' (fst (GetMatch w ptrn d o))
  = find_matches ptrn' d' (fst (GetMatch w ptrn d o)).
Proof.
  rewrite (GetMatch_run w ptrn' d'). rewrite GetMatch_m.
  replace (mtime w >? Z.max (_m o) (mtime w)) with false
    by (symmetry; rewrite Z.gtb_ltb; apply Z.ltb_ge; lia).
  now rewrite (bind_run _ _ _ tt) by reflexivity.
Qed.

(** X11: a reload that meets an attachment row whose parent is no item
    with field rows raises and leaves the collections and the documents as
    they were, with the new time recorded: the following searches answer
    from the entries of the load before. *)
Theorem orphan_attachment_keeps_index
    (w : world) (o : ZoteroEntries) (ptrn d : string)
    (pKey : string) (pId : option Z) (aPath : option string) :
  mtime w > _m o ->
  In (pKey, pId, aPath) (attachment_rows (db w)) ->
  orphan (db w) pId = true ->
  (exists x, snd (GetMatch w ptrn d o) = Raise x) /\
  _e (fst (GetMatch w ptrn d o)) = _e o /\
  _d (fst (GetMatch w ptrn d o)) = _d o /\
  _m (fst (GetMatch w ptrn d o)) = mtime w.
Proof.
  intros L I O.
  assert (Tm : _m (fst (GetMatch w ptrn d o)) = mtime w)
    by (rewrite GetMatch_m; lia).
  assert (Td : _d (fst (GetMatch w ptrn d o)) = _d o) by apply GetMatch_d.
  cut (exists x, GetMatch w ptrn d o = (fst (GetMatch w ptrn d o), Raise x) /\
                 _e (fst (GetMatch w ptrn d o)) = _e o).
  { intros (x & E & Te). repeat split; auto. exists x. now rewrite E. }
  rewrite GetMatch_run.
  replace (mtime w >? _m o) with true by (symmetry; apply Z.gtb_lt; lia).
  cut (exists x, _load_zotero_data w o = (fst (_load_zotero_data w o), Raise x) /\
                 _e (fst (_load_zotero_data w o)) = _e o).
  { intros (x & E & Te). exists x.
    rewrite (bind_fail _ _ _ x) by now rewrite E. cbn [fst]. auto. }
  unfold _load_zotero_data. rewrite (bind_run _ _ _ tt) by reflexivity.
  set (s0 := fst (modify (fun o => set_m o (mtime w)) o)).
  assert (E0 : _e s0 = _e o) by reflexivity.
  destruct (load_items (db w) s0) as [s1 [[]|x]] eqn:R1.
  - assert (E1 : _e s1 = _e o).
    { change s1 with (fst (s1, @Ok unit tt)). rewrite <- R1.
      now rewrite (frame_load_items _e) by reflexivity. }
    rewrite (bind_run _ _ _ tt) by now rewrite R1. rewrite R1. cbn [fst].
    destruct (_add_attachments_stops (attachment_rows (db w)) s1 _ _ _ I)
      as (x & R2).
    { destruct pId as [i|]; [|exact Logic.I].
      change s1 with (fst (s1, @Ok unit tt)). rewrite <- R1.
      rewrite load_items_keys. cbn in O. now apply negb_true_iff. }
    exists x. rewrite (bind_fail _ _ _ _ R2). cbn [fst].
    split; [reflexivity|].
    now rewrite (frame_add_attachments _e) by reflexivity.
  - exists x. rewrite (bind_fail _ _ _ x) by now rewrite R1.
    rewrite R1. cbn [fst]. split; [reflexivity|].
    change s1 with (fst (s1, @Raise unit x)). rewrite <- R1.
    now rewrite (frame_load_items _e) by reflexivity.
Qed.

Lemma orphan_attachment_keeps_index_witness :
  (exists x, snd (GetMatch orphan_world "rise" "paper.md" bound) = Raise x) /\
  _e (fst (GetMatch orphan_world "rise" "paper.md" bound)) = _e bound /\
  _d (fst (GetMatch orphan_world "rise" "paper.md" bound)) = _d bound /\
  _m (fst (GetMatch orphan_world "rise" "paper.md" bound)) = mtime orphan_world.
Proof.
  apply (orphan_attachment_keeps_index orphan_world bound "rise" "paper.md"
           "DDDD" None (Some "storage:loose.pdf")).
  - vm_compute. reflexivity.
  - right. left. reflexivity.
  - reflexivity.
Defined.

(** ** Exports, attachments and information *)

Lemma set_e_same o : set_e o (_e o) = o.
Proof. now destruct o. Qed.

Lemma for_acc_skip {S A B} (l : list A) (body : A -> B -> M S B) (b : B) s :
  (forall x b, In x l -> body x b s = (s, Ok b)) ->
  for_acc l body b s = (s, Ok b).
Proof.
  induction l as [|x r IH]; intro Hb; cbn [for_acc]; [reflexivity|].
  unfold bind. rewrite Hb by now left.
  apply IH. intros y b' I. apply Hb. now right.
Qed.

Lemma In_keys_dget {K V} `{EqKey K} (k : K) (d : dict K V) :
  In k (dkeys d) -> exists v, dget k d = Some v.
Proof.
  intro I. apply dmem_In_keys in I. unfold dmem in I.
  destruct (dget k d) as [v|]; [eauto|discriminate].
Qed.

(** X12: an export whose keys name the Zotero key of no entry returns the
    empty string and leaves the object as it is; the Zotero key that a key
    names is the text before its first number sign. *)
Theorem GetYamlRefs_no_match (keys : list string) (o : ZoteroEntries) :
  (forall c id e, stored (_e o) c id e ->
     exists z, dget "zotkey" e = Some z /\
               Forall (fun k => is_str (Py.sub_rest (Ascii.eqb "#") k) z = false)
                      keys) ->
  GetYamlRefs keys o = (o, Ok "").
Proof.
  intro H. unfold GetYamlRefs. rewrite bind_get.
  match goal with |- bind ?c _ _ = _ => assert (E : c o = (o, Ok "")) end.
  { apply for_acc_skip.
    intros c ref Ic. destruct (In_keys_dget _ _ Ic) as [es G].
    unfold bind at 1, on_e at 1, getitem at 1. rewrite G, set_e_same.
    apply for_acc_skip. intros id ref' Ii.
    destruct (In_keys_dget _ _ Ii) as [e Ge].
    destruct (H c id e) as (z & Gz & F); [now exists es|].
    apply for_acc_skip. intros k ref'' Ik.
    rewrite Forall_forall in F. specialize (F k Ik).
    unfold bind, on_e, at_key, getitem. rewrite G, Ge, Gz. cbn [fst snd].
    rewrite (dset_dget _ _ _ Ge), (dset_dget _ _ _ G), set_e_same.
    now rewrite F. }
  rewrite (bind_run _ _ _ "") by now rewrite E.
  rewrite E. reflexivity.
Qed.

Lemma stored_In ix c id e :
  stored ix c id e -> exists es, In (c, es) ix /\ In (id, e) es.
Proof. intros (es & G & Ge). exists es. split; now apply dget_In. Qed.


(** The loop of [GetAttachment] over the entries of a collection. *)
Lemma attachment_in_run z es ks :
  (forall k, In k ks -> exists e, dget k es = Some e /\ dmem "zotkey" e = true) ->
  (attachment_in z es ks = Ok None /\
   forall k e, In k ks -> dget k es = Some e ->
               dget "zotkey" e <> Some (VStr z)) \/
  (exists k e, In k ks /\ dget k es = Some e /\
               dget "zotkey" e = Some (VStr z) /\
               attachment_in z es ks
               = Ok (Some match dget "attachment" e with
                          | Some a => a
                          | None => VStr "nOaTtAChMeNt"
                          end)).
Proof.
  induction ks as [|k ks IH]; intro H; cbn [attachment_in].
  - left. split; [reflexivity|]. intros k e [].
  - destruct (H k (or_introl eq_refl)) as (e & G & D). rewrite G.
    unfold field, dmem in *.
    destruct (dget "zotkey" e) as [v|] eqn:Gz; [|discriminate].
    cbn [rbind]. destruct (is_str z v) eqn:Y.
    + right. exists k, e. split; [now left|]. split; [exact G|].
      assert (Ev : v = VStr z).
      { destruct v as [|s|l]; try discriminate. cbn in Y.
        apply String.eqb_eq in Y. now subst. }
      split; [now rewrite Gz, Ev|].
      now destruct (dget "attachment" e).
    + destruct IH as [[R N]|(k' & e' & I & G' & Z' & R)].
      * intros k' I. apply H. now right.
      * left. split; [exact R|]. intros k' e' [<-|I] G'; [|eauto].
        rewrite G in G'. injection G' as <-. rewrite Gz. intros [= ->].
        cbn in Y. now rewrite String.eqb_refl in Y.
      * right. exists k', e'. split; [now right|]. auto.
Qed.

Lemma attachment_among_run z ix cs :
  (forall c id e, stored ix c id e -> dmem "zotkey" e = true) ->
  (forall c, In c cs -> dmem c ix = true) ->
  (attachment_among z ix cs = Ok None /\
   forall c id e, In c cs -> stored ix c id e ->
                  dget "zotkey" e <> Some (VStr z)) \/
  (exists c id e, stored ix c id e /\
                  dget "zotkey" e = Some (VStr z) /\
                  attachment_among z ix cs
                  = Ok (Some match dget "attachment" e with
                             | Some a => a
                             | None => VStr "nOaTtAChMeNt"
                             end)).
Proof.
  intro H. induction cs as [|c cs IH]; intro D; cbn [attachment_among].
  - left. split; [reflexivity|]. intros c id e [].
  - pose proof (D c (or_introl eq_refl)) as Dc. unfold dmem in Dc.
    destruct (dget c ix) as [es|] eqn:G; [|discriminate].
    destruct (attachment_in_run z es (dkeys es))
      as [[R N]|(k & e & I & Ge & Z & R)].
    + intros k I. destruct (In_keys_dget _ _ I) as [e Ge].
      exists e. split; [exact Ge|]. apply (H c k e). now exists es.
    + rewrite R. cbn [rbind].
      destruct IH as [[R' N']|(c' & id & e & S & Z & R')].
      * intros c' I. apply D. now right.
      * left. split; [exact R'|].
        intros c' id e [<-|I] S; [|eauto].
        destruct S as (es' & G' & Ge). rewrite G in G'. injection G' as <-.
        apply (N id e); auto.
        apply dmem_In_keys. unfold dmem. now rewrite Ge.
      * right. exists c', id, e. auto.
    + rewrite R. cbn [rbind]. right. exists c, k, e.
      split; [now exists es|]. auto.
Qed.

(** X13: on collections whose entries all have a Zotero key, as a load
    leaves them, [GetAttachment] never raises and leaves the object as it
    is; either no entry has the Zotero key asked for and it returns the
    text nOcItEkEy, or it returns the attachment of an entry that has this
    Zotero key, or the text nOaTtAChMeNt when that entry has none. *)
Theorem GetAttachment_result (zotkey : string) (o : ZoteroEntries) :
  (forall c id e, stored (_e o) c id e -> dmem "zotkey" e = true) ->
  (GetAttachment zotkey o = (o, Ok (VStr "nOcItEkEy")) /\
   forall c id e, stored (_e o) c id e ->
                  dget "zotkey" e <> Some (VStr zotkey)) \/
  (exists c id e, stored (_e o) c id e /\
                  dget "zotkey" e = Some (VStr zotkey) /\
                  GetAttachment zotkey o
                  = (o, Ok match dget "attachment" e with
                           | Some a => a
                           | None => VStr "nOaTtAChMeNt"
                           end)).
Proof.
  intro H. unfold GetAttachment. rewrite bind_get. unfold bind, lift, ret.
  destruct (attachment_among_run zotkey (_e o) (dkeys (_e o)) H)
    as [[R N]|(c & id & e & S & Z & R)].
  - intros c I. now apply dmem_In_keys.
  - rewrite R. left. split; [reflexivity|].
    intros c id e S. apply (N c id e); auto.
    destruct S as (es & G & _). apply dmem_In_keys. unfold dmem. now rewrite G.
  - rewrite R. right. exists c, id, e. auto.
Qed.

Lemma nrefs_of_unfiled ix cs :
  (forall c, In c cs -> dmem c ix = true) ->
  if existsb (keqb None) cs then nrefs_of ix cs = Raise TypeError
  else exists lines, nrefs_of ix cs = Ok lines.
Proof.
  induction cs as [|c cs IH]; intro D; cbn [existsb nrefs_of]; [eauto|].
  assert (IH' := IH (fun c' I => D c' (or_intror I))).
  pose proof (D c (or_introl eq_refl)) as Dc. unfold dmem in Dc.
  destruct c as [name|]; [|reflexivity].
  change (keqb None (Some name)) with false. cbn [orb nref rbind].
  destruct (dget (Some name) ix) as [es|]; [|discriminate]. cbn [rbind].
  destruct (existsb (keqb None) cs).
  - now rewrite IH'.
  - destruct IH' as [lines ->]. cbn [rbind]. eauto.
Qed.

(** X14: [Info] raises [TypeError] when the collections have the key
    None, under which the items that are in no collection are stored, and
    returns otherwise; it leaves the object as it is. *)
Theorem Info_unfiled (realpath tmp : string) (o : ZoteroEntries) :
  fst (Info realpath tmp o) = o /\
  if dmem None (_e o) then snd (Info realpath tmp o) = Raise TypeError
  else exists i, snd (Info realpath tmp o) = Ok i.
Proof.
  unfold Info. rewrite bind_get. unfold bind, lift, ret.
  pose proof (nrefs_of_unfiled (_e o) (dkeys (_e o))
                (fun c I => proj2 (dmem_In_keys c (_e o)) I)) as N.
  assert (E : existsb (keqb None) (dkeys (_e o)) = dmem None (_e o)).
  { destruct (dmem None (_e o)) eqn:D.
    - apply existsb_exists. exists None. split; [|reflexivity].
      now apply dmem_In_keys.
    - destruct (existsb (keqb None) (dkeys (_e o))) eqn:X; [|reflexivity].
      apply existsb_exists in X as (c & I & Y).
      destruct c; [discriminate|]. apply dmem_In_keys in I. congruence. }
  rewrite E in N. destruct (dmem None (_e o)).
  - rewrite N. auto.
  - destruct N as [lines ->]. cbn. eauto.
Qed.

Lemma all_stored_spec f ix :
  all_stored f ix = true -> forall c id e, stored ix c id e -> f e = true.
Proof.
  intros A c id e S. apply stored_In in S as (es & Ic & Ie).
  unfold all_stored in A. rewrite forallb_forall in A.
  specialize (A _ Ic). cbn [snd] in A. rewrite forallb_forall in A.
  exact (A _ Ie).
Qed.

Lemma GetYamlRefs_no_match_witness :
  GetYamlRefs ["ZZZZ#nobody2020"] bound = (bound, Ok "").
Proof.
  apply (GetYamlRefs_no_match ["ZZZZ#nobody2020"] bound).
  intros c id e S.
  assert (A : all_stored (unnamed ["ZZZZ#nobody2020"]) (_e bound) = true)
    by (vm_compute; reflexivity).
  pose proof (all_stored_spec _ _ A c id e S) as U. unfold unnamed in U.
  destruct (dget "zotkey" e) as [z|]; [|discriminate].
  exists z. split; [reflexivity|].
  apply Forall_forall. intros k I. rewrite forallb_forall in U.
  apply negb_true_iff. exact (U k I).
Defined.

Lemma GetAttachment_result_witness :
  (GetAttachment "AAAA" bound = (bound, Ok (VStr "nOcItEkEy")) /\
   forall c id e, stored (_e bound) c id e ->
                  dget "zotkey" e <> Some (VStr "AAAA")) \/
  (exists c id e, stored (_e bound) c id e /\
                  dget "zotkey" e = Some (VStr "AAAA") /\
                  GetAttachment "AAAA" bound
                  = (bound, Ok match dget "attachment" e with
                               | Some a => a
                               | None => VStr "nOaTtAChMeNt"
                               end)).
Proof.
  apply (GetAttachment_result "AAAA" bound).
  apply all_stored_spec. vm_compute. reflexivity.
Defined.

Example GetAttachment_library :
  map (fun z => snd (GetAttachment z bound)) ["AAAA"; "BBBB"; "CCCC"]
  = [Ok (VStr "CCCC:storage:rise.pdf"); Ok (VStr "nOaTtAChMeNt");
     Ok (VStr "nOcItEkEy")].
Proof. vm_compute. reflexivity. Qed.

(** ** Keys *)

Lemma sub_rest_dropping cls s :
  Py.smem Py.nl s = false -> Py.sub_rest_from cls true s = "".
Proof.
  induction s as [|c s IH]; cbn [Py.smem Py.sub_rest_from]; [reflexivity|].
  intro E. apply orb_false_iff in E as [N E].
  rewrite Ascii.eqb_sym in N. rewrite N. auto.
Qed.

Lemma sub_rest_hash z rest :
  Py.smem "#" z = false -> Py.smem Py.nl rest = false ->
  Py.sub_rest (Ascii.eqb "#") (z ++ "#" ++ rest) = z.
Proof.
  intros Hz Hr. unfold Py.sub_rest.
  induction z as [|c z IH]; cbn [append Py.sub_rest_from].
  - change (("#" =? "#")%char) with true. cbv iota.
    now apply sub_rest_dropping.
  - cbn [Py.smem] in Hz. apply orb_false_iff in Hz as [N Hz].
    rewrite N. f_equal. auto.
Qed.

(** X15: the key that a completion line offers, the text before its first
    tab, made of the Zotero key, a number sign and the citation key, is
    mapped back to the Zotero key of the entry by the export, which keeps
    the text before the first number sign, for a Zotero key without number
    sign and a citation key without line break. *)
Theorem completion_key_names_entry (e : entry) (line z c : string) :
  dget "zotkey" e = Some (VStr z) ->
  dget "citekey" e = Some (VStr c) ->
  Py.smem "#" z = false ->
  Py.smem Py.nl c = false ->
  _get_compl_line e = Ok line ->
  (exists rest, line = z ++ "#" ++ c ++ String Py.tab rest) /\
  is_str (Py.sub_rest (Ascii.eqb "#") (z ++ "#" ++ c)) (VStr z) = true.
Proof.
  intros Gz Gc Hz Hc L. split.
  - revert L. unfold _get_compl_line, str_field, field. rewrite Gz, Gc.
    destruct (dget "alastnm" e) as [a|]; [|discriminate]. cbn [rbind as_str].
    destruct (is_str "" a).
    + destruct (dget "year" e) as [[|y|]|]; cbn [rbind as_str];
        try discriminate.
      destruct (dget "title" e) as [[|t|]|]; cbn [rbind as_str];
        try discriminate.
      intros [= <-]. eexists. reflexivity.
    + destruct a as [|a|]; cbn [rbind as_str]; try discriminate.
      destruct (dget "year" e) as [[|y|]|]; cbn [rbind as_str];
        try discriminate.
      destruct (dget "title" e) as [[|t|]|]; cbn [rbind as_str];
        try discriminate.
      intros [= <-]. eexists. reflexivity.
  - rewrite sub_rest_hash by assumption. cbn. apply String.eqb_refl.
Qed.

Lemma completion_key_names_entry_witness :
  (exists rest,
     "AAAA#Smith_2020" ++ String Py.tab
       ("Smith, O'Brien" ++ String Py.tab "(2020) The Rise of Systems")
     = "AAAA" ++ "#" ++ "Smith_2020" ++ String Py.tab rest) /\
  is_str (Py.sub_rest (Ascii.eqb "#") ("AAAA" ++ "#" ++ "Smith_2020"))
         (VStr "AAAA") = true.
Proof.
  apply (completion_key_names_entry library_article).
  - vm_compute. reflexivity.
  - vm_compute. reflexivity.
  - vm_compute. reflexivity.
  - vm_compute. reflexivity.
  - vm_compute. reflexivity.
Defined.

(** X16: when a load completes, the citation key of every entry of every
    collection is a string without space, whatever the template and the
    banned words: the last substitution removes the spaces that the
    template and the names put in. *)
Theorem citekeys_without_space (w : world) (o : ZoteroEntries) :
  snd (_load_zotero_data w o) = Ok tt ->
  forall c es id e,
    In (c, es) (_e (fst (_load_zotero_data w o))) -> In (id, e) es ->
    exists key, dget "citekey" e = Some (VStr key) /\ Py.smem " " key = false.
Proof.
  intro R.
  apply (load_stores (fun _ => True)
           (fun e => exists key, dget "citekey" e = Some (VStr key) /\
                                 Py.smem " " key = false)
           (fun _ _ e => exists key, dget "citekey" e = Some (VStr key) /\
                                     Py.smem " " key = false)
           w); auto.
  - intros cite w' e _ a Ra.
    destruct (calculate_citekey_sets cite w' e a Ra) as (l & y & t & G).
    eexists. split; [exact G|]. unfold fill_template. apply sub_plain_space.
  - intros e s (key & G & N). exists key. split; [|exact N].
    unfold trimmed. now rewrite dget_dset_other by discriminate.
  - intros k e ety s c ck _ [_ (key & G & N)] _ _ _ _ _ _.
    exists key. split; [|exact N].
    unfold trimmed. now rewrite dget_dset_other by discriminate.
Qed.

Lemma citekeys_without_space_witness :
  exists key, dget "citekey" library_article = Some (VStr key) /\
              Py.smem " " key = false.
Proof.
  apply (citekeys_without_space {| mtime := 10; db := library |} blank)
    with (c := Some "Papers") (es := library_papers) (id := "1").
  - vm_compute. reflexivity.
  - vm_compute. left. reflexivity.
  - vm_compute. left. reflexivity.
Defined.

(** ** The author names of an entry *)

Lemma for_each_inv_in {S A} (I : S -> Prop) (l : list A) (body : A -> M S unit) :
  (forall x s, In x l -> I s -> I (fst (body x s))) ->
  forall s, I s -> I (fst (for_each l body s)).
Proof.
  induction l as [|x r IH]; intros Hb s Is; cbn [for_each]; [exact Is|].
  apply bind_inv.
  - apply Hb; [now left|exact Is].
  - intros _ s' Is'. apply IH; [|exact Is'].
    intros y s'' Iy. apply Hb. now right.
Qed.

Lemma item_at_inv (P : Z -> entry -> Prop) {A} i (c : M entry A) o :
  (forall e, P i e -> P i (fst (c e))) ->
  items_at P o -> items_at P (fst (on_t (at_key i c) o)).
Proof.
  intros Hc J. unfold on_t, at_key.
  destruct (dget i (_t o)) as [e|] eqn:G; [|exact J].
  specialize (Hc e (J _ _ G)).
  destruct (c e) as [e' r]. cbn [fst snd] in *. intros j x Gj. cbn in Gj.
  destruct (Z.eq_dec i j) as [<-|N].
  - rewrite dget_dset_same in Gj. now injection Gj as <-.
  - rewrite dget_dset_other in Gj by exact N. eauto.
Qed.

Lemma when_item_at_inv (P : Z -> entry -> Prop) i (c : M entry unit) o :
  (forall e, P i e -> P i (fst (c e))) ->
  items_at P o -> items_at P (fst (when_item i c o)).
Proof.
  intros Hc J. rewrite when_item_run.
  destruct (dget i (_t o)) as [e|] eqn:G; [|exact J].
  cbn [fst]. intros j x Gj. cbn in Gj.
  destruct (Z.eq_dec i j) as [<-|N].
  - rewrite dget_dset_same in Gj. injection Gj as <-. eauto.
  - rewrite dget_dset_other in Gj by exact N. eauto.
Qed.

Lemma iadd_item_keeps f g x e :
  f <> g -> dget f (fst (iadd_item g x e)) = dget f e.
Proof.
  intro N. unfold iadd_item, bind, getitem, lift, setitem, modify.
  destruct (dget g e) as [v|]; cbn [fst]; [|reflexivity].
  destruct (iadd v x) as [v'|]; cbn [fst]; [|reflexivity].
  apply dget_dset_other. congruence.
Qed.

Lemma calculate_citekey_keeps f cite w e :
  f <> "year" -> f <> "title" -> f <> "citekey" ->
  dget f (fst (calculate_citekey cite w e)) = dget f e.
Proof.
  intros Ny Nt Nc. unfold calculate_citekey.
  pose (I := fun s : entry => dget f s = dget f e).
  assert (Read : forall k s, I s -> I (fst (@getitem string value _ k s))).
  { intros k s Is. unfold getitem. now destruct (dget k s). }
  assert (Set_ : forall g v s, f <> g -> I s -> I (fst (setitem g v s))).
  { intros g v s N Is. unfold I, setitem, modify in *. cbn [fst].
    rewrite dget_dset_other by congruence. exact Is. }
  change (I (fst (calculate_citekey cite w e))). unfold calculate_citekey.
  apply (bind_inv I); [reflexivity|intros has_date s1 I1].
  apply (bind_inv I); [|intros year s2 I2].
  { destruct has_date; [|exact I1].
    apply (bind_inv I); [now apply Read|intros d s I'].
    apply (bind_inv I); [exact I'|auto]. }
  apply (bind_inv I); [now apply Set_|intros _ s3 I3].
  apply (bind_inv I); [exact I3|intros has_title s4 I4].
  apply (bind_inv I); [|intros titlew s5 I5].
  { destruct has_title.
    - apply (bind_inv I); [now apply Read|intros d s I'].
      apply (bind_inv I); [exact I'|auto].
    - apply (bind_inv I); [now apply Set_|auto]. }
  apply (bind_inv I); [exact I5|intros has_author s6 I6].
  apply (bind_inv I); [|intros lastname s7 I7].
  { destruct has_author; [|exact I6].
    apply (bind_inv I); [now apply Read|intros d s I'].
    apply (bind_inv I); [exact I'|auto]. }
  apply (bind_inv I); [exact I7|intros lastname' s8 I8].
  now apply Set_.
Qed.

(** One row of the creator query, on an entry whose author names are the
    string [a]. *)
Lemma authors_row_alastnm ctype lastname firstname e a :
  dget "alastnm" e = Some (VStr a) ->
  snd ((e <- get ;;
        (if dmem ctype e then
           v <- getitem ctype ;;
           v' <- lift (iadd v (VList [VList [VStr lastname; VStr firstname]])) ;;
           setitem ctype v'
         else setitem ctype (VList [VList [VStr lastname; VStr firstname]])) ;;
        if (ctype =? "author")%string then
          a <- getitem "alastnm" ;;
          a' <- lift (iadd a (VStr (", " ++ lastname))) ;;
          setitem "alastnm" a'
        else ret tt) e) = Ok tt ->
  dget "alastnm"
    (fst ((e <- get ;;
        (if dmem ctype e then
           v <- getitem ctype ;;
           v' <- lift (iadd v (VList [VList [VStr lastname; VStr firstname]])) ;;
           setitem ctype v'
         else setitem ctype (VList [VList [VStr lastname; VStr firstname]])) ;;
        if (ctype =? "author")%string then
          a <- getitem "alastnm" ;;
          a' <- lift (iadd a (VStr (", " ++ lastname))) ;;
          setitem "alastnm" a'
        else ret tt) e))
  = Some (VStr (a ++ if (ctype =? "author")%string
                     then ", " ++ lastname else "")).
Proof.
  intros G R. rewrite bind_get in *.
  destruct (bind_ok _ _ _ _ R) as ([] & R1 & E). rewrite E in *. clear E.
  match goal with
  | _ : snd (?c e) = Ok tt |- _ => set (e1 := fst (c e)) in *;
      assert (G1 : dget "alastnm" e1 = Some (VStr a))
  end.
  { unfold e1. destruct (dmem ctype e) eqn:D.
    - destruct (string_dec ctype "alastnm") as [->|N].
      + exfalso. revert R1. unfold bind, getitem, lift. rewrite G.
        discriminate.
      + change (dget "alastnm" (fst (iadd_item ctype
                  (VList [VList [VStr lastname; VStr firstname]]) e))
                = Some (VStr a)).
        rewrite iadd_item_keeps by congruence. exact G.
    - unfold setitem, modify. cbn [fst].
      rewrite dget_dset_other; [exact G|].
      intros ->. unfold dmem in D. rewrite G in D. discriminate. }
  destruct (ctype =? "author")%string.
  - unfold bind, getitem, lift, setitem, modify. rewrite G1. cbn [iadd fst].
    apply dget_dset_same.
  - cbn [ret fst]. now rewrite append_empty.
Qed.

Lemma string_app_assoc (a b c : string) : (a ++ b) ++ c = a ++ b ++ c.
Proof. induction a as [|x a IH]; cbn; [reflexivity|now rewrite IH]. Qed.

(** The loop of [_add_authors], when it completes: each row of an author
    appends a comma, a space and the last name. *)
Lemma add_authors_alastnm rows : forall o (A : Z -> string),
  items_at (fun k e => dget "alastnm" e = Some (VStr (A k))) o ->
  snd (_add_authors rows o) = Ok tt ->
  items_at (fun k e => dget "alastnm" e
                       = Some (VStr (A k ++ names_suffix (authors_of k rows))))
           (fst (_add_authors rows o)).
Proof.
  unfold _add_authors.
  induction rows as [|[[[i ctype] lastname] firstname] r IH]; intros o A J R.
  - intros k e G. cbn. rewrite append_empty. exact (J k e G).
  - cbn [for_each] in *.
    destruct (bind_ok _ _ _ _ R) as ([] & R1 & E). rewrite E in *. clear E.
    set (o1 := fst (when_item i _ o)) in *.
    pose (A' := fun k => A k ++ if (i =? k) && (ctype =? "author")%string
                                then ", " ++ lastname else "").
    assert (J1 : items_at (fun k e => dget "alastnm" e = Some (VStr (A' k))) o1).
    { unfold o1. rewrite when_item_run in *.
      destruct (dget i (_t o)) as [ei|] eqn:Gi; cbn [fst snd] in *.
      - intros k e G. cbn in G. unfold A'.
        destruct (Z.eqb_spec i k) as [<-|N].
        + rewrite dget_dset_same in G. injection G as <-. cbn [andb].
          now apply authors_row_alastnm; [apply (J i)|].
        + rewrite dget_dset_other in G by exact N. cbn [andb].
          rewrite append_empty. exact (J k e G).
      - intros k e G. unfold A'.
        destruct (Z.eqb_spec i k) as [<-|N]; [congruence|].
        cbn [andb]. rewrite append_empty. exact (J k e G). }
    intros k e G. rewrite (IH o1 A' J1 R k e G). unfold A'.
    cbn [authors_of flat_map]. rewrite string_app_assoc.
    destruct ((i =? k) && (ctype =? "author")%string); cbn; reflexivity.
Qed.

Lemma substring_all s : substring 0 (String.length s) s = s.
Proof. induction s as [|c s IH]; cbn; [reflexivity|now rewrite IH]. Qed.

Lemma strip_comma s : Py.strip_prefix ", " (", " ++ s) = s.
Proof.
  unfold Py.strip_prefix. cbn [append prefix String.length Nat.sub substring].
  destruct (ascii_dec "," ",") as [_|N]; [|now contradiction N].
  destruct (ascii_dec " " " ") as [_|N]; [|now contradiction N].
  rewrite Nat.sub_0_r.
  replace (prefix "" s) with true by now destruct s.
  apply substring_all.
Qed.

Lemma names_suffix_join ls :
  Py.strip_prefix ", " (names_suffix ls) = Py.join ", " ls.
Proof.
  destruct ls as [|l r]; [reflexivity|].
  cbn [names_suffix fold_right].
  change (", " ++ l ++ fold_right (fun l s => ", " ++ l ++ s) "" r)
    with (", " ++ (l ++ names_suffix r)).
  rewrite strip_comma. revert l.
  induction r as [|l' r IH]; intro l; cbn [names_suffix fold_right Py.join].
  - apply append_empty.
  - f_equal. f_equal. apply IH.
Qed.

(** The keys of the working dictionary are distinct, as the keys of a
    dictionary are. *)
Lemma NoDup_dset {K V} `{EqKey K} (k : K) (v : V) (d : dict K V) :
  NoDup (dkeys d) -> NoDup (dkeys (dset k v d)).
Proof.
  induction d as [|[k0 v0] r IH]; cbn [dset dkeys map fst].
  - intros _. constructor; [intros []|constructor].
  - intro N. inversion N as [|? ? Nk Nr]; subst.
    destruct (keqb_spec k k0) as [->|D]; cbn [map fst]; [exact N|].
    constructor; [|now apply IH].
    intro I. apply Nk. apply dmem_In_keys in I. apply dmem_In_keys.
    rewrite dmem_dset in I. rewrite keqb_neq in I by congruence. exact I.
Qed.

Lemma item_keys_NoDup {A} i (c : M entry A) o :
  NoDup (dkeys (_t o)) -> NoDup (dkeys (_t (fst (on_t (at_key i c) o)))).
Proof.
  intro N. unfold on_t, at_key.
  destruct (dget i (_t o)) as [e|]; [|exact N].
  destruct (c e) as [e' r]. cbn [fst _t set_t]. now apply NoDup_dset.
Qed.

Lemma when_item_NoDup i (c : M entry unit) o :
  NoDup (dkeys (_t o)) -> NoDup (dkeys (_t (fst (when_item i c o)))).
Proof.
  intro N. rewrite when_item_run.
  destruct (dget i (_t o)) as [e|]; [|exact N].
  cbn [fst _t set_t]. now apply NoDup_dset.
Qed.

Lemma loaded_NoDup w o :
  NoDup (dkeys (_t (fst (_calculate_citekeys
                           (fst (_add_attachments (attachment_rows (db w))
                                   (fst (load_items (db w) o)))))))).
Proof.
  pose (I := fun s : ZoteroEntries => NoDup (dkeys (_t s))).
  change (I (fst (_calculate_citekeys
                    (fst (_add_attachments (attachment_rows (db w))
                            (fst (load_items (db w) o))))))).
  unfold _calculate_citekeys. rewrite bind_get.
  apply (for_each_inv I); [intros k s Is; now apply item_keys_NoDup|].
  apply (for_each_inv I).
  { intros [[pKey [i|]] [path|]] s Is; try exact Is.
    now apply item_keys_NoDup. }
  unfold load_items.
  apply (bind_inv I); [|intros _ s1 I1].
  { unfold _add_most_fields. apply (bind_inv I); [constructor|].
    intros _ s Is. apply (for_each_inv I); [|exact Is].
    intros [[[i key] f] v] s' I'. unfold add_field. rewrite bind_get.
    apply (bind_inv I).
    - destruct (dmem i (_t s')); [exact I'|].
      unfold I, on_t, setitem, modify. cbn [fst _t set_t]. now apply NoDup_dset.
    - intros _ s'' I''. now apply item_keys_NoDup. }
  apply (bind_inv I); [|intros _ s2 I2].
  { apply (for_each_inv I); [|exact I1].
    intros [i c] s Is. now apply when_item_NoDup. }
  apply (bind_inv I); [|intros _ s3 I3].
  { apply (for_each_inv I); [|exact I2].
    intros [[[i c] l] f] s Is. now apply when_item_NoDup. }
  apply (bind_inv I); [|intros _ s4 I4].
  { apply (for_each_inv I); [|exact I3].
    intros [i c] s Is. now apply when_item_NoDup. }
  apply (bind_inv I); [|intros _ s5 I5].
  { apply (for_each_inv I); [|exact I4].
    intros [i c] s Is. now apply when_item_NoDup. }
  apply (for_each_inv I); [|exact I5].
  intros [i c] s Is. now apply when_item_NoDup.
Qed.

Section SeparateOnce.
Variable P : Z -> entry -> Prop.
Variable Q : option string -> string -> entry -> Prop.
Variable deleted : list Z.
Hypothesis Q_stored : forall k e ety s c ck,
  P k e ->
  existsb (Z.eqb k) deleted = false ->
  dget "etype" e = Some ety -> is_str "attachment" ety = false ->
  dget "alastnm" e = Some (VStr s) ->
  dget "collection" e = Some c -> as_ckey c = Ok ck ->
  Q ck (Py.str_of_int k) (trimmed e s).

(** The loop of [_separate_by_collection] over distinct keys: each entry
    is stored as it is met, with its author names trimmed once. *)
Lemma separate_loop_once ks : NoDup ks -> forall o,
  (forall k e, In k ks -> dget k (_t o) = Some e -> P k e) ->
  index_all Q (_e o) ->
  snd (for_each ks (separate_item deleted) o) = Ok tt ->
  index_all Q (_e (fst (for_each ks (separate_item deleted) o))).
Proof.
  induction 1 as [|k ks Nk N IH]; intros o J Je R; [exact Je|].
  cbn [for_each] in *.
  destruct (bind_ok _ _ _ _ R) as ([] & R1 & E). rewrite E in *. clear E.
  destruct (separate_item_run _ _ _ R1)
    as [[E _]|(e & ety & s & c & ck & X & G & T & Y & Ga & Gc & Ck & E)];
    rewrite E in *.
  - apply IH; auto. intros k' e' I'. apply J. now right.
  - apply IH; [| |exact R].
    + intros k' e' I' G'. cbn in G'.
      rewrite dget_dset_other in G' by (intros ->; contradiction).
      apply (J k' e'); [now right|exact G'].
    + cbn [_e set_e]. apply index_all_store; [exact Je|].
      apply (Q_stored k e ety s c ck); auto. apply J; [now left|exact G].
Qed.

Lemma _separate_by_collection_once o :
  NoDup (dkeys (_t o)) ->
  items_at P o ->
  snd (_separate_by_collection deleted o) = Ok tt ->
  index_all Q (_e (fst (_separate_by_collection deleted o))).
Proof.
  intros N J R. unfold _separate_by_collection in *.
  rewrite (bind_run _ _ _ tt) in * by reflexivity. rewrite bind_get in *.
  set (o0 := fst (on_e (put []) o)) in *.
  apply (separate_loop_once (dkeys (_t o0))); [exact N| | |exact R].
  - intros k e _ G. exact (J k e G).
  - intros c es id e [].
Qed.
End SeparateOnce.

Lemma add_fields_alastnm rows o :
  Forall (fun row => field_of row <> "alastnm") rows ->
  items_at (fun _ e => dget "alastnm" e = Some (VStr ""))
           (fst (_add_most_fields rows o)).
Proof.
  intro F. rewrite Forall_forall in F. unfold _add_most_fields.
  pose (I := items_at (fun _ e => dget "alastnm" e = Some (VStr ""))).
  apply (bind_inv I); [intros k e G; discriminate G|].
  intros _ s Is. apply (for_each_inv_in I); [|exact Is].
  intros [[[i key] f] v] s' Ir I'. specialize (F _ Ir). cbn in F.
  unfold add_field. rewrite bind_get. apply (bind_inv I).
  - destruct (dmem i (_t s')); [exact I'|].
    intros k e G. cbn in G. destruct (Z.eq_dec i k) as [<-|N].
    + rewrite dget_dset_same in G. now injection G as <-.
    + rewrite dget_dset_other in G by exact N. exact (I' k e G).
  - intros _ s'' I''. apply item_at_inv; [|exact I''].
    intros e G. unfold setitem, modify. cbn [fst].
    rewrite dget_dset_other by exact F. exact G.
Qed.

(** The author names of the items when the entries are separated. *)
Lemma loaded_alastnm w o :
  Forall (fun row => field_of row <> "alastnm") (field_rows (db w)) ->
  snd (load_items (db w) o) = Ok tt ->
  items_at (fun k e => dget "alastnm" e
                       = Some (VStr (names_suffix
                                       (authors_of k (creator_rows (db w))))))
    (fst (_calculate_citekeys
            (fst (_add_attachments (attachment_rows (db w))
                    (fst (load_items (db w) o)))))).
Proof.
  intros F R.
  pose (I := items_at (fun k e => dget "alastnm" e
                         = Some (VStr (names_suffix
                                         (authors_of k (creator_rows (db w))))))).
  assert (Set_ : forall g v k e, g <> "alastnm" ->
            dget "alastnm" e = Some (VStr (names_suffix
                                 (authors_of k (creator_rows (db w))))) ->
            dget "alastnm" (fst (setitem g v e))
            = Some (VStr (names_suffix (authors_of k (creator_rows (db w)))))).
  { intros g v k e N G. unfold setitem, modify. cbn [fst].
    now rewrite dget_dset_other by exact N. }
  unfold _calculate_citekeys. rewrite bind_get.
  apply (for_each_inv I).
  { intros k s Is. apply item_at_inv; [|exact Is].
    intros e G. now rewrite calculate_citekey_keeps by discriminate. }
  apply (for_each_inv I).
  { intros [[pKey [i|]] [path|]] s Is; try exact Is.
    apply item_at_inv; [|exact Is]. intros e G. now apply Set_. }
  unfold load_items in *.
  destruct (bind_ok _ _ _ _ R) as ([] & _ & E). rewrite E in *. clear E.
  set (s1 := fst (_add_most_fields (field_rows (db w)) o)) in *.
  destruct (bind_ok _ _ _ _ R) as ([] & _ & E). rewrite E in *. clear E.
  set (s2 := fst (_add_collection (collection_rows (db w)) s1)) in *.
  destruct (bind_ok _ _ _ _ R) as ([] & Ra & E). rewrite E in *. clear E.
  set (s3 := fst (_add_authors (creator_rows (db w)) s2)) in *.
  assert (J2 : items_at (fun _ e => dget "alastnm" e = Some (VStr "")) s2).
  { apply (for_each_inv (items_at (fun _ e => dget "alastnm" e = Some (VStr "")))).
    - intros [i c] s Is. apply when_item_at_inv; [|exact Is].
      intros e G. unfold setitem, modify. cbn [fst].
      now rewrite dget_dset_other by discriminate.
    - now apply add_fields_alastnm. }
  assert (J3 : I s3).
  { exact (add_authors_alastnm (creator_rows (db w)) s2 (fun _ => "") J2 Ra). }
  apply (bind_inv I); [|intros _ s4 I4].
  { apply (for_each_inv I); [|exact J3].
    intros [i c] s Is. apply when_item_at_inv; [|exact Is].
    intros e G. now apply Set_. }
  apply (bind_inv I); [|intros _ s5 I5].
  { apply (for_each_inv I); [|exact I4].
    intros [i c] s Is. apply when_item_at_inv; [|exact Is].
    intros e G. now apply Set_. }
  apply (for_each_inv I); [|exact I5].
  intros [i c] s Is. apply when_item_at_inv; [|exact Is].
  intros e G.
  change (dget "alastnm" (fst (iadd_item "tags" (VList [VStr c]) e))
          = Some (VStr (names_suffix (authors_of i (creator_rows (db w)))))).
  now rewrite iadd_item_keeps by discriminate.
Qed.

(** X17: when a load completes on a data base that has no field of the
    name alastnm, the author names of every entry are the last names of
    the rows that give its item an author, in the order of the rows,
    joined by a comma and a space; the creators of another role are not
    among them, and an item without author has the empty string. *)
Theorem alastnm_joins_authors (w : world) (o : ZoteroEntries) :
  Forall (fun row => field_of row <> "alastnm") (field_rows (db w)) ->
  snd (_load_zotero_data w o) = Ok tt ->
  forall c es id e,
    In (c, es) (_e (fst (_load_zotero_data w o))) -> In (id, e) es ->
    exists k, id = Py.str_of_int k /\
              dget "alastnm" e
              = Some (VStr (Py.join ", " (authors_of k (creator_rows (db w))))).
Proof.
  intros F R. unfold _load_zotero_data in *.
  destruct (bind_ok _ _ _ _ R) as ([] & _ & E0). rewrite E0 in *. clear E0.
  set (s0 := fst (modify (fun o => set_m o (mtime w)) o)) in *.
  destruct (bind_ok _ _ _ _ R) as ([] & R1 & E1). rewrite E1 in *. clear E1.
  destruct (bind_ok _ _ _ _ R) as ([] & _ & E2). rewrite E2 in *. clear E2.
  destruct (bind_ok _ _ _ _ R) as ([] & _ & E3). rewrite E3 in *. clear E3.
  apply (_separate_by_collection_once
           (fun k e => dget "alastnm" e
                       = Some (VStr (names_suffix
                                       (authors_of k (creator_rows (db w))))))
           (fun _ id e =>
              exists k, id = Py.str_of_int k /\
                        dget "alastnm" e
                        = Some (VStr (Py.join ", "
                                        (authors_of k (creator_rows (db w))))))
           (deleted_rows (db w))).
  - intros k e ety s c ck G _ _ _ Ga _ _. exists k. split; [reflexivity|].
    unfold trimmed. rewrite dget_dset_same.
    rewrite G in Ga. injection Ga as <-. now rewrite names_suffix_join.
  - apply loaded_NoDup.
  - now apply loaded_alastnm.
  - exact R.
Qed.

Lemma alastnm_joins_authors_witness :
  exists k, "1" = Py.str_of_int k /\
            dget "alastnm" library_article
            = Some (VStr (Py.join ", " (authors_of k (creator_rows library)))).
Proof.
  apply (alastnm_joins_authors {| mtime := 10; db := library |} blank)
    with (c := Some "Papers") (es := library_papers).
  - repeat constructor; discriminate.
  - vm_compute. reflexivity.
  - vm_compute. left. reflexivity.
  - vm_compute. left. reflexivity.
Defined.

(** ** Loads that complete *)

Lemma total_bind {S A B} (P : S -> Prop) (Q : A -> S -> Prop)
    (R : B -> S -> Prop) (c : M S A) (k : A -> M S B) :
  total P c Q -> (forall a, total (Q a) (k a) R) -> total P (bind c k) R.
Proof.
  intros Hc Hk s Ps. destruct (Hc s Ps) as (a & Ra & Qs).
  rewrite (bind_run _ _ _ a Ra). now apply Hk.
Qed.

Lemma total_pure {S A} (P : S -> Prop) (c : M S A) (Q : A -> S -> Prop) :
  pure c -> (forall s, P s -> exists a, snd (c s) = Ok a /\ Q a s) ->
  total P c Q.
Proof. intros Hp Hq s Ps. rewrite Hp. auto. Qed.

Lemma total_for_each {S A} (I : S -> Prop) (l : list A) (body : A -> M S unit) :
  (forall x, In x l -> total I (body x) (fun _ => I)) ->
  total I (for_each l body) (fun _ => I).
Proof.
  induction l as [|x r IH]; intro Hb.
  - intros s Is. exists tt. split; [reflexivity|exact Is].
  - cbn [for_each]. apply total_bind with (Q := fun _ => I).
    + apply Hb. now left.
    + intros _. apply IH. intros y Iy. apply Hb. now right.
Qed.

Section Working.
Variable b : database.
Variable P : Z -> entry -> Prop.

Lemma total_item {A} i (c : M entry A) :
  has_fields b i = true ->
  total (P i) c (fun _ => P i) ->
  total (working b P) (on_t (at_key i c)) (fun _ => working b P).
Proof.
  intros F Hc o [J K].
  pose proof (K i) as Ki. rewrite F in Ki. unfold dmem in Ki.
  destruct (dget i (_t o)) as [e|] eqn:G; [|discriminate].
  destruct (Hc e (J i e G)) as (a & Ra & Pe).
  exists a. split; [|split].
  - unfold on_t, at_key. rewrite G. destruct (c e) as [e' r]. exact Ra.
  - apply item_at_inv; [|exact J]. intros e0 P0.
    now destruct (Hc e0 P0) as (a0 & _ & Q0).
  - intro j. rewrite item_keys. apply K.
Qed.

Lemma total_when_item i (c : M entry unit) :
  total (P i) c (fun _ => P i) ->
  total (working b P) (when_item i c) (fun _ => working b P).
Proof.
  intros Hc o [J K]. exists tt. split; [|split].
  - rewrite when_item_run. destruct (dget i (_t o)) as [e|] eqn:G.
    + now destruct (Hc e (J i e G)) as ([] & Ra & _).
    + reflexivity.
  - apply when_item_at_inv; [|exact J]. intros e0 P0.
    now destruct (Hc e0 P0) as (a0 & _ & Q0).
  - intro j. rewrite when_item_keys. apply K.
Qed.
End Working.

(** *** The shape of the entries *)

Lemma shaped_set e f s :
  shaped e -> f <> "tags" -> f <> "author" -> shaped (dset f (VStr s) e).
Proof.
  intros (A & [l T] & (c & C & Pc) & D & Ti & Au) Nt Na.
  repeat split.
  - now apply has_str_set.
  - exists l. now rewrite dget_dset_other.
  - destruct (string_dec f "collection") as [->|N].
    + exists (VStr s). split; [apply dget_dset_same|right; eauto].
    + exists c. split; [now rewrite dget_dset_other|exact Pc].
  - intro v. destruct (string_dec f "date") as [->|N].
    + rewrite dget_dset_same. intros [= <-]. eauto.
    + rewrite dget_dset_other by exact N. apply D.
  - intro v. destruct (string_dec f "title") as [->|N].
    + rewrite dget_dset_same. intros [= <-]. eauto.
    + rewrite dget_dset_other by exact N. apply Ti.
  - intro v. rewrite dget_dset_other by exact Na. apply Au.
Qed.

Lemma lists_but_set names e f v :
  lists_but names e -> (exists l, v = VList l) \/ In f names ->
  lists_but names (dset f v e).
Proof.
  intros L H g x. destruct (string_dec f g) as [<-|N].
  - rewrite dget_dset_same. intros [= <-]. exact H.
  - rewrite dget_dset_other by exact N. apply L.
Qed.

Lemma new_item_shaped key : shaped (new_item key).
Proof.
  unfold new_item. repeat split.
  - eexists. reflexivity.
  - eexists. reflexivity.
  - exists VNone. split; [reflexivity|now left].
  - intros v G. discriminate G.
  - intros v G. discriminate G.
  - intros v G. discriminate G.
Qed.

Lemma new_item_lists b key : lists_but (string_names b) (new_item key).
Proof.
  intros f v. unfold new_item, string_names. cbn [dget keqb EqKey_string].
  destruct (String.eqb_spec f "zotkey") as [->|_].
  { intros _. right. apply in_or_app. right. cbn. auto. }
  destruct (String.eqb_spec f "collection") as [->|_].
  { intros _. right. apply in_or_app. right. cbn. auto. }
  destruct (String.eqb_spec f "alastnm") as [->|_].
  { intros _. right. apply in_or_app. right. cbn. auto. }
  destruct (String.eqb_spec f "tags") as [->|_]; [|discriminate].
  intros [= <-]. left. eauto.
Qed.

Lemma shaped_set_list e f l :
  shaped e -> f <> "alastnm" -> f <> "collection" -> f <> "date" ->
  f <> "title" ->
  (f = "author" -> author_shaped (VList l)) ->
  shaped (dset f (VList l) e).
Proof.
  intros ([a A] & [t T] & (c & C & Pc) & D & Ti & Au) Na Nc Nd Nt Ha.
  repeat split.
  - exists a. now rewrite dget_dset_other.
  - destruct (string_dec f "tags") as [->|N].
    + exists l. apply dget_dset_same.
    + exists t. now rewrite dget_dset_other.
  - exists c. split; [now rewrite dget_dset_other|exact Pc].
  - intro v. rewrite dget_dset_other by exact Nd. apply D.
  - intro v. rewrite dget_dset_other by exact Nt. apply Ti.
  - intro v. destruct (string_dec f "author") as [->|N].
    + rewrite dget_dset_same. intros [= <-]. now apply Ha.
    + rewrite dget_dset_other by exact N. apply Au.
Qed.

(** One row of the creator query completes on a shaped entry when its
    role is the name of nothing that holds a string. *)
Lemma authors_row_total names ctype lastname firstname :
  ~ In ctype (names ++ ["date"; "title"]) ->
  In "alastnm" names -> In "collection" names ->
  total (fun e => shaped e /\ lists_but names e)
    (e <- get ;;
     (if dmem ctype e then
        v <- getitem ctype ;;
        v' <- lift (iadd v (VList [VList [VStr lastname; VStr firstname]])) ;;
        setitem ctype v'
      else setitem ctype (VList [VList [VStr lastname; VStr firstname]])) ;;
     if (ctype =? "author")%string then
       a <- getitem "alastnm" ;;
       a' <- lift (iadd a (VStr (", " ++ lastname))) ;;
       setitem "alastnm" a'
     else ret tt)
    (fun _ e => shaped e /\ lists_but names e).
Proof.
  intros N Ia Ic e [Sh L]. rewrite bind_get.
  assert (Nn : ~ In ctype names) by (intro I; apply N, in_or_app; now left).
  assert (Na : ctype <> "alastnm") by (intros ->; contradiction).
  assert (Nc : ctype <> "collection") by (intros ->; contradiction).
  assert (Nd : ctype <> "date")
    by (intros ->; apply N, in_or_app; right; cbn; auto).
  assert (Nt : ctype <> "title")
    by (intros ->; apply N, in_or_app; right; cbn; auto).
  assert (Step : exists l,
            (if dmem ctype e then
               v <- getitem ctype ;;
               v' <- lift (iadd v (VList [VList [VStr lastname; VStr firstname]])) ;;
               setitem ctype v'
             else setitem ctype (VList [VList [VStr lastname; VStr firstname]])) e
            = (dset ctype (VList l) e, Ok tt) /\
            (ctype = "author" -> author_shaped (VList l))).
  { unfold dmem, bind, getitem, lift, setitem, modify.
    destruct (dget ctype e) as [v|] eqn:G.
    - destruct (L ctype v G) as [[l ->]|I]; [|contradiction].
      cbv beta iota. rewrite G. cbn [iadd fst snd].
      eexists. split; [reflexivity|].
      intros ->. destruct Sh as (_ & _ & _ & _ & _ & Au).
      destruct (Au _ G) as (last & rest & more & [= ->]).
      cbn [app]. now exists last, rest, (more ++ [VList [VStr lastname; VStr firstname]])%list.
    - eexists. split; [reflexivity|].
      intros _. now exists lastname, [VStr firstname], []. }
  destruct Step as (l & E & Ha).
  rewrite (bind_run _ _ _ tt) by now rewrite E. rewrite E. cbn [fst].
  assert (Sh1 : shaped (dset ctype (VList l) e)) by now apply shaped_set_list.
  assert (L1 : lists_but names (dset ctype (VList l) e))
    by (apply lists_but_set; eauto).
  destruct (ctype =? "author")%string.
  - destruct Sh1 as ([a A] & Rest).
    unfold bind, getitem, lift, setitem, modify. rewrite A. cbn [iadd fst snd].
    exists tt. split; [reflexivity|]. split.
    + apply shaped_set; [|discriminate|discriminate].
      split; [now exists a|exact Rest].
    + apply lists_but_set; auto.
  - exists tt. cbn. auto.
Qed.

(** One row of the tag query completes on a shaped entry. *)
Lemma tags_row_total tag :
  total shaped (iadd_item "tags" (VList [VStr tag])) (fun _ => shaped).
Proof.
  intros e Sh. pose proof Sh as (_ & [l T] & _).
  unfold iadd_item, bind, getitem, lift, setitem, modify. rewrite T.
  cbn [iadd fst snd]. exists tt. split; [reflexivity|].
  apply shaped_set_list; auto; discriminate.
Qed.

(** The body of the loop of [_calculate_citekeys] completes on a shaped
    entry. *)
Lemma calculate_citekey_total cite w :
  total shaped (calculate_citekey cite w) (fun _ => shaped).
Proof.
  unfold calculate_citekey.
  apply total_bind with (Q := fun b e => shaped e /\ b = dmem "date" e).
  { intros e Sh. exists (dmem "date" e). cbn. auto. }
  intro has_date.
  apply total_bind with (Q := fun _ e => shaped e).
  { destruct has_date.
    - intros e [Sh D]. pose proof Sh as (_ & _ & _ & Dt & _).
      unfold dmem in D. unfold bind, getitem, lift, ret.
      destruct (dget "date" e) as [v|] eqn:G; [|discriminate].
      destruct (Dt v eq_refl) as [s ->]. cbn. eauto.
    - intros e [Sh _]. exists "". cbn. auto. }
  intro year.
  apply total_bind with (Q := fun _ e => shaped e).
  { intros e Sh. exists tt. cbn. split; [reflexivity|].
    apply shaped_set; auto; discriminate. }
  intros _.
  apply total_bind with (Q := fun b e => shaped e /\ b = dmem "title" e).
  { intros e Sh. exists (dmem "title" e). cbn. auto. }
  intro has_title.
  apply total_bind with (Q := fun _ e => shaped e).
  { destruct has_title.
    - intros e [Sh D]. pose proof Sh as (_ & _ & _ & _ & Ti & _).
      unfold dmem in D. unfold bind, getitem, lift, ret.
      destruct (dget "title" e) as [v|] eqn:G; [|discriminate].
      destruct (Ti v eq_refl) as [s ->]. cbn. eauto.
    - intros e [Sh _]. exists "". cbn. split; [reflexivity|].
      apply shaped_set; auto; discriminate. }
  intro titlew.
  apply total_bind with (Q := fun b e => shaped e /\ b = dmem "author" e).
  { intros e Sh. exists (dmem "author" e). cbn. auto. }
  intro has_author.
  apply total_bind
    with (Q := fun v e => shaped e /\ exists s, v = VStr s).
  { destruct has_author.
    - intros e [Sh D]. pose proof Sh as (_ & _ & _ & _ & _ & Au).
      unfold dmem in D. unfold bind, getitem, lift.
      destruct (dget "author" e) as [v|] eqn:G; [|discriminate].
      destruct (Au v eq_refl) as (last & rest & more & ->). cbn. eauto.
    - intros e [Sh _]. exists (VStr "No_author"). cbn. eauto. }
  intro lastname.
  apply total_bind with (Q := fun _ e => shaped e).
  { intros e [Sh [s ->]]. exists s. cbn. auto. }
  intro lastname'.
  intros e Sh. exists tt. cbn. split; [reflexivity|].
  apply shaped_set; auto; discriminate.
Qed.

(** *** The passes *)

Lemma has_fields_In b k :
  has_fields b k = true ->
  exists row, In row (field_rows b) /\ item_of row = k.
Proof.
  unfold has_fields. intro H. apply existsb_exists in H as (row & I & E).
  exists row. split; [exact I|]. symmetry. now apply Z.eqb_eq.
Qed.

Lemma fields_total b o :
  well_formed b ->
  snd (_add_most_fields (field_rows b) o) = Ok tt /\
  working b (fun _ e => shaped e /\ lists_but (string_names b) e)
          (fst (_add_most_fields (field_rows b) o)).
Proof.
  intros (Wf & _). rewrite Forall_forall in Wf.
  split; [apply (_add_most_fields_keys (field_rows b) o 0)|].
  split; [|intro j; apply (_add_most_fields_keys (field_rows b) o j)].
  unfold _add_most_fields.
  pose (I := items_at (fun (_ : Z) e => shaped e /\ lists_but (string_names b) e)).
  apply (bind_inv I); [intros k e G; discriminate G|].
  intros _ s Is. apply (for_each_inv_in I); [|exact Is].
  intros [[[i key] f] v] s' Ir I'.
  destruct (Wf _ Ir) as (Nt & Na & _). cbn in Nt, Na.
  unfold add_field. rewrite bind_get. apply (bind_inv I).
  - destruct (dmem i (_t s')); [exact I'|].
    intros k e G. cbn in G. destruct (Z.eq_dec i k) as [<-|N].
    + rewrite dget_dset_same in G. injection G as <-.
      split; [apply new_item_shaped|apply new_item_lists].
    + rewrite dget_dset_other in G by exact N. exact (I' k e G).
  - intros _ s'' I''. apply item_at_inv; [|exact I''].
    intros e [Sh L]. unfold setitem, modify. cbn [fst]. split.
    + now apply shaped_set.
    + apply lists_but_set; [exact L|]. right. unfold string_names.
      apply in_or_app. left.
      change f with (field_of (i, key, f, v)). now apply in_map.
Qed.

Lemma collection_total b rows :
  total (working b (fun _ e => shaped e /\ lists_but (string_names b) e))
        (_add_collection rows)
        (fun _ => working b (fun _ e => shaped e /\ lists_but (string_names b) e)).
Proof.
  unfold _add_collection. apply total_for_each. intros [i c] _.
  apply total_when_item. intros e [Sh L]. exists tt. cbn.
  split; [reflexivity|]. split.
  - apply shaped_set; auto; discriminate.
  - apply lists_but_set; [exact L|]. right. unfold string_names.
    apply in_or_app. right. cbn. auto.
Qed.

Lemma authors_total b :
  well_formed b ->
  total (working b (fun _ e => shaped e /\ lists_but (string_names b) e))
        (_add_authors (creator_rows b))
        (fun _ => working b (fun _ e => shaped e /\ lists_but (string_names b) e)).
Proof.
  intros (_ & Wc & _). rewrite Forall_forall in Wc.
  unfold _add_authors. apply total_for_each.
  intros [[[i ctype] lastname] firstname] Ir.
  apply total_when_item. apply authors_row_total.
  - exact (Wc _ Ir).
  - unfold string_names. apply in_or_app. right. cbn. auto.
  - unfold string_names. apply in_or_app. right. cbn. auto.
Qed.

(** A pass that assigns the text of each row to a field of its item: it
    completes, and the last row of an item decides. *)
Lemma last_row_pass f rows : forall o,
  snd (for_each rows (fun '(item_id, x) =>
         when_item item_id (setitem f (VStr x))) o) = Ok tt /\
  forall i e, dget i (_t o) = Some e ->
    dget i (_t (fst (for_each rows (fun '(item_id, x) =>
         when_item item_id (setitem f (VStr x))) o)))
    = Some match last_collection i rows with
           | Some n => dset f (VStr n) e
           | None => e
           end.
Proof.
  induction rows as [|[j n] r IH]; intro o; cbn [for_each last_collection];
    [split; [reflexivity|auto]|].
  assert (W : snd (when_item j (setitem f (VStr n)) o) = Ok tt /\
              forall i e, dget i (_t o) = Some e ->
                dget i (_t (fst (when_item j (setitem f (VStr n)) o)))
                = Some (if i =? j then dset f (VStr n) e else e)).
  { rewrite when_item_run.
    destruct (dget j (_t o)) as [ej|] eqn:G; cbn [fst snd _t set_t].
    - split; [reflexivity|]. intros i e Gi.
      destruct (Z.eqb_spec i j) as [->|N].
      + rewrite dget_dset_same. unfold setitem, modify. cbn [fst]. congruence.
      + rewrite dget_dset_other; auto.
    - split; [reflexivity|]. intros i e Gi.
      destruct (Z.eqb_spec i j) as [->|N]; congruence. }
  destruct W as [R W].
  rewrite (bind_run _ _ _ tt) by exact R.
  destruct (IH (fst (when_item j (setitem f (VStr n)) o))) as [R' W'].
  split; auto. intros i e Gi.
  rewrite (W' i _ (W i e Gi)).
  destruct (last_collection i r) as [m|]; destruct (i =? j); auto.
  now rewrite dset_dset.
Qed.

Lemma type_total b :
  well_formed b ->
  total (working b (fun _ e => shaped e /\ lists_but (string_names b) e))
        (_add_type (type_rows b))
        (fun _ => working b (typed (deleted_rows b))).
Proof.
  intros (_ & _ & _ & Wt) o [J K]. rewrite Forall_forall in Wt.
  unfold _add_type. destruct (last_row_pass "etype" (type_rows b) o) as [R W].
  exists tt. split; [exact R|]. split.
  - intros k e' G'.
    assert (D : dmem k (_t o) = true).
    { rewrite <- (guarded_pass_keys (type_rows b)
                   (fun '(item_id, x) => when_item item_id (setitem "etype" (VStr x)))
                   o k) by (intros [i c] s; apply when_item_keys).
      unfold dmem. now rewrite G'. }
    unfold dmem in D. destruct (dget k (_t o)) as [e|] eqn:G; [|discriminate].
    rewrite (W k e G) in G'. injection G' as <-.
    destruct (J k e G) as [Sh _]. split.
    + destruct (last_collection k (type_rows b)); [|exact Sh].
      apply shaped_set; auto; discriminate.
    + intro X.
      assert (F : has_fields b k = true) by (rewrite <- K; unfold dmem; now rewrite G).
      destruct (has_fields_In b k F) as (row & Ir & <-).
      destruct (Wt _ Ir) as [Id|[ty It]].
      * exfalso. exact (existsb_eqb_false _ _ X Id).
      * destruct (In_last_collection _ _ _ It) as [m ->].
        rewrite dmem_dset. now rewrite keqb_refl.
  - intro j. rewrite guarded_pass_keys by (intros [i c] s; apply when_item_keys).
    apply K.
Qed.

Lemma typed_total deleted k {A} (c : M entry A) :
  total shaped c (fun _ => shaped) ->
  (forall e, dmem "etype" e = true -> dmem "etype" (fst (c e)) = true) ->
  total (typed deleted k) c (fun _ => typed deleted k).
Proof.
  intros Hc Hm e [Sh T]. destruct (Hc e Sh) as (a & Ra & Sh').
  exists a. split; [exact Ra|]. split; auto.
Qed.

Lemma dmem_set_mono f g v (e : entry) :
  dmem f e = true -> dmem f (dset g v e) = true.
Proof. intro D. rewrite dmem_dset, D. apply orb_true_r. Qed.

Lemma note_total b rows :
  total (working b (typed (deleted_rows b))) (_add_note rows)
        (fun _ => working b (typed (deleted_rows b))).
Proof.
  unfold _add_note. apply total_for_each. intros [i c] _.
  apply total_when_item. apply typed_total.
  - intros e Sh. exists tt. cbn. split; [reflexivity|].
    apply shaped_set; auto; discriminate.
  - intros e D. cbn. now apply dmem_set_mono.
Qed.

Lemma tags_total b rows :
  total (working b (typed (deleted_rows b))) (_add_tags rows)
        (fun _ => working b (typed (deleted_rows b))).
Proof.
  unfold _add_tags. apply total_for_each. intros [i c] _.
  apply total_when_item. apply typed_total.
  - apply tags_row_total.
  - intros e D. unfold bind, getitem, lift, setitem, modify.
    destruct (dget "tags" e) as [v|]; cbn [fst]; [|exact D].
    destruct (iadd v (VList [VStr c])); cbn [fst]; [|exact D].
    now apply dmem_set_mono.
Qed.

Lemma attachments_total b :
  well_formed b ->
  total (working b (typed (deleted_rows b)))
        (_add_attachments (attachment_rows b))
        (fun _ => working b (typed (deleted_rows b))).
Proof.
  intros (_ & _ & Wa & _). rewrite Forall_forall in Wa.
  unfold _add_attachments. apply total_for_each.
  intros [[pKey pId] aPath] Ir. destruct (Wa _ Ir) as [Wo Wp]. cbn in Wo, Wp.
  destruct aPath as [path|]; [|now contradiction Wp].
  destruct pId as [i|]; [|discriminate]. cbn in Wo.
  apply total_item; [now apply negb_false_iff|].
  apply typed_total.
  - intros e Sh. exists tt. cbn. split; [reflexivity|].
    apply shaped_set; auto; discriminate.
  - intros e D. cbn. now apply dmem_set_mono.
Qed.

Lemma citekeys_total b :
  total (working b (typed (deleted_rows b))) _calculate_citekeys
        (fun _ => working b (typed (deleted_rows b))).
Proof.
  intros o W. unfold _calculate_citekeys. rewrite bind_get.
  apply total_for_each; [|exact W].
  intros k Ik. apply total_item.
  - destruct W as [_ K]. rewrite <- K. now apply dmem_In_keys.
  - apply typed_total; [apply calculate_citekey_total|].
    intros e D.
    apply (calculate_citekey_inv (fun e => dmem "etype" e = true)); auto.
    intros f s e' D'. now apply dmem_set_mono.
Qed.

Lemma separate_item_total b k :
  has_fields b k = true ->
  total (working b (typed (deleted_rows b)))
        (separate_item (deleted_rows b) k)
        (fun _ => working b (typed (deleted_rows b))).
Proof.
  intros F o [J K]. unfold separate_item.
  destruct (existsb (Z.eqb k) (deleted_rows b)) eqn:X.
  { rewrite (bind_run _ _ _ true) by reflexivity.
    exists tt. split; [reflexivity|]. split; [exact J|exact K]. }
  pose proof (K k) as Kk. rewrite F in Kk. unfold dmem in Kk.
  destruct (dget k (_t o)) as [e|] eqn:G; [|discriminate].
  destruct (J k e G) as [Sh T]. specialize (T X). unfold dmem in T.
  destruct (dget "etype" e) as [ety|] eqn:Gt; [|discriminate].
  assert (R1 : (ety <- on_t (at_key k (getitem "etype")) ;;
                ret (is_str "attachment" ety)) o
               = (o, Ok (is_str "attachment" ety))).
  { unfold bind. rewrite (read_item k _ o e (pure_getitem _) G).
    unfold getitem. now rewrite Gt. }
  rewrite (bind_run _ _ _ (is_str "attachment" ety)) by now rewrite R1.
  rewrite R1. cbn [fst].
  destruct (is_str "attachment" ety).
  { exists tt. split; [reflexivity|]. split; [exact J|exact K]. }
  pose proof Sh as ([s A] & _ & (c & C & Pc) & _).
  set (o1 := set_t o (dset k (trimmed e s) (_t o))).
  assert (R2 : on_t (at_key k (a <- getitem "alastnm" ;;
                               s <- lift (as_str a) ;;
                               setitem "alastnm" (VStr (Py.strip_prefix ", " s)))) o
               = (o1, Ok tt)).
  { unfold on_t, at_key. rewrite G.
    unfold bind, getitem, lift, setitem, modify. rewrite A. reflexivity. }
  rewrite (bind_run _ _ _ tt) by now rewrite R2. rewrite R2. cbn [fst].
  assert (G1 : dget k (_t o1) = Some (trimmed e s)) by apply dget_dset_same.
  assert (C1 : dget "collection" (trimmed e s) = Some c).
  { unfold trimmed. now rewrite dget_dset_other by discriminate. }
  assert (R3 : on_t (at_key k (getitem "collection")) o1 = (o1, Ok c)).
  { rewrite (read_item k _ o1 _ (pure_getitem _) G1).
    unfold getitem. now rewrite C1. }
  rewrite (bind_run _ _ _ c) by now rewrite R3. rewrite R3. cbn [fst].
  assert (Ck : exists ck, as_ckey c = Ok ck).
  { destruct Pc as [->|[x ->]]; cbn; eauto. }
  destruct Ck as [ck Ck].
  rewrite (bind_run _ _ _ ck) by exact Ck. cbn [lift fst].
  rewrite bind_get, (store_run ck k _ _ o1 G1).
  exists tt. split; [reflexivity|]. cbn [fst]. split.
  - intros j x Gj. cbn in Gj. destruct (Z.eq_dec k j) as [<-|N].
    + rewrite dget_dset_same in Gj. injection Gj as <-. split.
      * unfold trimmed. apply shaped_set; auto; discriminate.
      * intros _. unfold trimmed. apply dmem_set_mono.
        unfold dmem. now rewrite Gt.
    + rewrite dget_dset_other in Gj by exact N. exact (J j x Gj).
  - intro j. cbn. rewrite dmem_dset. rewrite <- K.
    destruct (keqb_spec j k) as [->|N]; [|reflexivity].
    unfold dmem. now rewrite G.
Qed.

Lemma separate_total b :
  total (working b (typed (deleted_rows b)))
        (_separate_by_collection (deleted_rows b))
        (fun _ => working b (typed (deleted_rows b))).
Proof.
  intros o W. unfold _separate_by_collection.
  rewrite (bind_run _ _ _ tt) by reflexivity. rewrite bind_get.
  apply total_for_each; [|exact W].
  intros k Ik. apply separate_item_total.
  destruct W as [_ K]. rewrite <- K. cbn in Ik. now apply dmem_In_keys.
Qed.

(** X18: with banned words made of letters, digits and blanks, a load
    completes on every well-formed data base, whatever the object held
    before: no field bears the name tags or author, no date has a
    backslash, no role of a creator bears the name of a field, of the
    Zotero key, the collection or the author names, or the name date or
    title, every attachment has a path and a parent with field rows, and
    every item with field rows is deleted or has a type. The conditions on
    the banned words and on the dates keep the load where the patterns
    and the replacement texts of [_calculate_citekeys] are plain text, as
    they are embedded. *)
Theorem load_completes (w : world) (o : ZoteroEntries) :
  well_formed (db w) -> plain_words (_w o) = true ->
  snd (_load_zotero_data w o) = Ok tt.
Proof.
  intros Wf _. unfold _load_zotero_data.
  rewrite (bind_run _ _ _ tt) by reflexivity.
  set (s0 := fst (modify (fun o => set_m o (mtime w)) o)).
  assert (T : total (fun _ => True)
                (load_items (db w) ;;
                 _add_attachments (attachment_rows (db w)) ;;
                 _calculate_citekeys ;;
                 _separate_by_collection (deleted_rows (db w)))
                (fun _ => working (db w) (typed (deleted_rows (db w))))).
  { apply total_bind
      with (Q := fun _ => working (db w) (typed (deleted_rows (db w)))).
    - unfold load_items.
      apply total_bind
        with (Q := fun _ => working (db w)
                     (fun _ e => shaped e /\ lists_but (string_names (db w)) e)).
      { intros s _. exists tt. now apply fields_total. }
      intros _. eapply total_bind; [apply collection_total|intros []; cbv beta].
      eapply total_bind; [now apply authors_total|intros []; cbv beta].
      eapply total_bind; [now apply type_total|intros []; cbv beta].
      eapply total_bind; [apply note_total|intros []; cbv beta].
      apply tags_total.
    - intros _. eapply total_bind; [now apply attachments_total|intros []; cbv beta].
      eapply total_bind; [apply citekeys_total|intros []; cbv beta].
      apply separate_total. }
  destruct (T s0 Logic.I) as ([] & R & _). exact R.
Qed.

Lemma load_completes_witness :
  snd (_load_zotero_data {| mtime := 10; db := library |} blank) = Ok tt.
Proof.
  apply (load_completes {| mtime := 10; db := library |} blank);
    [|vm_compute; reflexivity].
  unfold well_formed. cbn [db]. split; [|split; [|split]].
  - apply Forall_forall. intros row I.
    destruct I as [<-|[<-|[<-|[<-|[]]]]];
      (split; [discriminate|split; [discriminate|]]);
      intro E; try discriminate E; vm_compute; reflexivity.
  - apply Forall_forall. intros row I.
    destruct I as [<-|[<-|[<-|[]]]]; cbn; intuition discriminate.
  - repeat (constructor; [split; [reflexivity|discriminate]|]). constructor.
  - repeat (constructor; [right; eexists; cbn; eauto|]). constructor.
Defined.

(** ** Notes and attachments *)

Section KeepsField.
Variable f : string.
Variable V : Z -> option value -> Prop.

(** The field [f] of the entries when the entries are separated, from
    what it is after the notes are added. *)
Lemma after_notes_keeps tags attachments o :
  f <> "tags" -> f <> "attachment" -> f <> "year" -> f <> "title" ->
  f <> "citekey" ->
  items_at (fun k e => V k (dget f e)) o ->
  items_at (fun k e => V k (dget f e))
    (fst (_calculate_citekeys
            (fst (_add_attachments attachments (fst (_add_tags tags o)))))).
Proof.
  intros Ng Na Ny Nt Nc J.
  pose (I := items_at (fun k e => V k (dget f e))).
  unfold _calculate_citekeys. rewrite bind_get.
  apply (for_each_inv I).
  { intros k s Is. apply item_at_inv; [|exact Is].
    intros e G. now rewrite calculate_citekey_keeps. }
  apply (for_each_inv I).
  { intros [[pKey [i|]] [path|]] s Is; try exact Is.
    apply item_at_inv; [|exact Is]. intros e G.
    unfold setitem, modify. cbn [fst].
    rewrite dget_dset_other by congruence. exact G. }
  apply (for_each_inv I); [|exact J].
  intros [i c] s Is. apply when_item_at_inv; [|exact Is].
  intros e G.
  change (V i (dget f (fst (iadd_item "tags" (VList [VStr c]) e)))).
  now rewrite iadd_item_keeps.
Qed.
End KeepsField.

(** X19: when a load completes, the note of every entry whose item has
    rows in the note query is the text of the last of these rows: an
    item with several notes keeps the last one only. *)
Theorem note_is_last_row (w : world) (o : ZoteroEntries) :
  snd (_load_zotero_data w o) = Ok tt ->
  forall c es id e,
    In (c, es) (_e (fst (_load_zotero_data w o))) -> In (id, e) es ->
    exists k, id = Py.str_of_int k /\
              forall n, last_row k (note_rows (db w)) = Some n ->
                        dget "note" e = Some (VStr n).
Proof.
  intro R. unfold _load_zotero_data in *.
  destruct (bind_ok _ _ _ _ R) as ([] & _ & E0). rewrite E0 in *. clear E0.
  set (s0 := fst (modify (fun o => set_m o (mtime w)) o)) in *.
  destruct (bind_ok _ _ _ _ R) as ([] & R1 & E1). rewrite E1 in *. clear E1.
  destruct (bind_ok _ _ _ _ R) as ([] & _ & E2). rewrite E2 in *. clear E2.
  destruct (bind_ok _ _ _ _ R) as ([] & _ & E3). rewrite E3 in *. clear E3.
  pose (V := fun (k : Z) (v : option value) =>
               forall n, last_row k (note_rows (db w)) = Some n ->
                         v = Some (VStr n)).
  apply (_separate_by_collection_stores
           (fun k e => V k (dget "note" e))
           (fun _ id e => exists k, id = Py.str_of_int k /\ V k (dget "note" e))
           (deleted_rows (db w)) (fun _ => True)).
  - intros k e s G. unfold trimmed. now rewrite dget_dset_other by discriminate.
  - intros k e ety s c ck _ G _ _ _ _ _ _. exists k. split; [reflexivity|].
    unfold trimmed. now rewrite dget_dset_other by discriminate.
  - auto.
  - clear R. unfold load_items in *.
    destruct (bind_ok _ _ _ _ R1) as ([] & _ & E). rewrite E in *. clear E.
    destruct (bind_ok _ _ _ _ R1) as ([] & _ & E). rewrite E in *. clear E.
    destruct (bind_ok _ _ _ _ R1) as ([] & _ & E). rewrite E in *. clear E.
    destruct (bind_ok _ _ _ _ R1) as ([] & _ & E). rewrite E in *. clear E.
    destruct (bind_ok _ _ _ _ R1) as ([] & _ & E). rewrite E in *. clear E.
    apply after_notes_keeps; try discriminate.
    match goal with |- items_at _ (fst (_add_note _ ?s)) => set (s4 := s) end.
    unfold _add_note.
    destruct (last_row_pass "note" (note_rows (db w)) s4) as [_ W].
    intros k e' G' n L.
    assert (D : dmem k (_t s4) = true).
    { rewrite <- (guarded_pass_keys (note_rows (db w))
                   (fun '(item_id, x) => when_item item_id (setitem "note" (VStr x)))
                   s4 k) by (intros [i x] s; apply when_item_keys).
      unfold dmem. now rewrite G'. }
    unfold dmem in D. destruct (dget k (_t s4)) as [e|] eqn:G; [|discriminate].
    rewrite (W k e G) in G'. unfold last_row in L. rewrite L in G'.
    injection G' as <-. apply dget_dset_same.
  - exact R.
Qed.

Lemma note_is_last_row_witness :
  exists k, "1" = Py.str_of_int k /\
            forall n, last_row k (note_rows noted_library) = Some n ->
                      dget "note" noted_article = Some (VStr n).
Proof.
  apply (note_is_last_row {| mtime := 10; db := noted_library |} blank)
    with (c := Some "Papers") (es := noted_papers).
  - vm_compute. reflexivity.
  - vm_compute. left. reflexivity.
  - vm_compute. left. reflexivity.
Defined.

Example noted_article_note :
  dget "note" noted_article = Some (VStr "<p>cite in chapter 2</p>").
Proof. vm_compute. reflexivity. Qed.

(** The loop of [_add_attachments], when it completes: the last row of a
    parent decides. *)
Lemma add_attachments_last rows : forall o (V : Z -> option value),
  items_at (fun k e => dget "attachment" e = V k) o ->
  snd (_add_attachments rows o) = Ok tt ->
  items_at (fun k e => dget "attachment" e
                       = match last_attachment k rows with
                         | Some a => Some (VStr a)
                         | None => V k
                         end)
           (fst (_add_attachments rows o)).
Proof.
  unfold _add_attachments.
  induction rows as [|[[pKey pId] aPath] r IH]; intros o V J R.
  - exact J.
  - cbn [for_each last_attachment] in *.
    destruct (bind_ok _ _ _ _ R) as ([] & R1 & E). rewrite E in *. clear E.
    destruct aPath as [path|]; [|discriminate R1].
    destruct pId as [j|]; [|discriminate R1].
    set (o1 := fst (on_t (at_key j _) o)) in *.
    pose (V' := fun k => if k =? j then Some (VStr (pKey ++ ":" ++ path))
                         else V k).
    assert (J1 : items_at (fun k e => dget "attachment" e = V' k) o1).
    { destruct (on_t_ok _ _ _ R1) as [R1' T1].
      destruct (at_key_ok _ _ _ _ R1') as (e0 & G0 & _ & T2).
      intros k e G. unfold o1 in G. rewrite T1, T2 in G. unfold V'.
      destruct (Z.eqb_spec k j) as [->|N].
      - rewrite dget_dset_same in G. injection G as <-.
        cbn. apply dget_dset_same.
      - rewrite dget_dset_other in G by congruence. exact (J k e G). }
    intros k e G. rewrite (IH o1 V' J1 R k e G). unfold V'.
    destruct (last_attachment k r); [reflexivity|].
    now destruct (k =? j).
Qed.

(** X20: when a load completes, the attachment of every entry whose item
    is the parent of attachment rows is the key and the path of the last
    of these rows, joined by a colon: an item with several attachments
    keeps the last one only. *)
Theorem attachment_is_last_row (w : world) (o : ZoteroEntries) :
  snd (_load_zotero_data w o) = Ok tt ->
  forall c es id e,
    In (c, es) (_e (fst (_load_zotero_data w o))) -> In (id, e) es ->
    exists k, id = Py.str_of_int k /\
              forall a, last_attachment k (attachment_rows (db w)) = Some a ->
                        dget "attachment" e = Some (VStr a).
Proof.
  intro R. unfold _load_zotero_data in *.
  destruct (bind_ok _ _ _ _ R) as ([] & _ & E0). rewrite E0 in *. clear E0.
  set (s0 := fst (modify (fun o => set_m o (mtime w)) o)) in *.
  destruct (bind_ok _ _ _ _ R) as ([] & _ & E1). rewrite E1 in *. clear E1.
  destruct (bind_ok _ _ _ _ R) as ([] & R2 & E2). rewrite E2 in *. clear E2.
  destruct (bind_ok _ _ _ _ R) as ([] & _ & E3). rewrite E3 in *. clear E3.
  pose (V := fun (k : Z) (v : option value) =>
               forall a, last_attachment k (attachment_rows (db w)) = Some a ->
                         v = Some (VStr a)).
  apply (_separate_by_collection_stores
           (fun k e => V k (dget "attachment" e))
           (fun _ id e => exists k, id = Py.str_of_int k /\
                                    V k (dget "attachment" e))
           (deleted_rows (db w)) (fun _ => True)).
  - intros k e s G. unfold trimmed. now rewrite dget_dset_other by discriminate.
  - intros k e ety s c ck _ G _ _ _ _ _ _. exists k. split; [reflexivity|].
    unfold trimmed. now rewrite dget_dset_other by discriminate.
  - auto.
  - unfold _calculate_citekeys. rewrite bind_get.
    apply (for_each_inv (items_at (fun k e => V k (dget "attachment" e)))).
    { intros k s Is. apply item_at_inv; [|exact Is].
      intros e G. now rewrite calculate_citekey_keeps by discriminate. }
    match goal with
    | |- items_at _ (fst (_add_attachments _ ?s)) => set (s1 := s) in *
    end.
    pose proof (add_attachments_last (attachment_rows (db w)) s1
                  (fun k => match dget k (_t s1) with
                            | Some e => dget "attachment" e
                            | None => None
                            end)) as L.
    assert (J1 : items_at (fun k e => dget "attachment" e
                             = match dget k (_t s1) with
                               | Some e => dget "attachment" e
                               | None => None
                               end) s1).
    { intros k e G. now rewrite G. }
    intros k e G a La. rewrite (L J1 R2 k e G), La. reflexivity.
  - exact R.
Qed.

Lemma attachment_is_last_row_witness :
  exists k, "1" = Py.str_of_int k /\
            forall a, last_attachment k (attachment_rows library) = Some a ->
                      dget "attachment" library_article = Some (VStr a).
Proof.
  apply (attachment_is_last_row {| mtime := 10; db := library |} blank)
    with (c := Some "Papers") (es := library_papers).
  - vm_compute. reflexivity.
  - vm_compute. left. reflexivity.
  - vm_compute. left. reflexivity.
Defined.

(** ** The entries that an export leaves alone *)

Lemma for_acc_inv_in {S A B} (I : S -> Prop) (l : list A)
    (body : A -> B -> M S B) :
  (forall x b s, In x l -> I s -> I (fst (body x b s))) ->
  forall b s, I s -> I (fst (for_acc l body b s)).
Proof.
  induction l as [|x r IH]; intros Hb b s Is; cbn [for_acc]; [exact Is|].
  apply bind_inv.
  - apply Hb; [now left|exact Is].
  - intros b' s' Is'. apply IH; [|exact Is'].
    intros y b'' s'' Iy. apply Hb. now right.
Qed.

Lemma on_entry_run {A} (m : M entry A) c i s es e :
  dget c (_e s) = Some es -> dget i es = Some e ->
  on_e (at_key c (at_key i m)) s
  = (set_e s (dset c (dset i (fst (m e)) es) (_e s)), snd (m e)).
Proof.
  intros Gc Gi. unfold on_e, at_key. rewrite Gc, Gi.
  now destruct (m e).
Qed.

Lemma on_entry_missing {A} (m : M entry A) c i s :
  (dget c (_e s) = None \/
   exists es, dget c (_e s) = Some es /\ dget i es = None) ->
  _e (fst (on_e (at_key c (at_key i m)) s)) = _e s.
Proof.
  unfold on_e, at_key. intros [Gc|(es & Gc & Gi)]; rewrite Gc.
  - reflexivity.
  - rewrite Gi. cbn. now apply dset_dget.
Qed.

Lemma stored_dset ix c id e c' i' x es' :
  stored ix c id e -> dget c' ix = Some es' ->
  (c' = c -> i' = id -> x = e) ->
  stored (dset c' (dset i' x es') ix) c id e.
Proof.
  intros (es & Gc & Gi) Gc' H. unfold stored.
  destruct (keqb_spec c' c) as [->|Nc].
  - rewrite dget_dset_same. eexists. split; [reflexivity|].
    rewrite Gc in Gc'. injection Gc' as <-.
    destruct (string_dec i' id) as [->|Ni].
    + rewrite dget_dset_same. f_equal. now apply H.
    + now rewrite dget_dset_other.
  - rewrite dget_dset_other by exact Nc. eauto.
Qed.

Lemma on_entry_raise {A} (m : M entry A) c i s :
  (dget c (_e s) = None \/
   exists es, dget c (_e s) = Some es /\ dget i es = None) ->
  exists x, on_e (at_key c (at_key i m)) s = (s, Raise x).
Proof.
  unfold on_e, at_key. intros [Gc|(es & Gc & Gi)]; rewrite Gc.
  - rewrite set_e_same. eauto.
  - rewrite Gi. rewrite (dset_dget _ _ _ Gc), set_e_same. eauto.
Qed.

(** One key of an export at one entry. *)
Lemma export_key_frame k c' i' ref s c id e :
  stored (_e s) c id e ->
  (forall z, dget "zotkey" e = Some z ->
             is_str (Py.sub_rest (Ascii.eqb "#") k) z = false) ->
  stored (_e (fst ((z <- on_e (at_key c' (at_key i' (getitem "zotkey"))) ;;
                    if is_str (Py.sub_rest (Ascii.eqb "#") k) z then
                      r <- on_e (at_key c' (at_key i' (_get_yaml_ref k))) ;;
                      ret (ref ++ r)
                    else ret ref) s))) c id e.
Proof.
  intros St H.
  assert (Missing :
            (dget c' (_e s) = None \/
             exists es, dget c' (_e s) = Some es /\ dget i' es = None) ->
            stored (_e (fst ((z <- on_e (at_key c' (at_key i' (getitem "zotkey"))) ;;
                    if is_str (Py.sub_rest (Ascii.eqb "#") k) z then
                      r <- on_e (at_key c' (at_key i' (_get_yaml_ref k))) ;;
                      ret (ref ++ r)
                    else ret ref) s))) c id e).
  { intro Mi.
    destruct (on_entry_raise (getitem "zotkey") c' i' s Mi) as [x R1].
    rewrite (bind_fail _ _ _ x) by now rewrite R1. now rewrite R1. }
  destruct (dget c' (_e s)) as [es'|] eqn:Gc; [|now apply Missing; left].
  destruct (dget i' es') as [ent|] eqn:Gi; [|apply Missing; right; eauto].
  clear Missing.
  pose proof (on_entry_run (getitem "zotkey") c' i' s es' ent Gc Gi) as R1.
  rewrite (pure_getitem "zotkey" ent) in R1.
  rewrite (dset_dget _ _ _ Gi), (dset_dget _ _ _ Gc), set_e_same in R1.
  destruct (dget "zotkey" ent) as [z|] eqn:Gz.
  - assert (Rz : snd (getitem "zotkey" ent) = Ok z)
      by (unfold getitem; now rewrite Gz).
    rewrite (bind_run _ _ _ z) by now rewrite R1. rewrite R1. cbn [fst].
    destruct (is_str _ z) eqn:Y; [|exact St].
    apply (bind_inv (fun s' => stored (_e s') c id e)); [|auto].
    rewrite (on_entry_run _ c' i' s es' ent Gc Gi). cbn [fst _e set_e].
    apply stored_dset; auto.
    intros -> ->. exfalso. destruct St as (es & Gc2 & Gi2).
    rewrite Gc in Gc2. injection Gc2 as <-.
    rewrite Gi in Gi2. injection Gi2 as <-.
    rewrite (H z Gz) in Y. discriminate.
  - rewrite (bind_fail _ _ _ (KeyError (KStr "zotkey")))
      by (rewrite R1; unfold getitem; now rewrite Gz).
    now rewrite R1.
Qed.

(** X21: an export leaves alone every entry whose Zotero key none of its
    keys names, whether it completes or raises: the rewriting of the
    export is confined to the entries that are exported. *)
Theorem GetYamlRefs_keeps_unnamed
    (keys : list string) (o : ZoteroEntries)
    (c : option string) (id : string) (e : entry) :
  stored (_e o) c id e ->
  (forall k z, In k keys -> dget "zotkey" e = Some z ->
               is_str (Py.sub_rest (Ascii.eqb "#") k) z = false) ->
  stored (_e (fst (GetYamlRefs keys o))) c id e.
Proof.
  intros S0 H. unfold GetYamlRefs. rewrite bind_get.
  pose (I := fun s : ZoteroEntries => stored (_e s) c id e).
  apply (bind_inv I); [|auto].
  apply for_acc_inv; [|exact S0]. intros c' ref s1 I1.
  apply (bind_inv I).
  { unfold on_e, getitem. destruct (dget c' (_e s1)); exact I1. }
  intros es0 s2 I2.
  apply for_acc_inv; [|exact I2]. intros i' ref' s3 I3.
  apply for_acc_inv_in; [|exact I3]. intros k ref'' s Ik Is.
  apply export_key_frame; [exact Is|]. intros z. now apply H.
Qed.

Lemma GetYamlRefs_keeps_unnamed_witness :
  stored (_e (fst (GetYamlRefs ["AAAA#Smith_2020"] bound))) None "2"
         (match dget None (_e bound) with
          | Some es => match dget "2" es with Some e => e | None => [] end
          | None => []
          end).
Proof.
  apply (GetYamlRefs_keeps_unnamed ["AAAA#Smith_2020"] bound None "2").
  - eexists. split; vm_compute; reflexivity.
  - intros k z [<-|[]] G. vm_compute in G. injection G as <-.
    vm_compute. reflexivity.
Defined.

(** ** Documents bound to a collection that is gone *)

Lemma match_collections_app ptrn ix pre rest : forall b,
  match_collections ptrn ix (pre ++ rest) b
  = let? b' := match_collections ptrn ix pre b in
    match_collections ptrn ix rest b'.
Proof.
  induction pre as [|c pre IH]; intro b; cbn [app match_collections rbind];
    [reflexivity|].
  destruct (dget c ix) as [es|]; [|reflexivity].
  destruct (match_entries ptrn es b) as [b1|x]; cbn [rbind]; [apply IH|reflexivity].
Qed.

(** X22: when no reload is due, a search for a document bound to a name
    that is no collection of the object, as a name can be after a reload,
    which leaves the documents as they are, raises the [KeyError] of the
    first such name once the collections before it are searched, and
    leaves the object as it is. *)
Theorem GetMatch_missing_collection
    (w : world) (o : ZoteroEntries) (ptrn d : string)
    (pre : list (option string)) (c : option string)
    (post : list (option string)) :
  mtime w <= _m o ->
  dget d (_d o) = Some (pre ++ c :: post)%list ->
  Forall (fun x => dmem x (_e o) = true) pre ->
  dmem c (_e o) = false ->
  (forall c es id e, In (c, es) (_e o) -> In (id, e) es ->
     (exists s, dget "zotkey" e = Some (VStr s)) /\
     (exists s, dget "citekey" e = Some (VStr s)) /\
     (exists s, dget "alastnm" e = Some (VStr s)) /\
     (exists s, dget "year" e = Some (VStr s)) /\
     (exists s, dget "title" e = Some (VStr s))) ->
  GetMatch w ptrn d o = (o, Raise (KeyError (key_repr c))).
Proof.
  intros L G F D J. rewrite GetMatch_run.
  replace (mtime w >? _m o) with false
    by (symmetry; rewrite Z.gtb_ltb; apply Z.ltb_ge; exact L).
  rewrite (bind_run _ _ _ tt) by reflexivity. cbn [fst ret].
  unfold find_matches, bind, on_d, getitem, get, lift, ret.
  rewrite G. cbn [fst snd _e set_d].
  destruct (match_collections_total ptrn (_e o) pre no_levels J F) as [b E].
  replace (match (pre ++ c :: post)%list with
           | [] => dkeys (_e o)
           | _ :: _ => (pre ++ c :: post)%list
           end) with (pre ++ c :: post)%list by now destruct pre.
  rewrite match_collections_app, E. cbn [rbind match_collections].
  unfold dmem in D. destruct (dget c (_e o)); [discriminate|].
  cbn. now destruct o.
Qed.

Lemma GetMatch_missing_collection_witness :
  GetMatch {| mtime := 10; db := library |} "sys" "paper.md" dangling
  = (dangling, Raise (KeyError (KStr "Drafts"))).
Proof.
  apply (GetMatch_missing_collection {| mtime := 10; db := library |} dangling
           "sys" "paper.md" [Some "Papers"] (Some "Drafts") []).
  - vm_compute. discriminate.
  - reflexivity.
  - constructor; [reflexivity|constructor].
  - reflexivity.
  - intros c es id e [Ic|[]] Ie. injection Ic as <- <-.
    destruct Ie as [Ie|[]]. injection Ie as <- <-.
    repeat split; eexists; reflexivity.
Defined.
